(** * hexagen: the project generator of [main.go], embedded in Rocq

    The generator creates a fixed directory tree below a target root,
    writes [go.mod] and a [Makefile], and renders four embedded templates.

    - The file system is a finite map from resolved paths to entries
      (regular files with their content, directories). Names are resolved
      lexically, as [filepath.Clean] does; there are no symbolic links.
    - A call fails for what the file system holds: a regular file where a
      directory is needed, a directory where a file is to be written, a
      missing parent; and [os.MkdirAll] refuses the empty name. There are
      no permissions and no quotas, so removing an entry never fails.
    - Every call the program makes to the operating system, to the
      template store or to the template engine is recorded in a trace, in
      order, so that statements about the order of calls and about calls
      that are never made can be expressed.
    - The embedded template store and the template engine are
      parameters of [generate]. [GoTemplate] is a model of the fragment
      of [text/template] that substitution needs. *)

From Stdlib Require Import String Ascii List Bool.
From stdpp Require Import base strings list gmap sorting.

Local Open Scope string_scope.
Local Open Scope list_scope.

(** ** Paths ([path/filepath]) *)

(** A resolved absolute path is the list of its components, outermost
    first; [[]] is the file-system root. *)
Abbreviation path := (list string).

(** The components of a slash-separated name, empty ones included:
    [split_slash "a//b" = ["a"; ""; "b"]]. *)
Fixpoint split_slash (s : string) : list string :=
  match s with
  | EmptyString => [""]
  | String c s' =>
      if Ascii.eqb c "/" then "" :: split_slash s'
      else match split_slash s' with
           | x :: xs => String c x :: xs
           | [] => [String c ""]
           end
  end.

(** One step of the lexical cleaning of [filepath.Clean]: empty and ["."]
    components vanish, [".."] drops the last component (and stays at the
    root). *)
Definition walk_step (p : path) (c : string) : path :=
  if String.eqb c "" || String.eqb c "." then p
  else if String.eqb c ".." then removelast p
  else p ++ [c].

Definition walk (base : path) (rel : string) : path :=
  foldl walk_step base (split_slash rel).

(** [filepath.Join(base, rel)], with [base] already resolved. *)
Definition filepath_Join (base : path) (rel : string) : path := walk base rel.

(** [filepath.Dir] of a resolved path. *)
Definition filepath_Dir (p : path) : path := removelast p.

Definition is_abs (s : string) : bool :=
  match s with String c _ => Ascii.eqb c "/" | EmptyString => false end.

(** [filepath.Abs(name)] in a process whose working directory is [cwd]. *)
Definition filepath_Abs (cwd : path) (name : string) : path :=
  if is_abs name then walk [] name else walk cwd name.

(** The textual form of a resolved path, used in error values. *)
Definition path_string (p : path) : string :=
  match p with
  | [] => "/"
  | _ => foldr (fun c acc => "/" +:+ c +:+ acc) "" p
  end.

(** ** Errors *)

Inductive errno := ENOENT | ENOTDIR | EISDIR.

(** Go [error] values: [*fs.PathError] from [os] and [embed], and the
    errors of the template engine. *)
Inductive error :=
| PathError (op : string) (name : string) (err : errno)
| ParseError (msg : string)
| ExecError (msg : string).

(** ** The file system *)

Inductive entry :=
| RegFile (content : string)
| Directory.

Abbreviation filesystem := (gmap (list string) entry).

(** [os.Stat]: the root always is a directory. *)
Definition stat (m : filesystem) (p : path) : option entry :=
  match p with [] => Some Directory | _ => m !! p end.

(** The non-empty prefixes of a path, shortest first. *)
Fixpoint prefixes (p : path) : list path :=
  match p with
  | [] => []
  | c :: q => [c] :: map (cons c) (prefixes q)
  end.

Definition is_file (m : filesystem) (q : path) : bool :=
  match m !! q with Some (RegFile _) => true | _ => false end.

Definition mkdir1 (m : filesystem) (q : path) : filesystem :=
  match m !! q with None => <[q := Directory]> m | Some _ => m end.

(** [os.MkdirAll]: fails with ENOTDIR, changing nothing, when the path
    or one of its ancestors is a regular file; otherwise every missing
    directory on the way is created, and existing ones are left alone. *)
Definition fs_mkdir_all (p : path) (m : filesystem) : filesystem * option error :=
  match find (is_file m) (prefixes p) with
  | Some q => (m, Some (PathError "mkdir" (path_string q) ENOTDIR))
  | None => (foldl mkdir1 m (prefixes p), None)
  end.

(** Opening a file with [O_CREATE|O_TRUNC] and writing [data] to it
    ([os.WriteFile]; [os.Create] is the case [data = ""]): the parent must
    be a directory and the path itself must not be one. *)
Definition fs_write (op : string) (p : path) (data : string) (m : filesystem)
  : filesystem * option error :=
  match p with
  | [] => (m, Some (PathError op (path_string p) EISDIR))
  | _ =>
      match stat m (removelast p) with
      | None => (m, Some (PathError op (path_string p) ENOENT))
      | Some (RegFile _) => (m, Some (PathError op (path_string p) ENOTDIR))
      | Some Directory =>
          match m !! p with
          | Some Directory => (m, Some (PathError op (path_string p) EISDIR))
          | _ => (<[p := RegFile data]> m, None)
          end
      end
  end.

(** [os.RemoveAll]: the path and everything below it disappear; removing
    what does not exist is no error. *)
Definition fs_remove_all (p : path) (m : filesystem) : filesystem :=
  filter (fun kv => ¬ p `prefix_of` kv.1) m.

Definition string_le (a b : string) : Prop := String.leb a b = true.

#[global] Instance string_le_dec (a b : string) : Decision (string_le a b).
Proof. unfold string_le. apply _. Defined.

(** The name of [k] when [k] is an immediate child of [p]. *)
Definition child_name (p k : path) : option string :=
  match last k with
  | Some c => if decide (k = p ++ [c]) then Some c else None
  | None => None
  end.

(** The names of the entries of directory [p], sorted by name as
    [os.ReadDir] returns them. *)
Definition children (p : path) (m : filesystem) : list string :=
  merge_sort string_le (omap (fun kv => child_name p kv.1) (map_to_list m)).

Definition fs_read_dir (p : path) (m : filesystem) : list string * option error :=
  match stat m p with
  | Some Directory => (children p m, None)
  | Some (RegFile _) => ([], Some (PathError "open" (path_string p) ENOTDIR))
  | None => ([], Some (PathError "open" (path_string p) ENOENT))
  end.

(** ** The world of a run: file system and trace of calls *)

(** The calls the program makes to the operating system, the template
    store and the template engine. A call is recorded whether it succeeds
    or not; [ExecuteCall p out] is an execution of a template that wrote
    [out] to the file opened at [p], and [RejectedCall op name] a call that
    the system refuses for its name, before it looks at the file system. *)
Inductive call :=
| MkdirAllCall (p : path)
| ReadDirCall (p : path)
| RemoveAllCall (p : path)
| WriteFileCall (p : path) (data : string)
| ReadTemplateCall (name : string)
| ParseCall (name : string)
| CreateCall (p : path)
| ExecuteCall (p : path) (out : string)
| CloseCall (p : path)
| RejectedCall (op : string) (name : string).

(** Writing through the handle of the file opened at [p]. *)
Definition fs_write_handle (p : path) (out : string) (m : filesystem) : filesystem :=
  match m !! p with
  | Some (RegFile _) => <[p := RegFile out]> m
  | _ => m
  end.

(** What a call does to the file system. *)
Definition apply_call (c : call) (m : filesystem) : filesystem :=
  match c with
  | MkdirAllCall p => (fs_mkdir_all p m).1
  | WriteFileCall p data => (fs_write "open" p data m).1
  | CreateCall p => (fs_write "open" p "" m).1
  | ExecuteCall p out => fs_write_handle p out m
  | RemoveAllCall p => fs_remove_all p m
  | ReadDirCall _ | ReadTemplateCall _ | ParseCall _ | CloseCall _
  | RejectedCall _ _ => m
  end.

Record world := World { fs : filesystem; trace : list call }.

(** Effectful code is a state transformer on the world; a Go function
    returning [error] returns [option error]. *)
Definition ST (S A : Type) : Type := S -> A * S.

Definition IO (A : Type) : Type := ST world A.

Definition ret {S A} (a : A) : ST S A := fun w => (a, w).

Definition bind {S A B} (m : ST S A) (k : A -> ST S B) : ST S B :=
  fun w => let '(a, w') := m w in k a w'.

(** [if err := m; err != nil { return err }], then [k]. *)
Definition check {S} (m : ST S (option error)) (k : ST S (option error))
  : ST S (option error) :=
  bind m (fun r => match r with Some err => ret (Some err) | None => k end).

Declare Scope io_scope.
Delimit Scope io_scope with io.
Notation "'let!' x ':=' m 'in' k" := (bind m (fun x => k))
  (at level 10, x pattern, m at level 99, k at level 200) : io_scope.
Notation "'run!' m ;; k" := (bind m (fun _ => k))
  (at level 10, m at level 99, k at level 200) : io_scope.
Notation "'check!' m ;; k" := (check m k)
  (at level 10, m at level 99, k at level 200) : io_scope.
Local Open Scope io_scope.

(** [for _, x := range l { body x }] *)
Fixpoint for_each {S A} (l : list A) (body : A -> ST S unit) : ST S unit :=
  match l with
  | [] => ret tt
  | x :: l' => run! body x ;; for_each l' body
  end.

(** Making a call: its effect on the file system, and its record. *)
Definition perform (c : call) (w : world) : world :=
  World (apply_call c (fs w)) (trace w ++ [c]).

Definition os_MkdirAll (p : path) : IO (option error) := fun w =>
  ((fs_mkdir_all p (fs w)).2, perform (MkdirAllCall p) w).

(** [os.MkdirAll] on a name as the user gives it, in a process whose
    working directory is [cwd]: the empty name is refused with ENOENT, any
    other name is resolved against [cwd], lexically as [filepath.Abs]
    does. *)
Definition os_MkdirAll_name (cwd : path) (name : string) : IO (option error) :=
  if String.eqb name "" then
    fun w => (Some (PathError "mkdir" name ENOENT),
              perform (RejectedCall "mkdir" name) w)
  else os_MkdirAll (filepath_Abs cwd name).

Definition os_WriteFile (p : path) (data : string) : IO (option error) := fun w =>
  ((fs_write "open" p data (fs w)).2, perform (WriteFileCall p data) w).

Definition os_Create (p : path) : IO (option error) := fun w =>
  ((fs_write "open" p "" (fs w)).2, perform (CreateCall p) w).

Definition os_ReadDir (p : path) : IO (list string * option error) := fun w =>
  (fs_read_dir p (fs w), perform (ReadDirCall p) w).

Definition os_RemoveAll (p : path) : IO (option error) := fun w =>
  (None, perform (RemoveAllCall p) w).

(** Closing the output file. *)
Definition file_Close (p : path) : IO unit := fun w =>
  (tt, perform (CloseCall p) w).

(** ** The template engine ([text/template]) *)

(** What the generator uses of the engine: parsing the text of a named
    template, and executing a parsed template on a [map[string]string],
    which yields the bytes written to the output before execution ended
    and the error that ended it, if any. *)
Record Engine := {
  template : Type;
  Parse : string -> string -> template + error;
  Execute : template -> gmap string string -> string * option error
}.

(** ** The generator *)

Record Config := {
  Root : string;
  ModuleName : string;
  Port : string;
  Gitkeep : bool;
  Clean : bool
}.

Definition dirs : list string := [
  "cmd";
  "commons/constants";
  "commons/error";
  "commons/utils";
  "config/constants";
  "config/env";
  "config/init";
  "recievers";
  "services/serviceName/service_init";
  "services/serviceName/data";
  "services/serviceName/internal";
  "services/serviceName/routes";
  "services/serviceName/utils"
].

Definition goMod_content (module : string) : string :=
  "module " +:+ module +:+ "

go 1.22.0
".

Definition writeGoMod (root : path) (module : string) : IO (option error) :=
  let content := goMod_content module in
  os_WriteFile (filepath_Join root "go.mod") content.

Definition Makefile_content (port : string) : string :=
  "PORT ?= " +:+ port +:+ "

run:
	go run ./cmd/main.go

build:
	go build -o bin/app ./cmd/main.go

test:
	go test ./...

setup:
	go mod tidy
".

Definition writeMakefile (root : path) (port : string) : IO (option error) :=
  let content := Makefile_content port in
  os_WriteFile (filepath_Join root "Makefile") content.

Section Generator.

(** The embedded template store ([templateFS], filled from the
    [templates] directory at build time), the template engine and the
    working directory of the process. *)
Variable templateFS : string -> option string.
Variable engine : Engine.
Variable cwd : path.

Definition templateFS_ReadFile (name : string) : IO (string + error) := fun w =>
  (match templateFS name with
   | Some text => inl text
   | None => inr (PathError "open" name ENOENT)
   end, perform (ReadTemplateCall name) w).

Definition template_Parse (name text : string) : IO (template engine + error) := fun w =>
  (Parse engine name text, perform (ParseCall name) w).

(** [tmpl.Execute(f, data)] with [f] the file just created at [p]: what
    the engine writes becomes the content of the file. *)
Definition template_Execute (tmpl : template engine) (p : path)
    (data : gmap string string) : IO (option error) := fun w =>
  let '(out, r) := Execute engine tmpl data in
  (r, perform (ExecuteCall p out) w).

Definition writeTemplate (root : path) (outputPath templateName : string)
    (cfg : Config) : IO (option error) :=
  let! r := templateFS_ReadFile ("templates/" +:+ templateName) in
  match r with
  | inr err => ret (Some err)
  | inl tmplBytes =>
      let! r := template_Parse templateName tmplBytes in
      match r with
      | inr err => ret (Some err)
      | inl tmpl =>
          let outPath := filepath_Join root outputPath in
          run! os_MkdirAll (filepath_Dir outPath) ;;
          let! r := os_Create outPath in
          match r with
          | Some err => ret (Some err)
          | None =>
              let data : gmap string string :=
                <["MODULE" := ModuleName cfg]> (<["PORT" := Port cfg]> ∅) in
              let! r := template_Execute tmpl outPath data in
              run! file_Close outPath ;;
              ret r
          end
      end
  end.

Definition generate (cfg : Config) : IO (option error) :=
  check! os_MkdirAll_name cwd (Root cfg) ;;
  let rootAbs := filepath_Abs cwd (Root cfg) in
  run! (if Clean cfg then
          let! (entries, _) := os_ReadDir rootAbs in
          for_each entries (fun e =>
            run! os_RemoveAll (filepath_Join rootAbs e) ;; ret tt)
        else ret tt) ;;
  run! for_each dirs (fun dir =>
         let path := filepath_Join rootAbs dir in
         run! os_MkdirAll path ;;
         if Gitkeep cfg then
           run! os_WriteFile (filepath_Join path ".gitkeep") "" ;; ret tt
         else ret tt) ;;
  check! writeGoMod rootAbs (ModuleName cfg) ;;
  check! writeMakefile rootAbs (Port cfg) ;;
  check! writeTemplate rootAbs "cmd/main.go" "main.go.tmpl" cfg ;;
  check! writeTemplate rootAbs "services/serviceName/routes/router.go" "router.go.tmpl" cfg ;;
  check! writeTemplate rootAbs "config/init/serverConfig.go" "serverConfig.go.tmpl" cfg ;;
  check! writeTemplate rootAbs "commons/utils/logger.go" "logger.go.tmpl" cfg ;;
  ret None.

End Generator.

(** ** The command line ([main]) *)

Definition version : string := "1.0.0".

(** The values of the flags after [flag.Parse]. *)
Record Flags := {
  flag_i : bool;
  flag_version : bool;
  flag_r : string;
  flag_m : string;
  flag_p : string;
  flag_g : bool;
  flag_c : bool
}.

(** The flags of an invocation without arguments. *)
Definition default_flags : Flags :=
  {| flag_i := false; flag_version := false; flag_r := "."; flag_m := "";
     flag_p := "8080"; flag_g := false; flag_c := false |}.

(** A process: the standard streams and the world. *)
Record process := Process {
  stdin : string;
  stdout : string;
  stderr : string;
  os : world
}.

Definition Proc (A : Type) : Type := ST process A.

Definition liftOS {A} (m : IO A) : Proc A := fun p =>
  let '(a, w) := m (os p) in
  (a, Process (stdin p) (stdout p) (stderr p) w).

Definition fmt_Print (s : string) : Proc unit := fun p =>
  (tt, Process (stdin p) (stdout p +:+ s) (stderr p) (os p)).

Definition fmt_Fprint_Stderr (s : string) : Proc unit := fun p =>
  (tt, Process (stdin p) (stdout p) (stderr p +:+ s) (os p)).

Definition LF : string := String "010" EmptyString.

(** The next line of [s] with its newline, and what follows it; at the
    end of the input, what is left. *)
Fixpoint read_line (s : string) : string * string :=
  match s with
  | EmptyString => ("", "")
  | String c s' =>
      if Ascii.eqb c "010" then (String c "", s')
      else let '(l, r) := read_line s' in (String c l, r)
  end.

(** [reader.ReadString('\n')] on standard input, its error dropped. *)
Definition reader_ReadString : Proc string := fun p =>
  let '(l, r) := read_line (stdin p) in
  (l, Process r (stdout p) (stderr p) (os p)).

(** White space as [strings.TrimSpace] sees it, for ASCII text. *)
Definition is_space (c : ascii) : bool :=
  let n := nat_of_ascii c in
  (Nat.leb 9 n && Nat.leb n 13) || Nat.eqb n 32.

Fixpoint trim_left (s : string) : string :=
  match s with
  | String c s' => if is_space c then trim_left s' else s
  | EmptyString => ""
  end.

Fixpoint trim_right (s : string) : string :=
  match s with
  | EmptyString => ""
  | String c s' =>
      match trim_right s' with
      | EmptyString => if is_space c then "" else String c ""
      | t => String c t
      end
  end.

Definition strings_TrimSpace (s : string) : string := trim_right (trim_left s).

Definition lower (c : ascii) : ascii :=
  let n := nat_of_ascii c in
  if Nat.leb 65 n && Nat.leb n 90 then ascii_of_nat (n + 32) else c.

Fixpoint strings_ToLower (s : string) : string :=
  match s with
  | EmptyString => ""
  | String c s' => String (lower c) (strings_ToLower s')
  end.

Definition errno_Error (e : errno) : string :=
  match e with
  | ENOENT => "no such file or directory"
  | ENOTDIR => "not a directory"
  | EISDIR => "is a directory"
  end.

(** [err.Error()], what [%v] prints of an error. *)
Definition error_Error (e : error) : string :=
  match e with
  | PathError op name err => op +:+ " " +:+ name +:+ ": " +:+ errno_Error err
  | ParseError msg => msg
  | ExecError msg => msg
  end.

Section Main.

Variable templateFS : string -> option string.
Variable engine : Engine.
Variable cwd : path.

(** The configuration [main] hands to [generate]: the flags, then the
    answers of the interactive mode, then the default module name. *)
Definition resolve_config (flags : Flags) : Proc Config :=
  let cfg := {| Root := flag_r flags; ModuleName := flag_m flags;
                Port := flag_p flags; Gitkeep := flag_g flags;
                Clean := flag_c flags |} in
  let! cfg :=
    (if flag_i flags then
       run! fmt_Print "Project directory (default: .): " ;;
       let! input := reader_ReadString in
       let cfg :=
         if negb (String.eqb (strings_TrimSpace input) "") then
           {| Root := strings_TrimSpace input; ModuleName := ModuleName cfg;
              Port := Port cfg; Gitkeep := Gitkeep cfg; Clean := Clean cfg |}
         else cfg in
       run! fmt_Print "Go module name (github.com/user/project): " ;;
       let! input := reader_ReadString in
       let cfg :=
         if negb (String.eqb (strings_TrimSpace input) "") then
           {| Root := Root cfg; ModuleName := strings_TrimSpace input;
              Port := Port cfg; Gitkeep := Gitkeep cfg; Clean := Clean cfg |}
         else cfg in
       run! fmt_Print ("Server port (default: " +:+ Port cfg +:+ "): ") ;;
       let! input := reader_ReadString in
       let cfg :=
         if negb (String.eqb (strings_TrimSpace input) "") then
           {| Root := Root cfg; ModuleName := ModuleName cfg;
              Port := strings_TrimSpace input; Gitkeep := Gitkeep cfg;
              Clean := Clean cfg |}
         else cfg in
       run! fmt_Print "Add .gitkeep files? (y/N): " ;;
       let! input := reader_ReadString in
       let cfg :=
         if String.eqb (strings_ToLower (strings_TrimSpace input)) "y" then
           {| Root := Root cfg; ModuleName := ModuleName cfg;
              Port := Port cfg; Gitkeep := true; Clean := Clean cfg |}
         else cfg in
       run! fmt_Print "Clean target directory first? (y/N): " ;;
       let! input := reader_ReadString in
       let cfg :=
         if String.eqb (strings_ToLower (strings_TrimSpace input)) "y" then
           {| Root := Root cfg; ModuleName := ModuleName cfg;
              Port := Port cfg; Gitkeep := Gitkeep cfg; Clean := true |}
         else cfg in
       ret cfg
     else ret cfg) in
  let cfg :=
    if String.eqb (ModuleName cfg) "" then
      {| Root := Root cfg; ModuleName := "service.com/service";
         Port := Port cfg; Gitkeep := Gitkeep cfg; Clean := Clean cfg |}
    else cfg in
  ret cfg.

(** [main]; the result is the exit code of the process. *)
Definition main (flags : Flags) : Proc nat :=
  if flag_version flags then
    run! fmt_Print ("hexagen version " +:+ version +:+ LF) ;;
    ret 0
  else
    let! cfg := resolve_config flags in
    let! r := liftOS (generate templateFS engine cwd cfg) in
    match r with
    | Some err =>
        run! fmt_Fprint_Stderr ("Error: " +:+ error_Error err +:+ LF) ;;
        ret 1
    | None =>
        run! fmt_Print (LF +:+ "✓ Done! Your project is ready." +:+ LF) ;;
        run! fmt_Print (LF +:+ "Next steps:" +:+ LF) ;;
        run! fmt_Print ("  cd " +:+ Root cfg +:+ LF) ;;
        run! fmt_Print ("  make run" +:+ LF) ;;
        ret 0
    end.

End Main.

(** [no_char x s]: the character [x] does not occur in [s]. *)
Fixpoint no_char (x : ascii) (s : string) : bool :=
  match s with
  | EmptyString => true
  | String c s' => negb (Ascii.eqb c x) && no_char x s'
  end.

(** ** The substitution fragment of [text/template]

    The part of Go's template language that substitution needs: literal
    text and field actions [{{.A}}], [{{.A.B}}], executed on a
    [map[string]string] with the engine's default options. Other actions
    are outside this fragment and rejected by [parse]. *)
Module GoTemplate.

Inductive node :=
| TextNode (text : string)
| FieldNode (ident : list string).

Inductive item :=
| ItemText (text : string)
| ItemAction (body : string).

(** The lexer: [scan inside s] gives the text up to the next delimiter
    ([{{] outside an action, [}}] inside one) and the items after it. An
    action left open at the end of the input is an error. *)
Fixpoint scan (inside : bool) (s : string) : option (string * list item) :=
  match s with
  | EmptyString => if inside then None else Some ("", [])
  | String c s' =>
      let other :=
        match scan inside s' with
        | Some (t, items) => Some (String c t, items)
        | None => None
        end in
      match s' with
      | String c' s'' =>
          if negb inside && Ascii.eqb c "{" && Ascii.eqb c' "{" then
            match scan true s'' with
            | Some (a, items) => Some ("", ItemAction a :: items)
            | None => None
            end
          else if inside && Ascii.eqb c "}" && Ascii.eqb c' "}" then
            match scan false s'' with
            | Some (t, items) => Some ("", ItemText t :: items)
            | None => None
            end
          else other
      | EmptyString => other
      end
  end.

Definition lex (s : string) : option (list item) :=
  match scan false s with
  | Some (t, items) => Some (ItemText t :: items)
  | None => None
  end.

Definition is_ident_char (c : ascii) : bool :=
  let n := nat_of_ascii c in
  (Nat.leb 48 n && Nat.leb n 57) || (Nat.leb 65 n && Nat.leb n 90)
  || (Nat.leb 97 n && Nat.leb n 122) || Nat.eqb n 95.

Fixpoint all_ident (s : string) : bool :=
  match s with
  | EmptyString => true
  | String c s' => is_ident_char c && all_ident s'
  end.

(** The names of a field chain [.A.B]: split at the dots. *)
Fixpoint split_dot (s : string) : list string :=
  match s with
  | EmptyString => [""]
  | String c s' =>
      if Ascii.eqb c "." then "" :: split_dot s'
      else match split_dot s' with
           | x :: xs => String c x :: xs
           | [] => [String c ""]
           end
  end.

Definition is_digit (c : ascii) : bool :=
  let n := nat_of_ascii c in Nat.leb 48 n && Nat.leb n 57.

(** A field name: letters, digits and underscores, not starting with a
    digit. *)
Definition is_name (s : string) : bool :=
  match s with
  | EmptyString => false
  | String c _ => negb (is_digit c) && all_ident s
  end.

(** The body of an action, white space around it removed, must be a
    field chain. Vertical tab and form feed are no white space to the
    lexer of actions. *)
Definition parse_action (body : string) : option node :=
  if no_char "011" body && no_char "012" body then
    match split_dot (strings_TrimSpace body) with
    | "" :: k :: ks =>
        if forallb is_name (k :: ks) then Some (FieldNode (k :: ks)) else None
    | _ => None
    end
  else None.

Fixpoint parse_items (items : list item) : option (list node) :=
  match items with
  | [] => Some []
  | ItemText "" :: items' => parse_items items'
  | ItemText t :: items' =>
      match parse_items items' with
      | Some ns => Some (TextNode t :: ns)
      | None => None
      end
  | ItemAction a :: items' =>
      match parse_action a, parse_items items' with
      | Some n, Some ns => Some (n :: ns)
      | _, _ => None
      end
  end.

Definition parse (name text : string) : list node + error :=
  match lex text with
  | Some items =>
      match parse_items items with
      | Some ns => inl ns
      | None => inr (ParseError ("template: " +:+ name +:+ ": unexpected action"))
      end
  | None => inr (ParseError ("template: " +:+ name +:+ ": unclosed action"))
  end.

(** The value of a field chain on the data map. A key that is absent
    gives the invalid value, which prints as [<no value>], and so does
    every field of it; a field of a string is an error. *)
Definition eval_field (ident : list string) (data : gmap string string)
  : string + error :=
  match ident with
  | [] => inl "<no value>"
  | k :: rest =>
      match data !! k with
      | None => inl "<no value>"
      | Some v =>
          match rest with
          | [] => inl v
          | f :: _ =>
              inr (ExecError ("can't evaluate field " +:+ f +:+ " in type string"))
          end
      end
  end.

(** Execution walks the nodes in order and writes each result at once:
    what was written before an error stays written. *)
Fixpoint execute (t : list node) (data : gmap string string)
  : string * option error :=
  match t with
  | [] => ("", None)
  | TextNode s :: t' =>
      let '(out, r) := execute t' data in (s +:+ out, r)
  | FieldNode ident :: t' =>
      match eval_field ident data with
      | inl v => let '(out, r) := execute t' data in (v +:+ out, r)
      | inr e => ("", Some e)
      end
  end.

Definition engine : Engine :=
  {| template := list node; Parse := parse; Execute := execute |}.

(** The source text of a field action. *)
Definition field_source (name : string) : string := "{{." +:+ name +:+ "}}".

End GoTemplate.

(** ** Well-formed file systems and sequences of calls *)

Fixpoint no_slash (s : string) : bool :=
  match s with
  | EmptyString => true
  | String c s' => negb (Ascii.eqb c "/") && no_slash s'
  end.

(** A name a directory entry can have. *)
Definition valid_name (c : string) : bool :=
  negb (String.eqb c "") && negb (String.eqb c ".")
  && negb (String.eqb c "..") && no_slash c.

(** Every entry but the root lies in a directory. *)
Definition closed (m : filesystem) : Prop :=
  forall (p : path) (c : string),
    is_Some (m !! (p ++ [c])) -> stat m p = Some Directory.

(** Every component of every path is a name. *)
Definition named (m : filesystem) : Prop :=
  forall k : path, is_Some (m !! k) -> Forall (fun c => valid_name c = true) k.

(** A well-formed file system. *)
Definition wf (m : filesystem) : Prop := closed m /\ named m.

(** The file system after a sequence of calls. *)
Definition replay (cs : list call) (m : filesystem) : filesystem :=
  foldl (fun m c => apply_call c m) m cs.

Definition perform_all (cs : list call) (w : world) : world :=
  World (replay cs (fs w)) (trace w ++ cs).

(** The calls of the directory loop of [generate]. *)
Definition dir_calls (gitkeep : bool) (root : path) : list call :=
  flat_map (fun dir =>
    MkdirAllCall (filepath_Join root dir)
    :: (if gitkeep
        then [WriteFileCall (filepath_Join (filepath_Join root dir) ".gitkeep") ""]
        else [])) dirs.

(** The calls of the clean step of [generate] on file system [m]. *)
Definition clean_calls (root : path) (m : filesystem) : list call :=
  ReadDirCall root
  :: map (fun e => RemoveAllCall (filepath_Join root e)) (fs_read_dir root m).1.

(** The calls of the clean step under a configuration. *)
Definition cleaning (cfg : Config) (root : path) (m : filesystem) : list call :=
  if Clean cfg then clean_calls root m else [].

(** The template manifest: the output paths and template names of the
    four [writeTemplate] calls of [generate], in their order. *)
Definition templates : list (string * string) := [
  ("cmd/main.go", "main.go.tmpl");
  ("services/serviceName/routes/router.go", "router.go.tmpl");
  ("config/init/serverConfig.go", "serverConfig.go.tmpl");
  ("commons/utils/logger.go", "logger.go.tmpl")
].

Definition is_removal (c : call) : bool :=
  match c with ReadDirCall _ | RemoveAllCall _ => true | _ => false end.

Definition is_creation (c : call) : bool :=
  match c with
  | MkdirAllCall _ | WriteFileCall _ _ | CreateCall _ | ExecuteCall _ _ => true
  | _ => false
  end.

Fixpoint no_space (s : string) : bool :=
  match s with
  | EmptyString => true
  | String c s' => negb (is_space c) && no_space s'
  end.

(** ** The phases of [generate] *)

Section Phases.

Variable templateFS : string -> option string.
Variable engine : Engine.
Variable cwd : path.

(** The clean step of [generate]. *)
Definition phase_clean (rootAbs : path) (cfg : Config) : IO unit :=
  if Clean cfg then
    let! (entries, _) := os_ReadDir rootAbs in
    for_each entries (fun e =>
      run! os_RemoveAll (filepath_Join rootAbs e) ;; ret tt)
  else ret tt.

(** The directory loop of [generate]. *)
Definition phase_dirs (rootAbs : path) (cfg : Config) : IO unit :=
  for_each dirs (fun dir =>
    let path := filepath_Join rootAbs dir in
    run! os_MkdirAll path ;;
    if Gitkeep cfg then
      run! os_WriteFile (filepath_Join path ".gitkeep") "" ;; ret tt
    else ret tt).

(** Rendering the entries of a template manifest in order, stopping at
    the first error. *)
Fixpoint render (rootAbs : path) (cfg : Config) (l : list (string * string))
  : IO (option error) :=
  match l with
  | [] => ret None
  | (outputPath, templateName) :: l' =>
      check! writeTemplate templateFS engine rootAbs outputPath templateName cfg ;;
      render rootAbs cfg l'
  end.

(** The file steps of [generate]: the static files, then the templates. *)
Definition phase_files (rootAbs : path) (cfg : Config) : IO (option error) :=
  check! writeGoMod rootAbs (ModuleName cfg) ;;
  check! writeMakefile rootAbs (Port cfg) ;;
  render rootAbs cfg templates.

(** What [generate] does once the root exists and is cleaned. *)
Definition phase_tail (rootAbs : path) (cfg : Config) : IO (option error) :=
  run! phase_dirs rootAbs cfg ;;
  phase_files rootAbs cfg.

End Phases.

(** ** Predicates on calls, and the statements that do not hold as worded *)

(** The paths a call may create must consist of names. *)
Definition valid_call (c : call) : Prop :=
  match c with
  | MkdirAllCall p | WriteFileCall p _ | CreateCall p =>
      Forall (fun c => valid_name c = true) p
  | _ => True
  end.

(** [within P m]: whatever the world, [m] makes a sequence of calls that
    all satisfy [P]; its result and these calls depend on the file system
    only, and its final world is the initial one after these calls. *)
Definition within {A} (P : call -> Prop) (m : IO A) : Prop :=
  forall w, exists cs, Forall P cs /\
    forall w', fs w' = fs w -> m w' = ((m w).1, perform_all cs w').

(** The resolved form of a relative name. *)
Definition rel (s : string) : path := walk [] s.

(** A name without [..] components. *)
Definition plain (s : string) : bool :=
  forallb (fun c => negb (String.eqb c "..")) (split_slash s).

(** The calls [generate] can make once the root exists and is cleaned. *)
Definition tail_call (gitkeep : bool) (root : path) (c : call) : Prop :=
  match c with
  | MkdirAllCall p =>
      p ∈ map (fun d => root ++ rel d) dirs
      \/ p ∈ map (fun ot => root ++ removelast (rel ot.1)) templates
  | WriteFileCall p data =>
      p = root ++ ["go.mod"] \/ p = root ++ ["Makefile"]
      \/ (gitkeep = true /\ data = ""
          /\ p ∈ map (fun d => root ++ rel d ++ [".gitkeep"]) dirs)
  | CreateCall p | ExecuteCall p _ | CloseCall p =>
      p ∈ map (fun ot => root ++ rel ot.1) templates
  | ReadTemplateCall _ | ParseCall _ => True
  | ReadDirCall _ | RemoveAllCall _ | RejectedCall _ _ => False
  end.

(** The calls of [writeTemplate] on the entries of the manifest. *)
Definition render_call (root : path) (c : call) : Prop :=
  match c with
  | MkdirAllCall p => p ∈ map (fun ot => root ++ removelast (rel ot.1)) templates
  | CreateCall p | ExecuteCall p _ | CloseCall p =>
      p ∈ map (fun ot => root ++ rel ot.1) templates
  | ReadTemplateCall _ | ParseCall _ => True
  | _ => False
  end.

(** [keeps k c]: call [c] leaves an existing entry at [k] as it is. *)
Definition keeps (k : path) (c : call) : Prop :=
  match c with
  | WriteFileCall p _ | CreateCall p | ExecuteCall p _ => p <> k
  | RemoveAllCall p => ¬ p `prefix_of` k
  | _ => True
  end.

(** [avoids k c]: call [c] creates nothing at [k]. *)
Definition avoids (k : path) (c : call) : Prop :=
  match c with
  | MkdirAllCall p => k ∉ prefixes p
  | WriteFileCall p _ | CreateCall p => p <> k
  | _ => True
  end.

(** The substitution context [writeTemplate] builds. *)
Definition context_of (cfg : Config) : gmap string string :=
  <["MODULE" := ModuleName cfg]> (<["PORT" := Port cfg]> ∅).

(** What [generate] does before it turns to the template manifest. *)
Definition prelude (cwd : path) (cfg : Config) : IO (option error) :=
  check! os_MkdirAll_name cwd (Root cfg) ;;
  run! phase_clean (filepath_Abs cwd (Root cfg)) cfg ;;
  run! phase_dirs (filepath_Abs cwd (Root cfg)) cfg ;;
  check! writeGoMod (filepath_Abs cwd (Root cfg)) (ModuleName cfg) ;;
  writeMakefile (filepath_Abs cwd (Root cfg)) (Port cfg).

(** The names [generate] creates directly under the root. *)
Definition top_names : list string :=
  ["cmd"; "commons"; "config"; "recievers"; "services"; "go.mod"; "Makefile"].

Definition starts_in_top (l : path) : bool :=
  match l with
  | x :: _ => bool_decide (x ∈ top_names)
  | [] => false
  end.

(** The files [generate] writes. *)
Definition generated_files (gitkeep : bool) (root : path) : list path :=
  [root ++ ["go.mod"]; root ++ ["Makefile"]]
  ++ map (fun ot : string * string => root ++ rel ot.1) templates
  ++ (if gitkeep
      then map (fun d => root ++ rel d ++ [".gitkeep"]) dirs
      else []).

(** The path a call works on. *)
Definition call_path (c : call) : option path :=
  match c with
  | MkdirAllCall p | ReadDirCall p | RemoveAllCall p | WriteFileCall p _
  | CreateCall p | ExecuteCall p _ | CloseCall p => Some p
  | ReadTemplateCall _ | ParseCall _ | RejectedCall _ _ => None
  end.

(** An empty regular file stays one as long as every write to it writes
    nothing. *)
Definition keeps_empty (k : path) (c : call) : Prop :=
  match c with
  | WriteFileCall p data => p <> k \/ data = ""
  | CreateCall p => True
  | ExecuteCall p _ => p <> k
  | RemoveAllCall p => ¬ p `prefix_of` k
  | _ => True
  end.

(** [unwritten k c]: call [c] writes no file content at [k]. *)
Definition unwritten (k : path) (c : call) : Prop :=
  match c with
  | WriteFileCall p _ | CreateCall p | ExecuteCall p _ => p <> k
  | _ => True
  end.

(** A regular file stands on the way to [p]. *)
Definition blocked (m : filesystem) (p : path) : Prop :=
  exists q x, q ∈ prefixes p /\ m !! q = Some (RegFile x).

(** An uncreated directory: a call that makes no directory at [k]. *)
Definition no_mkdir (k : path) (c : call) : Prop :=
  match c with
  | MkdirAllCall p => k ∉ prefixes p
  | _ => True
  end.

(** The claim as the specification words it: with the gitkeep flag, after
    a successful run each of the four directories that receive a rendered
    file holds a [.gitkeep] file and that rendered file. *)
Definition claimed_markers_beside_sources : Prop :=
  forall tfs E (cwd : path) (cfg : Config) (w : world),
    closed (fs w) -> Gitkeep cfg = true ->
    (generate tfs E cwd cfg w).1 = None ->
    forall o t, (o, t) ∈ templates ->
      let root := filepath_Abs cwd (Root cfg) in
      (exists x, fs (generate tfs E cwd cfg w).2
                   !! (root ++ removelast (rel o) ++ [".gitkeep"]) = Some (RegFile x))
      /\ (exists c, fs (generate tfs E cwd cfg w).2 !! (root ++ rel o)
                    = Some (RegFile c)).

#[global] Instance entry_eq_dec : EqDecision entry.
Proof. solve_decision. Defined.

Fixpoint no_newline (s : string) : bool :=
  match s with
  | EmptyString => true
  | String c s' => negb (Ascii.eqb c "010") && no_newline s'
  end.

(** A typed text answer: the trimmed line, or the flag value when the
    line is blank. *)
Definition typed (flag answer : string) : string :=
  if String.eqb (strings_TrimSpace answer) "" then flag
  else strings_TrimSpace answer.

(** A typed yes-or-no answer read as the specification words it: [y] is
    yes, any other answer is no, a blank line keeps the flag value. *)
Definition typed_bool (flag : bool) (answer : string) : bool :=
  if String.eqb (strings_TrimSpace answer) "" then flag
  else String.eqb (strings_ToLower (strings_TrimSpace answer)) "y".

(** The answer is [y] or [Y]. *)
Definition yes (answer : string) : bool :=
  String.eqb (strings_ToLower (strings_TrimSpace answer)) "y".

Definition with_default (module : string) : string :=
  if String.eqb module "" then "service.com/service" else module.

(** Five answers, each ended by a newline, and whatever follows. *)
Definition answers (a1 a2 a3 a4 a5 more : string) : string :=
  a1 +:+ LF +:+ a2 +:+ LF +:+ a3 +:+ LF +:+ a4 +:+ LF +:+ a5 +:+ LF +:+ more.

(** The claim as the specification words it: in interactive mode the five
    fields are the typed answers. *)
Definition claimed_interactive_override : Prop :=
  forall (flags : Flags) (p : process) (a1 a2 a3 a4 a5 more : string),
    flag_i flags = true ->
    no_newline a1 && no_newline a2 && no_newline a3 && no_newline a4
      && no_newline a5 = true ->
    stdin p = answers a1 a2 a3 a4 a5 more ->
    let cfg := (resolve_config flags p).1 in
    Root cfg = typed (flag_r flags) a1
    /\ ModuleName cfg = with_default (typed (flag_m flags) a2)
    /\ Port cfg = typed (flag_p flags) a3
    /\ Gitkeep cfg = typed_bool (flag_g flags) a4
    /\ Clean cfg = typed_bool (flag_c flags) a5.

(** [contains sub s]: [sub] occurs in [s]. *)
Fixpoint contains (sub s : string) : bool :=
  String.prefix sub s
  || match s with
     | EmptyString => false
     | String _ s' => contains sub s'
     end.

(** The claim as the specification words it: a template that refers to a
    name outside the substitution context either keeps the placeholder as
    it stands or is an error. *)
Definition claimed_unknown_placeholder_policy : Prop :=
  forall (cfg : Config) (name tname text : string),
    GoTemplate.is_name name = true ->
    context_of cfg !! name = None ->
    contains (GoTemplate.field_source name) text = true ->
    match GoTemplate.parse tname text with
    | inr _ => True
    | inl t =>
        match GoTemplate.execute t (context_of cfg) with
        | (_, Some _) => True
        | (out, None) => contains (GoTemplate.field_source name) out = true
        end
    end.

(** [k] lies below [root], and is not [root] itself. *)
Definition strictly_under (root k : path) : Prop :=
  root `prefix_of` k /\ k <> root.

#[global] Instance strictly_under_dec (root k : path) : Decision (strictly_under root k).
Proof. unfold strictly_under. apply _. Defined.

(** The file system without what lies below [root]. *)
Definition prune (root : path) (m : filesystem) : filesystem :=
  filter (fun kv => ¬ strictly_under root kv.1) m.

(** ** Sample inputs *)

Module Sample.

(** A template store with the four templates of the manifest and three
    more: one that fails during execution, one that does not parse and
    one with a placeholder outside the substitution context. *)
Definition store (name : string) : option string :=
  if String.eqb name "templates/main.go.tmpl"
  then Some "package main // module {{.MODULE}}, port {{.PORT}}"
  else if String.eqb name "templates/router.go.tmpl"
  then Some "package routes // {{.MODULE}}"
  else if String.eqb name "templates/serverConfig.go.tmpl"
  then Some "package config // port {{ .PORT }}"
  else if String.eqb name "templates/logger.go.tmpl"
  then Some "package utils"
  else if String.eqb name "templates/broken.tmpl"
  then Some "module {{.MODULE}} and {{.MODULE.Path}} end"
  else if String.eqb name "templates/open.tmpl"
  then Some "module {{.MODULE"
  else if String.eqb name "templates/unknown.tmpl"
  then Some "port {{.PORT}} name {{.NAME}}"
  else None.

Definition cwd : path := ["home"; "dev"].

Definition cfg : Config :=
  {| Root := "widget"; ModuleName := "github.com/acme/widget";
     Port := "9090"; Gitkeep := true; Clean := true |}.

Definition root : path := ["home"; "dev"; "widget"].

(** An empty disk. *)
Definition empty : world := World ∅ [].

(** A disk on which the output of the first template exists with some
    content. *)
Definition used : world :=
  World (<[["home"; "dev"; "widget"; "cmd"; "main.go"] := RegFile "old"]>
         (<[["home"; "dev"; "widget"; "cmd"] := Directory]>
         (<[["home"; "dev"; "widget"] := Directory]>
         (<[["home"; "dev"] := Directory]>
         (<[["home"] := Directory]> ∅))))) [].

(** A disk on which a regular file stands where the root should go. *)
Definition root_is_file : world :=
  World (<[["home"; "dev"; "widget"] := RegFile "not a directory"]>
         (<[["home"; "dev"] := Directory]>
         (<[["home"] := Directory]> ∅))) [].

(** A template store without the second template of the manifest. *)
Definition store_without_router (name : string) : option string :=
  if String.eqb name "templates/router.go.tmpl" then None else store name.

(** A disk on which the root holds an unrelated file and an unrelated
    directory with a file. *)
Definition littered : world :=
  World (<[["home"; "dev"; "widget"; "old"; "notes.md"] := RegFile "notes"]>
         (<[["home"; "dev"; "widget"; "old"] := Directory]>
         (<[["home"; "dev"; "widget"; "foo.txt"] := RegFile "foo"]>
         (<[["home"; "dev"; "widget"] := Directory]>
         (<[["home"; "dev"] := Directory]>
         (<[["home"] := Directory]> ∅)))))) [].

(** A disk on which a directory named [.gitkeep] stands in [cmd]. *)
Definition squatted : world :=
  World (<[["home"; "dev"; "widget"; "cmd"; ".gitkeep"] := Directory]>
         (<[["home"; "dev"; "widget"; "cmd"] := Directory]>
         (<[["home"; "dev"; "widget"] := Directory]>
         (<[["home"; "dev"] := Directory]>
         (<[["home"] := Directory]> ∅))))) [].

Definition cfg_keep : Config :=
  {| Root := "widget"; ModuleName := "github.com/acme/widget"; Port := "9090";
     Gitkeep := true; Clean := false |}.

End Sample.

(** ** Runs of [main] *)

(** The configuration [main] builds from the flags alone. *)
Definition flags_config (flags : Flags) : Config :=
  {| Root := flag_r flags;
     ModuleName := if String.eqb (flag_m flags) "" then "service.com/service"
                   else flag_m flags;
     Port := flag_p flags; Gitkeep := flag_g flags; Clean := flag_c flags |}.

(** ** More sample inputs *)

Module Disk.

(** A disk on which a directory stands where [go.mod] goes. *)
Definition go_mod_taken : world :=
  World (<[["home"; "dev"; "widget"; "go.mod"] := Directory]>
         (<[["home"; "dev"; "widget"] := Directory]>
         (<[["home"; "dev"] := Directory]>
         (<[["home"] := Directory]> ∅)))) [].

(** A disk on which a directory stands where [Makefile] goes. *)
Definition makefile_taken : world :=
  World (<[["home"; "dev"; "widget"; "Makefile"] := Directory]>
         (<[["home"; "dev"; "widget"] := Directory]>
         (<[["home"; "dev"] := Directory]>
         (<[["home"] := Directory]> ∅)))) [].

(** A configuration without the clean flag and without markers. *)
Definition cfg_plain : Config :=
  {| Root := "widget"; ModuleName := "github.com/acme/widget"; Port := "9090";
     Gitkeep := false; Clean := false |}.

(** A disk on which the root holds a file and has a file beside it. *)
Definition neighbours : world :=
  World (<[["home"; "dev"; "notes.txt"] := RegFile "keep"]>
         (<[["home"; "dev"; "widget"; "old.txt"] := RegFile "old"]>
         (<[["home"; "dev"; "widget"] := Directory]>
         (<[["home"; "dev"] := Directory]>
         (<[["home"] := Directory]> ∅))))) [].

(** A disk on which a regular file stands where the directory [cmd]
    goes. *)
Definition cmd_is_file : world :=
  World (<[["home"; "dev"; "widget"; "cmd"] := RegFile "not a directory"]>
         (<[["home"; "dev"; "widget"] := Directory]>
         (<[["home"; "dev"] := Directory]>
         (<[["home"] := Directory]> ∅)))) [].

End Disk.

(** ** Template sources made of text and placeholders *)

(** A piece of template source: literal text, or the placeholder
    [{{.name}}]. *)
Inductive piece :=
| Literal (text : string)
| Placeholder (name : string).

Definition piece_source (p : piece) : string :=
  match p with
  | Literal s => s
  | Placeholder n => GoTemplate.field_source n
  end.

(** The source text of a sequence of pieces. *)
Fixpoint source (ps : list piece) : string :=
  match ps with
  | [] => ""
  | p :: ps' => piece_source p +:+ source ps'
  end.

(** What a piece stands for under a data map. *)
Definition piece_value (data : gmap string string) (p : piece) : string :=
  match p with
  | Literal s => s
  | Placeholder n =>
      match data !! n with Some v => v | None => "<no value>" end
  end.

Fixpoint substituted (data : gmap string string) (ps : list piece) : string :=
  match ps with
  | [] => ""
  | p :: ps' => piece_value data p +:+ substituted data ps'
  end.

(** Literal text that holds no left delimiter [{{] and does not end in a
    brace; single braces inside it are allowed. *)
Fixpoint text_ok (s : string) : bool :=
  match s with
  | EmptyString => true
  | String c s' =>
      match s' with
      | EmptyString => negb (Ascii.eqb c "{")
      | String c' _ => negb (Ascii.eqb c "{" && Ascii.eqb c' "{") && text_ok s'
      end
  end.

Definition piece_ok (p : piece) : bool :=
  match p with
  | Literal s => text_ok s
  | Placeholder n => GoTemplate.is_name n
  end.

(** ** Runs on nothing but a generated project *)

(** Nothing lies below [root]. *)
Definition empty_below (root : path) (m : filesystem) : Prop :=
  forall k, strictly_under root k -> m !! k = None.

(** What rendering the template named [t] writes, when the template is
    found, parses and executes without error. *)
Definition rendered (tfs : string -> option string) (E : Engine) (cfg : Config)
    (t : string) : option string :=
  match tfs ("templates/" +:+ t) with
  | Some text =>
      match Parse E t text with
      | inl tmpl =>
          match Execute E tmpl (context_of cfg) with
          | (out, None) => Some out
          | (_, Some _) => None
          end
      | inr _ => None
      end
  | None => None
  end.

(** The error of the first template of a manifest that is missing, does
    not parse or fails during execution. *)
Fixpoint first_error (tfs : string -> option string) (E : Engine) (cfg : Config)
    (l : list (string * string)) : option error :=
  match l with
  | [] => None
  | (_, t) :: l' =>
      match tfs ("templates/" +:+ t) with
      | None => Some (PathError "open" ("templates/" +:+ t) ENOENT)
      | Some text =>
          match Parse E t text with
          | inr err => Some err
          | inl tmpl =>
              match (Execute E tmpl (context_of cfg)).2 with
              | Some err => Some err
              | None => first_error tfs E cfg l'
              end
          end
      end
  end.

(** The directories of a generated project, relative to its root: those
    of the manifest and the ones on the way to them. *)
Definition layout_dirs : list path := [
  ["cmd"];
  ["commons"]; ["commons"; "constants"]; ["commons"; "error"]; ["commons"; "utils"];
  ["config"]; ["config"; "constants"]; ["config"; "env"]; ["config"; "init"];
  ["recievers"];
  ["services"]; ["services"; "serviceName"];
  ["services"; "serviceName"; "service_init"];
  ["services"; "serviceName"; "data"];
  ["services"; "serviceName"; "internal"];
  ["services"; "serviceName"; "routes"];
  ["services"; "serviceName"; "utils"]
].

(** The markers of a generated project, relative to its root. *)
Definition layout_markers : list path :=
  map (fun d => d ++ [".gitkeep"]) [
    ["cmd"];
    ["commons"; "constants"]; ["commons"; "error"]; ["commons"; "utils"];
    ["config"; "constants"]; ["config"; "env"]; ["config"; "init"];
    ["recievers"];
    ["services"; "serviceName"; "service_init"];
    ["services"; "serviceName"; "data"];
    ["services"; "serviceName"; "internal"];
    ["services"; "serviceName"; "routes"];
    ["services"; "serviceName"; "utils"]
  ].

(** A generated project, relative to its root: every entry with its
    content, [o1] to [o4] being the four rendered templates. *)
Definition tree (cfg : Config) (o1 o2 o3 o4 : string) : list (path * entry) :=
  map (fun d => (d, Directory)) layout_dirs
  ++ [(["go.mod"], RegFile (goMod_content (ModuleName cfg)));
      (["Makefile"], RegFile (Makefile_content (Port cfg)));
      (["cmd"; "main.go"], RegFile o1);
      (["services"; "serviceName"; "routes"; "router.go"], RegFile o2);
      (["config"; "init"; "serverConfig.go"], RegFile o3);
      (["commons"; "utils"; "logger.go"], RegFile o4)]
  ++ (if Gitkeep cfg
      then map (fun k => (k, RegFile "")) layout_markers
      else []).

(** Below [root] lies nothing but parts of a generated project: every
    directory is one of the layout, and every regular file stands where
    [generate] writes one, a marker only with the gitkeep flag [g]. *)
Definition project_below (g : bool) (root : path) (m : filesystem) : Prop :=
  forall l e, l <> [] -> m !! (root ++ l) = Some e ->
    match e with
    | Directory => l ∈ layout_dirs
    | RegFile _ => l ∈ generated_files g []
    end.

(** The directory loop starts on nothing but parts of a generated
    project: without the clean flag because the root holds nothing else (it
    is new or empty, or holds an earlier generation, finished or not), with
    the clean flag because the clean step empties a well-formed file
    system. *)
Definition project_start (cwd : path) (cfg : Config) (m : filesystem) : Prop :=
  if Clean cfg then wf m
  else project_below (Gitkeep cfg) (filepath_Abs cwd (Root cfg)) m.

(** The calls of [writeTemplate] on the entries of a manifest [l]. *)
Definition manifest_call (root : path) (l : list (string * string)) (c : call) : Prop :=
  match c with
  | MkdirAllCall p => p ∈ map (fun ot : string * string => root ++ removelast (rel ot.1)) l
  | CreateCall p | ExecuteCall p _ | CloseCall p =>
      p ∈ map (fun ot : string * string => root ++ rel ot.1) l
  | ReadTemplateCall _ | ParseCall _ => True
  | _ => False
  end.

(** The outputs of a manifest can be created: the directory of each is
    there and no directory stands in its place. *)
Definition ready (root : path) (m : filesystem) (l : list (string * string)) : Prop :=
  forall o t, (o, t) ∈ l ->
    m !! (root ++ removelast (rel o)) = Some Directory
    /\ m !! (root ++ rel o) <> Some Directory.

(** ** Running again *)

(** [os.MkdirAll] on [p] has nothing left to do: everything on the way to
    [p] is a directory, or a regular file stands on the way. *)
Definition mkdir_done (p : path) (m : filesystem) : Prop :=
  (forall q, q ∈ prefixes p -> m !! q = Some Directory) \/ blocked m p.

(** A call that removes nothing and satisfies [P]. *)
Definition adds (P : call -> Prop) (c : call) : Prop :=
  is_removal c = false /\ P c.

(** [settled root P m]: once [m] has run in a world whose [root] is a
    directory, and whatever calls that remove nothing and satisfy [P] have
    been made after it, running [m] again gives the same result and changes
    nothing in the file system. *)
Definition settled {A} (root : path) (P : call -> Prop) (m : IO A) : Prop :=
  forall (w : world) (cs : list call) (w' : world),
    stat (fs w) root = Some Directory ->
    Forall (adds P) cs ->
    fs w' = replay cs (fs (m w).2) ->
    (m w').1 = (m w).1 /\ fs (m w').2 = fs w'.

(** The calls of one round of the directory loop of [generate]. *)
Definition dir_round (g : bool) (root : path) (d : string) (c : call) : Prop :=
  c = MkdirAllCall (root ++ rel d)
  \/ (g = true /\ c = WriteFileCall (root ++ rel d ++ [".gitkeep"]) "").

(** ** The gitkeep flag *)

(** The configuration [cfg] with its gitkeep flag set to [g]. *)
Definition with_gitkeep (g : bool) (cfg : Config) : Config :=
  {| Root := Root cfg; ModuleName := ModuleName cfg; Port := Port cfg;
     Gitkeep := g; Clean := Clean cfg |}.

(** The marker files of the manifest directories. *)
Definition markers (root : path) : list path :=
  map (fun d => root ++ rel d ++ [".gitkeep"]) dirs.

(** [m1] is [m2] up to markers: they hold the same entries, but for
    empty marker files of [m1]. *)
Definition up_to_markers (root : path) (m1 m2 : filesystem) : Prop :=
  forall k, m1 !! k = m2 !! k \/ (k ∈ markers root /\ m1 !! k = Some (RegFile "")).

(** [blind root c]: call [c] neither looks at a marker nor touches one. *)
Definition blind (root : path) (c : call) : Prop :=
  match c with
  | MkdirAllCall p => forall k, k ∈ markers root -> k ∉ prefixes p
  | WriteFileCall p _ | CreateCall p =>
      (p ∉ markers root) /\ (removelast p ∉ markers root)
  | ExecuteCall p _ => p ∉ markers root
  | ReadDirCall _ | RemoveAllCall _ => False
  | ReadTemplateCall _ | ParseCall _ | CloseCall _ | RejectedCall _ _ => True
  end.

(** [alike root m1 m2]: on file systems that are the same up to markers,
    [m1] and [m2] return the same and leave file systems that are the same
    up to markers. *)
Definition alike {A} (root : path) (m1 m2 : IO A) : Prop :=
  forall w1 w2, up_to_markers root (fs w1) (fs w2) ->
    (m1 w1).1 = (m2 w2).1
    /\ up_to_markers root (fs (m1 w1).2) (fs (m2 w2).2).

(** ** What a run leaves when it fails *)

(** What the execution of template [t] writes to its output file, when
    the template is found and parses: the bytes written before execution
    ended, with an error or without. *)
Definition written (tfs : string -> option string) (E : Engine) (cfg : Config)
    (t : string) : option string :=
  match tfs ("templates/" +:+ t) with
  | Some text =>
      match Parse E t text with
      | inl tmpl => Some (Execute E tmpl (context_of cfg)).1
      | inr _ => None
      end
  | None => None
  end.

(** ** The later revision of [main.go]

    In its later revision the program names a template by its path in the
    embedded store, the first template being [templates/app.go.tmpl], and
    [main] goes on to install the dependencies of the generated project
    with [go mod tidy]. What has not changed is shared with the first
    revision: the flags, the prompts, the directory manifest and the two
    static files. *)
Module Later.

(** [s] without its trailing slashes. *)
Fixpoint trim_slashes (s : string) : string :=
  match s with
  | EmptyString => ""
  | String c s' =>
      match trim_slashes s' with
      | EmptyString => if Ascii.eqb c "/" then "" else String c ""
      | t => String c t
      end
  end.

(** [filepath.Base]: the last element of a slash-separated name, trailing
    slashes apart; ["."] for the empty name and ["/"] for a name made of
    slashes. *)
Definition filepath_Base (s : string) : string :=
  if String.eqb s "" then "."
  else match last (split_slash (trim_slashes s)) with
       | Some (String c b) => String c b
       | _ => "/"
       end.

Section Generator.

Variable templateFS : string -> option string.
Variable engine : Engine.
Variable cwd : path.

Definition writeTemplate (root : path) (outputPath templatePath : string)
    (cfg : Config) : IO (option error) :=
  let! r := templateFS_ReadFile templateFS templatePath in
  match r with
  | inr err => ret (Some err)
  | inl tmplBytes =>
      let! r := template_Parse engine (filepath_Base templatePath) tmplBytes in
      match r with
      | inr err => ret (Some err)
      | inl tmpl =>
          let outPath := filepath_Join root outputPath in
          run! os_MkdirAll (filepath_Dir outPath) ;;
          let! r := os_Create outPath in
          match r with
          | Some err => ret (Some err)
          | None =>
              let data : gmap string string :=
                <["MODULE" := ModuleName cfg]> (<["PORT" := Port cfg]> ∅) in
              let! r := template_Execute engine tmpl outPath data in
              run! file_Close outPath ;;
              ret r
          end
      end
  end.

Definition generate (cfg : Config) : IO (option error) :=
  check! os_MkdirAll_name cwd (Root cfg) ;;
  let rootAbs := filepath_Abs cwd (Root cfg) in
  run! (if Clean cfg then
          let! (entries, _) := os_ReadDir rootAbs in
          for_each entries (fun e =>
            run! os_RemoveAll (filepath_Join rootAbs e) ;; ret tt)
        else ret tt) ;;
  run! for_each dirs (fun dir =>
         let path := filepath_Join rootAbs dir in
         run! os_MkdirAll path ;;
         if Gitkeep cfg then
           run! os_WriteFile (filepath_Join path ".gitkeep") "" ;; ret tt
         else ret tt) ;;
  check! writeGoMod rootAbs (ModuleName cfg) ;;
  check! writeMakefile rootAbs (Port cfg) ;;
  check! writeTemplate rootAbs "cmd/main.go" "templates/app.go.tmpl" cfg ;;
  check! writeTemplate rootAbs "services/serviceName/routes/router.go" "templates/router.go.tmpl" cfg ;;
  check! writeTemplate rootAbs "config/init/serverConfig.go" "templates/serverConfig.go.tmpl" cfg ;;
  check! writeTemplate rootAbs "commons/utils/logger.go" "templates/logger.go.tmpl" cfg ;;
  ret None.

End Generator.

(** What a command has done when it ends: the file system it leaves, what
    it wrote to its two output streams, and the message of the error
    [cmd.Run] returns, if any. *)
Record outcome := Outcome {
  out_fs : filesystem;
  out_stdout : string;
  out_stderr : string;
  out_err : option string
}.

Section Main.

Variable templateFS : string -> option string.
Variable engine : Engine.
Variable cwd : path.

(** Running a command is outside the program: [exec_Run name args dir m]
    is the outcome of the command [name] with arguments [args], started in
    directory [dir] on file system [m]. *)
Variable exec_Run : string -> list string -> path -> filesystem -> outcome.

(** [installDependencies]: the command gets the output streams of the
    process and no input. Of the error only the message is kept, which is
    all [main] uses. *)
Definition installDependencies (root : string) : Proc (option string) := fun p =>
  let rootAbs := filepath_Abs cwd root in
  let o := exec_Run "go" ["mod"; "tidy"] rootAbs (fs (os p)) in
  (out_err o,
   Process (stdin p) (stdout p +:+ out_stdout o) (stderr p +:+ out_stderr o)
     (World (out_fs o) (trace (os p)))).

(** [main]; the result is the exit code of the process. *)
Definition main (flags : Flags) : Proc nat :=
  if flag_version flags then
    run! fmt_Print ("hexagen version " +:+ version +:+ LF) ;;
    ret 0
  else
    let! cfg := resolve_config flags in
    let! r := liftOS (generate templateFS engine cwd cfg) in
    match r with
    | Some err =>
        run! fmt_Fprint_Stderr ("Error: " +:+ error_Error err +:+ LF) ;;
        ret 1
    | None =>
        run! fmt_Print (LF +:+ "✓ Project structure created successfully!" +:+ LF) ;;
        run! fmt_Print ("⏳ Installing dependencies..." +:+ LF) ;;
        let! r := installDependencies (Root cfg) in
        run! (match r with
              | Some msg =>
                  run! fmt_Fprint_Stderr
                         ("Warning: Failed to install dependencies: " +:+ msg +:+ LF) ;;
                  fmt_Print ("You can manually run: go mod tidy" +:+ LF)
              | None =>
                  fmt_Print ("✓ Dependencies installed successfully!" +:+ LF)
              end) ;;
        run! fmt_Print (LF +:+ "✓ Done! Your project is ready." +:+ LF) ;;
        run! fmt_Print (LF +:+ "Next steps:" +:+ LF) ;;
        run! fmt_Print ("  cd " +:+ Root cfg +:+ LF) ;;
        run! fmt_Print ("  make run" +:+ LF) ;;
        ret 0
    end.

End Main.

(** The store of [Sample] with the first template under its later
    name. *)
Definition store (name : string) : option string :=
  if String.eqb name "templates/app.go.tmpl"
  then Sample.store "templates/main.go.tmpl"
  else if String.eqb name "templates/main.go.tmpl" then None
  else Sample.store name.

(** A [go] tool that fails without touching the file system. *)
Definition failing_go (name : string) (args : list string) (dir : path)
    (m : filesystem) : outcome :=
  Outcome m "" ("go: no network" +:+ LF) (Some "exit status 1").

End Later.

(** [same_parse E n1 n2]: whether a text parses, and to what, is the same
    under the template names [n1] and [n2]; only the parse error may
    differ. *)
Definition same_parse (E : Engine) (n1 n2 : string) : Prop :=
  forall text,
    match Parse E n1 text, Parse E n2 text with
    | inl a, inl b => a = b
    | inr _, inr _ => True
    | _, _ => False
    end.

(** [same_effect m1 m2]: on worlds with the same file system, [m1] and
    [m2] return the same and leave the same file system. *)
Definition same_effect {A} (m1 m2 : IO A) : Prop :=
  forall w1 w2, fs w1 = fs w2 ->
    (m1 w1).1 = (m2 w2).1 /\ fs (m1 w1).2 = fs (m2 w2).2.

(** ** The errors of [generate] *)

(** The reasons for which [generate] fails on world [w]: the root cannot
    be created; one of the six files it writes cannot be opened; a template
    of the manifest is missing, does not parse or fails during
    execution. *)
Inductive failure (tfs : string -> option string) (E : Engine) (cwd : path)
    (cfg : Config) (w : world) (err : error) : Prop :=
| RootNotCreated :
    (os_MkdirAll_name cwd (Root cfg) w).1 = Some err ->
    failure tfs E cwd cfg w err
| FileNotOpened (f : path) (e : errno) :
    f ∈ generated_files false [] ->
    err = PathError "open" (path_string (filepath_Abs cwd (Root cfg) ++ f)) e ->
    failure tfs E cwd cfg w err
| TemplateMissing (o t : string) :
    (o, t) ∈ templates -> tfs ("templates/" +:+ t) = None ->
    err = PathError "open" ("templates/" +:+ t) ENOENT ->
    failure tfs E cwd cfg w err
| TemplateNotParsed (o t text : string) :
    (o, t) ∈ templates -> tfs ("templates/" +:+ t) = Some text ->
    Parse E t text = inr err ->
    failure tfs E cwd cfg w err
| TemplateNotExecuted (o t text : string) (tmpl : template E) :
    (o, t) ∈ templates -> tfs ("templates/" +:+ t) = Some text ->
    Parse E t text = inl tmpl ->
    (Execute E tmpl (context_of cfg)).2 = Some err ->
    failure tfs E cwd cfg w err.

(** ** Paths *)

Lemma split_slash_nonempty s : split_slash s <> [].
Proof.
  destruct s as [|c s]; simpl; [done|].
  destruct (Ascii.eqb c "/"); [done|]. by destruct (split_slash s).
Qed.

Lemma split_slash_no_slash s :
  Forall (fun c => no_slash c = true) (split_slash s).
Proof.
  induction s as [|c s IH]; simpl.
  - by repeat constructor.
  - destruct (Ascii.eqb c "/") eqn:E.
    + by constructor.
    + destruct (split_slash s) as [|x xs].
      * repeat constructor. simpl. by rewrite E.
      * inversion IH as [|? ? Hx Hxs]; subst.
        constructor; [|done]. simpl. by rewrite E, Hx.
Qed.

Lemma split_slash_name c : no_slash c = true -> split_slash c = [c].
Proof.
  induction c as [|a c IH]; simpl; [done|].
  intros [Ha Hc]%andb_prop. destruct (Ascii.eqb a "/"); [done|].
  by rewrite IH.
Qed.

Lemma walk_name (p : path) (c : string) :
  valid_name c = true -> walk p c = p ++ [c].
Proof.
  unfold valid_name, walk. intros H.
  apply andb_prop in H as [H Hs]. apply andb_prop in H as [H H3].
  apply andb_prop in H as [H1 H2].
  rewrite split_slash_name by done. simpl. unfold walk_step.
  destruct (String.eqb c ""); [done|]. destruct (String.eqb c "."); [done|].
  by destruct (String.eqb c "..").
Qed.

Lemma Forall_removelast {A} (P : A -> Prop) (l : list A) :
  Forall P l -> Forall P (removelast l).
Proof.
  induction 1 as [|x l Hx Hl IH]; simpl; [constructor|].
  destruct l; [constructor|]. by constructor.
Qed.

Lemma walk_step_valid (p : path) (c : string) :
  Forall (fun c => valid_name c = true) p -> no_slash c = true ->
  Forall (fun c => valid_name c = true) (walk_step p c).
Proof.
  intros Hp Hc. unfold walk_step.
  destruct (String.eqb c "") eqn:E1; [done|].
  destruct (String.eqb c ".") eqn:E2; [done|]. simpl.
  destruct (String.eqb c "..") eqn:E3; [by apply Forall_removelast|].
  apply Forall_app. split; [done|]. constructor; [|constructor].
  unfold valid_name. by rewrite E1, E2, E3, Hc.
Qed.

Lemma walk_valid (base : path) (s : string) :
  Forall (fun c => valid_name c = true) base ->
  Forall (fun c => valid_name c = true) (walk base s).
Proof.
  unfold walk. generalize (split_slash_no_slash s).
  generalize (split_slash s) as l. intros l Hl. revert base.
  induction Hl as [|c l Hc Hl IH]; intros base Hb; simpl; [done|].
  apply IH. by apply walk_step_valid.
Qed.

Lemma filepath_Abs_valid (cwd : path) (s : string) :
  Forall (fun c => valid_name c = true) cwd ->
  Forall (fun c => valid_name c = true) (filepath_Abs cwd s).
Proof.
  intros H. unfold filepath_Abs. destruct (is_abs s); apply walk_valid; auto.
Qed.

(** ** Prefixes and [os.MkdirAll] *)

Lemma elem_of_prefixes (q p : path) :
  q ∈ prefixes p <-> q <> [] /\ q `prefix_of` p.
Proof.
  revert q. induction p as [|c p IH]; intros q; simpl.
  - split; [by intros ?%elem_of_nil|]. intros [Hq Hp].
    apply prefix_nil_inv in Hp. done.
  - rewrite elem_of_cons, list_elem_of_fmap. split.
    + intros [->|(q' & -> & Hq')].
      * split; [done|]. by apply (prefix_cons c [] p), prefix_nil.
      * apply IH in Hq' as [_ Hq']. split; [done|]. by apply prefix_cons.
    + intros [Hq Hp]. destruct q as [|c' q]; [done|].
      pose proof (prefix_cons_inv_1 _ _ _ _ Hp) as ->.
      apply prefix_cons_inv_2 in Hp.
      destruct q as [|c'' q]; [by left|]. right.
      exists (c'' :: q). split; [done|]. apply IH. done.
Qed.

Lemma prefixes_snoc (p : path) (c : string) :
  prefixes (p ++ [c]) = prefixes p ++ [p ++ [c]].
Proof.
  induction p as [|a p IH]; simpl; [done|].
  rewrite IH, fmap_app. simpl. destruct p; done.
Qed.

Lemma lookup_mkdirs (l : list path) (m : filesystem) (k : path) :
  foldl mkdir1 m l !! k =
    match m !! k with
    | Some e => Some e
    | None => if decide (k ∈ l) then Some Directory else None
    end.
Proof.
  revert m. induction l as [|q l IH]; intros m; simpl.
  - by destruct (m !! k).
  - rewrite IH. unfold mkdir1. destruct (m !! q) eqn:Eq.
    + destruct (m !! k) eqn:Ek; [done|].
      destruct (decide (k = q)) as [->|Hne]; [congruence|].
      repeat case_decide; set_solver.
    + destruct (decide (k = q)) as [->|Hne].
      * rewrite lookup_insert_eq, Eq. rewrite decide_True; [done|]. set_solver.
      * rewrite lookup_insert_ne by done. destruct (m !! k); [done|].
        repeat case_decide; set_solver.
Qed.

Lemma fs_mkdir_all_keeps (p : path) (m : filesystem) (k : path) (e : entry) :
  m !! k = Some e -> (fs_mkdir_all p m).1 !! k = Some e.
Proof.
  intros H. unfold fs_mkdir_all. destruct (find _ _); simpl; [done|].
  by rewrite lookup_mkdirs, H.
Qed.

Lemma fs_mkdir_all_lookup (p : path) (m : filesystem) (k : path) (e : entry) :
  (fs_mkdir_all p m).1 !! k = Some e ->
  m !! k = Some e \/ (m !! k = None /\ e = Directory /\ k ∈ prefixes p).
Proof.
  unfold fs_mkdir_all. destruct (find _ _); simpl; [by left|].
  rewrite lookup_mkdirs. destruct (m !! k); [by left|].
  case_decide; [|done]. intros [= <-]. by right.
Qed.

Lemma fs_mkdir_all_ok (p : path) (m : filesystem) (q : path) :
  (fs_mkdir_all p m).2 = None -> q ∈ prefixes p ->
  (fs_mkdir_all p m).1 !! q = Some Directory.
Proof.
  unfold fs_mkdir_all. destruct (find _ _) eqn:E; simpl; [done|].
  intros _ Hq. rewrite lookup_mkdirs.
  destruct (m !! q) as [[c|]|] eqn:Eq; [|done|by rewrite decide_True].
  apply find_none with (x := q) in E; [|by apply list_elem_of_In].
  unfold is_file in E. by rewrite Eq in E.
Qed.

Lemma fs_mkdir_all_fail (p : path) (m : filesystem) (err : error) :
  (fs_mkdir_all p m).2 = Some err ->
  (fs_mkdir_all p m).1 = m /\
  exists q c, q ∈ prefixes p /\ m !! q = Some (RegFile c).
Proof.
  unfold fs_mkdir_all. destruct (find _ _) as [q|] eqn:E; simpl; [|done].
  intros _. split; [done|]. apply find_some in E as [Hin Hf].
  unfold is_file in Hf. destruct (m !! q) as [[c|]|] eqn:Eq; try done.
  exists q, c. split; [by apply list_elem_of_In|done].
Qed.

(** An existing directory whose ancestors are directories: [os.MkdirAll]
    changes nothing and reports no error. *)
Lemma fs_mkdir_all_existing (p : path) (m : filesystem) :
  (forall q, q ∈ prefixes p -> m !! q = Some Directory) ->
  fs_mkdir_all p m = (m, None).
Proof.
  intros H. unfold fs_mkdir_all. destruct (find _ _) as [q|] eqn:E.
  - apply find_some in E as [Hin Hf]. apply list_elem_of_In, H in Hin.
    unfold is_file in Hf. by rewrite Hin in Hf.
  - f_equal. apply map_eq. intros k. rewrite lookup_mkdirs.
    destruct (m !! k) eqn:Ek; [done|]. case_decide as Hk; [|done].
    apply H in Hk. congruence.
Qed.

(** ** Writing and removing *)

Lemma fs_write_cases (op : string) (p : path) (data : string) (m : filesystem) :
  (exists err, fs_write op p data m = (m, Some err)) \/
  (fs_write op p data m = (<[p := RegFile data]> m, None)
   /\ p <> [] /\ stat m (removelast p) = Some Directory
   /\ m !! p <> Some Directory).
Proof.
  unfold fs_write. destruct p as [|c p]; [left; eauto|].
  destruct (stat m (removelast (c :: p))) as [[x|]|] eqn:E; [left; eauto| |left; eauto].
  destruct (m !! (c :: p)) as [[x|]|] eqn:E'; [right|left; eauto|right];
    repeat split; congruence.
Qed.

Lemma fs_write_other (op : string) (p : path) (data : string) (m : filesystem) (k : path) :
  k <> p -> (fs_write op p data m).1 !! k = m !! k.
Proof.
  intros Hk. destruct (fs_write_cases op p data m) as [[err ->]|[-> _]]; simpl; [done|].
  by rewrite lookup_insert_ne.
Qed.

Lemma fs_write_ok (op : string) (p : path) (data : string) (m : filesystem) :
  (fs_write op p data m).2 = None ->
  (fs_write op p data m).1 = <[p := RegFile data]> m
  /\ p <> [] /\ stat m (removelast p) = Some Directory.
Proof.
  destruct (fs_write_cases op p data m) as [[err ->]|[-> (? & ? & ?)]]; simpl; [done|].
  done.
Qed.

Lemma fs_write_fail (op : string) (p : path) (data : string) (m : filesystem) (err : error) :
  (fs_write op p data m).2 = Some err -> (fs_write op p data m).1 = m.
Proof.
  destruct (fs_write_cases op p data m) as [[e ->]|[-> _]]; simpl; done.
Qed.

Lemma fs_remove_all_lookup (p : path) (m : filesystem) (k : path) :
  fs_remove_all p m !! k = if decide (p `prefix_of` k) then None else m !! k.
Proof.
  unfold fs_remove_all. rewrite map_lookup_filter.
  destruct (m !! k); simpl; case_decide; try done.
  - rewrite option_guard_False; [done|]. simpl. tauto.
  - by rewrite option_guard_True.
Qed.

Lemma fs_write_handle_other (p : path) (out : string) (m : filesystem) (k : path) :
  k <> p -> fs_write_handle p out m !! k = m !! k.
Proof.
  intros Hk. unfold fs_write_handle. destruct (m !! p) as [[c|]|]; try done.
  by rewrite lookup_insert_ne.
Qed.

(** ** Directory listings *)

Lemma child_name_Some (p k : path) (c : string) :
  child_name p k = Some c <-> k = p ++ [c].
Proof.
  unfold child_name. split.
  - destruct (last k) as [c'|]; [|done]. case_decide; [|done]. by intros [= <-].
  - intros ->. rewrite last_snoc. by rewrite decide_True.
Qed.

Lemma elem_of_children (p : path) (m : filesystem) (c : string) :
  c ∈ children p m <-> is_Some (m !! (p ++ [c])).
Proof.
  unfold children. rewrite merge_sort_Permutation, list_elem_of_omap. split.
  - intros ([k e] & Hin & Hc). simpl in Hc. apply child_name_Some in Hc as ->.
    apply elem_of_map_to_list in Hin. eauto.
  - intros [e He]. exists (p ++ [c], e). split.
    + by apply elem_of_map_to_list.
    + simpl. by apply child_name_Some.
Qed.

(** ** Well-formed file systems are preserved *)

Lemma stat_Some_lookup (m : filesystem) (p : path) (e : entry) :
  p <> [] -> stat m p = Some e -> m !! p = Some e.
Proof. by destruct p. Qed.

Lemma stat_keeps (m m' : filesystem) (p : path) :
  (forall e, m !! p = Some e -> m' !! p = Some e) ->
  stat m p = Some Directory -> stat m' p = Some Directory.
Proof. destruct p; simpl; auto. Qed.

Lemma Forall_prefix {A} (P : A -> Prop) (l1 l2 : list A) :
  l1 `prefix_of` l2 -> Forall P l2 -> Forall P l1.
Proof. intros [k ->] H. by apply Forall_app in H as [H _]. Qed.

Lemma fs_mkdir_all_closed (p : path) (m : filesystem) :
  closed m -> closed (fs_mkdir_all p m).1.
Proof.
  intros Hc q c [e He].
  destruct (fs_mkdir_all_lookup _ _ _ _ He) as [Hm|(Hn & -> & Hin)].
  - eapply stat_keeps; [|apply (Hc q c); eauto].
    intros e'. apply fs_mkdir_all_keeps.
  - destruct q as [|a q]; [done|]. simpl.
    destruct ((fs_mkdir_all p m).2) as [err|] eqn:E.
    + apply fs_mkdir_all_fail in E as [E _]. rewrite E in He. congruence.
    + apply fs_mkdir_all_ok; [done|].
      apply elem_of_prefixes in Hin as [_ Hin]. apply elem_of_prefixes.
      split; [done|]. etrans; [|exact Hin]. by apply prefix_app_r.
Qed.

Lemma fs_mkdir_all_named (p : path) (m : filesystem) :
  Forall (fun c => valid_name c = true) p -> named m -> named (fs_mkdir_all p m).1.
Proof.
  intros Hp Hn k [e He].
  destruct (fs_mkdir_all_lookup _ _ _ _ He) as [Hm|(_ & _ & Hin)].
  - apply Hn. eauto.
  - apply elem_of_prefixes in Hin as [_ Hin]. by eapply Forall_prefix.
Qed.

Lemma removelast_snoc {A} (l : list A) (x : A) : removelast (l ++ [x]) = l.
Proof. by rewrite removelast_last. Qed.

Lemma fs_write_closed (op : string) (p : path) (data : string) (m : filesystem) :
  closed m -> closed (fs_write op p data m).1.
Proof.
  intros Hc. destruct (fs_write_cases op p data m) as [[err ->]|(-> & Hp & Hd & Hn)];
    simpl; [done|].
  intros q c [e He]. destruct (decide (q ++ [c] = p)) as [<-|Hne].
  - rewrite removelast_snoc in Hd. eapply stat_keeps; [|exact Hd].
    intros e' He'. rewrite lookup_insert_ne; [done|].
    intros E. apply (f_equal length) in E. rewrite length_app in E. simpl in E. lia.
  - rewrite lookup_insert_ne in He by done.
    assert (stat m q = Some Directory) as Hq by (apply (Hc q c); eauto).
    eapply stat_keeps; [|exact Hq]. intros e' He'.
    destruct (decide (q = p)) as [->|Hqp]; [|by rewrite lookup_insert_ne].
    destruct p; [done|]. simpl in Hq. congruence.
Qed.

Lemma fs_write_named (op : string) (p : path) (data : string) (m : filesystem) :
  Forall (fun c => valid_name c = true) p -> named m -> named (fs_write op p data m).1.
Proof.
  intros Hp Hn. destruct (fs_write_cases op p data m) as [[err ->]|(-> & _)];
    simpl; [done|].
  intros k [e He]. destruct (decide (k = p)) as [->|Hne]; [done|].
  rewrite lookup_insert_ne in He by done. apply Hn. eauto.
Qed.

Lemma fs_write_handle_closed (p : path) (out : string) (m : filesystem) :
  closed m -> closed (fs_write_handle p out m).
Proof.
  intros Hc. unfold fs_write_handle. destruct (m !! p) as [[x|]|] eqn:E; try done.
  intros q c [e He].
  assert (is_Some (m !! (q ++ [c]))) as Hs.
  { destruct (decide (q ++ [c] = p)) as [->|Hne]; [eauto|].
    rewrite lookup_insert_ne in He by done. eauto. }
  apply Hc in Hs. destruct q as [|a q]; [done|]. simpl in *.
  destruct (decide (a :: q = p)) as [<-|Hqp]; [congruence|by rewrite lookup_insert_ne].
Qed.

Lemma fs_write_handle_named (p : path) (out : string) (m : filesystem) :
  named m -> named (fs_write_handle p out m).
Proof.
  intros Hn. unfold fs_write_handle. destruct (m !! p) as [[x|]|] eqn:E; try done.
  intros k [e He]. destruct (decide (k = p)) as [->|Hne]; [apply Hn; eauto|].
  rewrite lookup_insert_ne in He by done. apply Hn. eauto.
Qed.

Lemma fs_remove_all_closed (p : path) (m : filesystem) :
  closed m -> closed (fs_remove_all p m).
Proof.
  intros Hc q c [e He]. rewrite fs_remove_all_lookup in He.
  case_decide as Hp; [done|].
  assert (stat m q = Some Directory) as Hq by (apply (Hc q c); eauto).
  destruct q as [|a q]; [done|]. simpl in *. rewrite fs_remove_all_lookup.
  rewrite decide_False; [done|]. intros Hpq. apply Hp.
  by apply (prefix_app_r p (a :: q) [c]).
Qed.

Lemma fs_remove_all_named (p : path) (m : filesystem) :
  named m -> named (fs_remove_all p m).
Proof.
  intros Hn k [e He]. rewrite fs_remove_all_lookup in He.
  case_decide; [done|]. apply Hn. eauto.
Qed.

Lemma apply_call_wf (c : call) (m : filesystem) :
  valid_call c -> wf m -> wf (apply_call c m).
Proof.
  intros Hv [Hc Hn]. destruct c; simpl in *; try done.
  - split; [by apply fs_mkdir_all_closed|by apply fs_mkdir_all_named].
  - split; [by apply fs_remove_all_closed|by apply fs_remove_all_named].
  - split; [by apply fs_write_closed|by apply fs_write_named].
  - split; [by apply fs_write_closed|by apply fs_write_named].
  - split; [by apply fs_write_handle_closed|by apply fs_write_handle_named].
Qed.

Lemma replay_app (cs1 cs2 : list call) (m : filesystem) :
  replay (cs1 ++ cs2) m = replay cs2 (replay cs1 m).
Proof. unfold replay. by rewrite foldl_app. Qed.

Lemma replay_wf (cs : list call) (m : filesystem) :
  Forall valid_call cs -> wf m -> wf (replay cs m).
Proof.
  intros H. revert m. induction H as [|c cs Hc Hcs IH]; intros m Hm; simpl; [done|].
  apply IH. by apply apply_call_wf.
Qed.

(** ** Computations as sequences of calls *)

Lemma perform_all_nil (w : world) : perform_all [] w = w.
Proof. destruct w. unfold perform_all. simpl. by rewrite app_nil_r. Qed.

Lemma perform_all_app (cs1 cs2 : list call) (w : world) :
  perform_all (cs1 ++ cs2) w = perform_all cs2 (perform_all cs1 w).
Proof. unfold perform_all. simpl. by rewrite replay_app, app_assoc. Qed.

Lemma perform_all_cons (c : call) (cs : list call) (w : world) :
  perform_all (c :: cs) w = perform_all cs (perform c w).
Proof. unfold perform_all, perform. simpl. by rewrite <- app_assoc. Qed.

Lemma perform_one (c : call) (w : world) : perform c w = perform_all [c] w.
Proof. by rewrite perform_all_cons, perform_all_nil. Qed.

Lemma within_calls {A} (P : call -> Prop) (m : IO A) (w : world) :
  within P m -> exists cs, Forall P cs /\ (m w).2 = perform_all cs w.
Proof.
  intros H. destruct (H w) as (cs & HP & Hcs). exists cs. split; [done|].
  by rewrite (Hcs w eq_refl).
Qed.

Lemma within_deterministic {A} (P : call -> Prop) (m : IO A) (w1 w2 : world) :
  within P m -> fs w1 = fs w2 ->
  (m w1).1 = (m w2).1 /\ fs (m w1).2 = fs (m w2).2.
Proof.
  intros H E. destruct (H w2) as (cs & _ & Hcs).
  rewrite (Hcs w1 E), (Hcs w2 eq_refl). simpl. by rewrite E.
Qed.

Lemma within_weaken {A} (P Q : call -> Prop) (m : IO A) :
  (forall c, P c -> Q c) -> within P m -> within Q m.
Proof.
  intros HPQ H w. destruct (H w) as (cs & HP & Hcs). exists cs. split; [|done].
  eapply Forall_impl; eauto.
Qed.

Lemma within_ret {A} (P : call -> Prop) (a : A) : within P (ret a : IO A).
Proof.
  intros w. exists []. split; [constructor|]. intros w' _.
  by rewrite perform_all_nil.
Qed.

Lemma within_bind {A B} (P : call -> Prop) (m : IO A) (k : A -> IO B) :
  within P m -> (forall a, within P (k a)) -> within P (bind m k).
Proof.
  intros Hm Hk w. destruct (Hm w) as (cs1 & HP1 & H1).
  destruct (Hk (m w).1 (perform_all cs1 w)) as (cs2 & HP2 & H2).
  exists (cs1 ++ cs2). split; [by apply Forall_app|].
  intros w' E. unfold bind. rewrite (H1 w' E), (H1 w eq_refl).
  rewrite perform_all_app. apply H2. simpl. by rewrite E.
Qed.

Lemma within_check (P : call -> Prop) (m k : IO (option error)) :
  within P m -> within P k -> within P (check m k).
Proof.
  intros Hm Hk. apply within_bind; [done|]. intros [err|]; [apply within_ret|done].
Qed.

Lemma within_for_each {A} (P : call -> Prop) (l : list A) (body : A -> IO unit) :
  (forall x, x ∈ l -> within P (body x)) -> within P (for_each l body).
Proof.
  induction l as [|x l IH]; intros H; simpl; [apply within_ret|].
  apply within_bind; [apply H; set_solver|]. intros _. apply IH.
  intros y Hy. apply H. set_solver.
Qed.

(** A primitive: one call, and a result read off the file system. *)
Lemma within_call {A} (P : call -> Prop) (c : call) (f : filesystem -> A) :
  P c -> within P (fun w => (f (fs w), perform c w)).
Proof.
  intros Hc w. exists [c]. split; [by repeat constructor|].
  intros w' E. simpl. by rewrite E, perform_one.
Qed.

Lemma within_os_MkdirAll (P : call -> Prop) (p : path) :
  P (MkdirAllCall p) -> within P (os_MkdirAll p).
Proof. intros H. by apply (within_call P _ (fun m => (fs_mkdir_all p m).2)). Qed.

Lemma within_os_WriteFile (P : call -> Prop) (p : path) (data : string) :
  P (WriteFileCall p data) -> within P (os_WriteFile p data).
Proof. intros H. by apply (within_call P _ (fun m => (fs_write "open" p data m).2)). Qed.

Lemma within_os_Create (P : call -> Prop) (p : path) :
  P (CreateCall p) -> within P (os_Create p).
Proof. intros H. by apply (within_call P _ (fun m => (fs_write "open" p "" m).2)). Qed.

Lemma within_os_ReadDir (P : call -> Prop) (p : path) :
  P (ReadDirCall p) -> within P (os_ReadDir p).
Proof. intros H. by apply (within_call P _ (fun m => fs_read_dir p m)). Qed.

Lemma within_os_RemoveAll (P : call -> Prop) (p : path) :
  P (RemoveAllCall p) -> within P (os_RemoveAll p).
Proof. intros H. by apply (within_call P _ (fun _ => None)). Qed.

Lemma within_file_Close (P : call -> Prop) (p : path) :
  P (CloseCall p) -> within P (file_Close p).
Proof. intros H. by apply (within_call P _ (fun _ => tt)). Qed.

Lemma within_templateFS_ReadFile (P : call -> Prop) tfs (name : string) :
  P (ReadTemplateCall name) -> within P (templateFS_ReadFile tfs name).
Proof.
  intros H.
  by apply (within_call P _ (fun _ =>
    match tfs name with
    | Some text => inl text
    | None => inr (PathError "open" name ENOENT)
    end)).
Qed.

Lemma within_template_Parse (P : call -> Prop) E (name text : string) :
  P (ParseCall name) -> within P (template_Parse E name text).
Proof. intros H. by apply (within_call P _ (fun _ => Parse E name text)). Qed.

Lemma within_template_Execute (P : call -> Prop) E tmpl (p : path) data :
  (forall out, P (ExecuteCall p out)) -> within P (template_Execute E tmpl p data).
Proof.
  intros H. unfold template_Execute. destruct (Execute E tmpl data) as [out r].
  by apply (within_call P _ (fun _ => r)).
Qed.

(** ** The phases of [generate] *)

Lemma generate_phases tfs E (cwd : path) (cfg : Config) :
  generate tfs E cwd cfg =
    (check! os_MkdirAll_name cwd (Root cfg) ;;
     run! phase_clean (filepath_Abs cwd (Root cfg)) cfg ;;
     phase_tail tfs E (filepath_Abs cwd (Root cfg)) cfg).
Proof. reflexivity. Qed.

Lemma walk_step_plain (base acc : path) (c : string) :
  String.eqb c ".." = false ->
  walk_step (base ++ acc) c = base ++ walk_step acc c.
Proof.
  intros H. unfold walk_step. destruct (_ || _); [done|]. rewrite H.
  by rewrite app_assoc.
Qed.

Lemma walk_plain (base : path) (s : string) :
  plain s = true -> walk base s = base ++ rel s.
Proof.
  unfold plain, rel, walk. rewrite <- (app_nil_r base) at 1.
  generalize (@nil string) as acc. induction (split_slash s) as [|c l IH];
    intros acc H; simpl in *; [done|].
  apply andb_prop in H as [Hc Hl]. apply negb_true_iff in Hc.
  rewrite walk_step_plain by done. by apply IH.
Qed.

Lemma dirs_plain : Forall (fun d => plain d = true) dirs.
Proof. repeat constructor. Qed.

Lemma templates_plain :
  Forall (fun ot => plain ot.1 = true /\ rel ot.1 <> []) templates.
Proof. repeat constructor; done. Qed.

Lemma Join_dir (root : path) (d : string) :
  d ∈ dirs -> filepath_Join root d = root ++ rel d.
Proof.
  intros H. apply walk_plain.
  by apply (proj1 (Forall_forall _ _) dirs_plain).
Qed.

Lemma Join_marker (root : path) (d : string) :
  d ∈ dirs ->
  filepath_Join (filepath_Join root d) ".gitkeep" = root ++ rel d ++ [".gitkeep"].
Proof.
  intros H. rewrite (Join_dir root d H). unfold filepath_Join.
  rewrite walk_name by done. by rewrite app_assoc.
Qed.

Lemma Join_output (root : path) (o t : string) :
  (o, t) ∈ templates -> filepath_Join root o = root ++ rel o.
Proof.
  intros H. apply walk_plain.
  by apply (proj1 (Forall_forall _ _) templates_plain (o, t)).
Qed.

Lemma Dir_output (root : path) (o t : string) :
  (o, t) ∈ templates ->
  filepath_Dir (filepath_Join root o) = root ++ removelast (rel o).
Proof.
  intros H. rewrite (Join_output root o t H). unfold filepath_Dir.
  apply removelast_app.
  by apply (proj1 (Forall_forall _ _) templates_plain (o, t)).
Qed.

Lemma Join_go_mod (root : path) : filepath_Join root "go.mod" = root ++ ["go.mod"].
Proof. reflexivity. Qed.

Lemma Join_Makefile (root : path) : filepath_Join root "Makefile" = root ++ ["Makefile"].
Proof. reflexivity. Qed.

Lemma render_call_tail (g : bool) (root : path) (c : call) :
  render_call root c -> tail_call g root c.
Proof. destruct c; unfold render_call, tail_call; tauto. Qed.

Lemma within_writeTemplate tfs E (root : path) (o t : string) (cfg : Config) :
  (o, t) ∈ templates ->
  within (render_call root) (writeTemplate tfs E root o t cfg).
Proof.
  intros H. unfold writeTemplate.
  assert (root ++ rel o ∈ map (fun ot => root ++ rel ot.1) templates) as Hout.
  { apply list_elem_of_fmap. by exists (o, t). }
  apply within_bind; [by apply within_templateFS_ReadFile|].
  intros [text|err]; [|apply within_ret].
  apply within_bind; [by apply within_template_Parse|].
  intros [tmpl|err]; [|apply within_ret].
  rewrite (Dir_output root o t H), (Join_output root o t H).
  apply within_bind.
  { apply within_os_MkdirAll. apply list_elem_of_fmap. by exists (o, t). }
  intros _. apply within_bind; [by apply within_os_Create|].
  intros [err|]; [apply within_ret|].
  apply within_bind; [by apply within_template_Execute|].
  intros r. apply within_bind; [by apply within_file_Close|].
  intros _. apply within_ret.
Qed.

Lemma within_render tfs E (root : path) (cfg : Config) (l : list (string * string)) :
  l ⊆ templates -> within (render_call root) (render tfs E root cfg l).
Proof.
  induction l as [|[o t] l IH]; intros H; simpl; [apply within_ret|].
  apply within_check.
  - apply within_writeTemplate. set_solver.
  - apply IH. set_solver.
Qed.

Lemma within_phase_dirs (root : path) (cfg : Config) :
  within (tail_call (Gitkeep cfg) root) (phase_dirs root cfg).
Proof.
  apply within_for_each. intros d Hd. cbv beta zeta.
  rewrite (Join_marker root d Hd), (Join_dir root d Hd).
  apply within_bind.
  { apply within_os_MkdirAll. left. apply list_elem_of_fmap. by exists d. }
  intros _. destruct (Gitkeep cfg) eqn:G; [|apply within_ret].
  apply within_bind; [|intros _; apply within_ret].
  apply within_os_WriteFile. right. right. repeat split.
  apply list_elem_of_fmap. by exists d.
Qed.

Lemma within_phase_files tfs E (root : path) (cfg : Config) :
  within (tail_call (Gitkeep cfg) root) (phase_files tfs E root cfg).
Proof.
  unfold phase_files.
  apply within_check.
  { apply within_os_WriteFile. by left. }
  apply within_check.
  { apply within_os_WriteFile. right. by left. }
  eapply within_weaken; [apply render_call_tail|]. by apply within_render.
Qed.

Lemma within_phase_tail tfs E (root : path) (cfg : Config) :
  within (tail_call (Gitkeep cfg) root) (phase_tail tfs E root cfg).
Proof.
  unfold phase_tail. apply within_bind; [apply within_phase_dirs|]. intros _.
  apply within_phase_files.
Qed.

(** ** The calls of each phase *)

Lemma for_each_calls {A} (f : A -> list call) (l : list A) (body : A -> IO unit) (w : world) :
  (forall x w, body x w = (tt, perform_all (f x) w)) ->
  for_each l body w = (tt, perform_all (flat_map f l) w).
Proof.
  intros H. revert w. induction l as [|x l IH]; intros w; simpl.
  - by rewrite perform_all_nil.
  - unfold bind. rewrite H, IH. by rewrite perform_all_app.
Qed.

Lemma phase_dirs_calls (root : path) (cfg : Config) (w : world) :
  phase_dirs root cfg w = (tt, perform_all (dir_calls (Gitkeep cfg) root) w).
Proof.
  unfold phase_dirs, dir_calls. apply for_each_calls. clear w. intros d w.
  unfold bind, os_MkdirAll, os_WriteFile, ret.
  destruct (Gitkeep cfg); by rewrite !perform_all_cons, perform_all_nil.
Qed.

Lemma flat_map_singleton {A B} (g : A -> B) (l : list A) :
  flat_map (fun x => [g x]) l = map g l.
Proof. induction l; simpl; congruence. Qed.

Lemma phase_clean_calls (root : path) (cfg : Config) (w : world) :
  phase_clean root cfg w = (tt, perform_all (cleaning cfg root (fs w)) w).
Proof.
  unfold phase_clean, cleaning, clean_calls. destruct (Clean cfg).
  - unfold bind at 1. unfold os_ReadDir.
    destruct (fs_read_dir root (fs w)) as [entries r] eqn:E. simpl.
    rewrite perform_all_cons, <- flat_map_singleton.
    apply for_each_calls. intros e w'. unfold bind, os_RemoveAll, ret.
    by rewrite perform_one.
  - unfold ret. by rewrite perform_all_nil.
Qed.

Lemma os_MkdirAll_name_empty (cwd : path) (name : string) (w : world) :
  name = "" ->
  os_MkdirAll_name cwd name w =
    (Some (PathError "mkdir" "" ENOENT), perform (RejectedCall "mkdir" "") w).
Proof. by intros ->. Qed.

Lemma os_MkdirAll_name_resolved (cwd : path) (name : string) (w : world) :
  name <> "" ->
  os_MkdirAll_name cwd name w = os_MkdirAll (filepath_Abs cwd name) w.
Proof.
  intros H. unfold os_MkdirAll_name. by destruct (String.eqb_spec name "").
Qed.

Lemma os_MkdirAll_name_ok (cwd : path) (name : string) (w : world) :
  (os_MkdirAll_name cwd name w).1 = None ->
  name <> "" /\ (fs_mkdir_all (filepath_Abs cwd name) (fs w)).2 = None.
Proof.
  unfold os_MkdirAll_name. destruct (String.eqb_spec name "") as [->|H]; [done|].
  by intros H'.
Qed.

(** [generate], phase by phase: when the root cannot be created, the
    error is returned after this one call; otherwise the clean step and
    then the rest run on the world the earlier calls have left. *)
Lemma generate_empty_root tfs E (cwd : path) (cfg : Config) (w : world) :
  Root cfg = "" ->
  generate tfs E cwd cfg w =
    (Some (PathError "mkdir" "" ENOENT), perform (RejectedCall "mkdir" "") w).
Proof.
  intros H. rewrite generate_phases. unfold check at 1. unfold bind at 1.
  by rewrite os_MkdirAll_name_empty.
Qed.

Lemma generate_shape tfs E (cwd : path) (cfg : Config) (w : world) :
  let root := filepath_Abs cwd (Root cfg) in
  Root cfg <> "" ->
  generate tfs E cwd cfg w =
    match (fs_mkdir_all root (fs w)).2 with
    | Some err => (Some err, perform (MkdirAllCall root) w)
    | None =>
        phase_tail tfs E root cfg
          (perform_all
             (MkdirAllCall root :: cleaning cfg root (fs_mkdir_all root (fs w)).1) w)
    end.
Proof.
  intros root Hne. rewrite generate_phases. fold root.
  unfold check at 1. unfold bind at 1. rewrite os_MkdirAll_name_resolved by done.
  fold root. unfold os_MkdirAll at 1.
  destruct ((fs_mkdir_all root (fs w)).2) as [err|] eqn:E1; [done|].
  unfold bind at 1. rewrite phase_clean_calls. simpl.
  by rewrite perform_all_cons.
Qed.

(** ** Frames: what a call leaves alone *)

Lemma keeps_apply (k : path) (c : call) (m : filesystem) (e : entry) :
  keeps k c -> m !! k = Some e -> apply_call c m !! k = Some e.
Proof.
  destruct c; simpl; intros Hk H; try done.
  - by apply fs_mkdir_all_keeps.
  - rewrite fs_remove_all_lookup. by rewrite decide_False.
  - by rewrite fs_write_other.
  - by rewrite fs_write_other.
  - by rewrite fs_write_handle_other.
Qed.

Lemma keeps_replay (k : path) (cs : list call) (m : filesystem) (e : entry) :
  Forall (keeps k) cs -> m !! k = Some e -> replay cs m !! k = Some e.
Proof.
  intros H. revert m. induction H as [|c cs Hc Hcs IH]; intros m Hm; simpl; [done|].
  apply IH. by apply keeps_apply.
Qed.

Lemma avoids_apply (k : path) (c : call) (m : filesystem) :
  avoids k c -> m !! k = None -> apply_call c m !! k = None.
Proof.
  destruct c; simpl; intros Hk H; try done.
  - destruct ((fs_mkdir_all p m).1 !! k) as [e|] eqn:E; [|done].
    apply fs_mkdir_all_lookup in E as [E|(_ & _ & E)]; [congruence|done].
  - rewrite fs_remove_all_lookup. by case_decide.
  - by rewrite fs_write_other.
  - by rewrite fs_write_other.
  - unfold fs_write_handle. destruct (m !! p) as [[x|]|] eqn:E; try done.
    rewrite lookup_insert_ne; [done|]. congruence.
Qed.

Lemma avoids_replay (k : path) (cs : list call) (m : filesystem) :
  Forall (avoids k) cs -> m !! k = None -> replay cs m !! k = None.
Proof.
  intros H. revert m. induction H as [|c cs Hc Hcs IH]; intros m Hm; simpl; [done|].
  apply IH. by apply avoids_apply.
Qed.

(** A call never turns a regular file into something else, except by
    removing it. *)
Lemma file_stays (k : path) (c : call) (m : filesystem) (x : string) :
  is_removal c = false -> m !! k = Some (RegFile x) ->
  exists y, apply_call c m !! k = Some (RegFile y).
Proof.
  destruct c; simpl; intros Hc H; try done; eauto.
  - exists x. by apply fs_mkdir_all_keeps.
  - destruct (fs_write_cases "open" p data m) as [[err ->]|[-> _]]; simpl; eauto.
    destruct (decide (k = p)) as [->|Hne].
    + rewrite lookup_insert_eq. eauto.
    + rewrite lookup_insert_ne by done. eauto.
  - destruct (fs_write_cases "open" p "" m) as [[err ->]|[-> _]]; simpl; eauto.
    destruct (decide (k = p)) as [->|Hne].
    + rewrite lookup_insert_eq. eauto.
    + rewrite lookup_insert_ne by done. eauto.
  - unfold fs_write_handle. destruct (m !! p) as [[z|]|] eqn:E; eauto.
    destruct (decide (k = p)) as [->|Hne].
    + rewrite lookup_insert_eq. eauto.
    + rewrite lookup_insert_ne by done. eauto.
Qed.

Lemma file_stays_replay (k : path) (cs : list call) (m : filesystem) (x : string) :
  Forall (fun c => is_removal c = false) cs -> m !! k = Some (RegFile x) ->
  exists y, replay cs m !! k = Some (RegFile y).
Proof.
  intros H. revert m x. induction H as [|c cs Hc Hcs IH]; intros m x Hm; simpl; eauto.
  destruct (file_stays k c m x Hc Hm) as [y Hy]. eauto.
Qed.

Lemma tail_call_no_removal (g : bool) (root : path) (c : call) :
  tail_call g root c -> is_removal c = false.
Proof. by destruct c. Qed.

Lemma tail_call_valid (g : bool) (root : path) (c : call) :
  Forall (fun c => valid_name c = true) root -> tail_call g root c -> valid_call c.
Proof.
  intros Hr. destruct c; unfold tail_call, valid_call; try done.
  - intros [H|H]; apply list_elem_of_fmap in H as (x & -> & Hx);
      apply Forall_app; (split; [done|]).
    + by apply (walk_valid [] x).
    + apply Forall_removelast. by apply (walk_valid [] x.1).
  - intros [->|[->|(_ & _ & H)]].
    + apply Forall_app. split; [done|]. by repeat constructor.
    + apply Forall_app. split; [done|]. by repeat constructor.
    + apply list_elem_of_fmap in H as (x & -> & Hx).
      apply Forall_app. split; [done|]. apply Forall_app. split.
      * by apply (walk_valid [] x).
      * by repeat constructor.
  - intros H. apply list_elem_of_fmap in H as (x & -> & Hx).
    apply Forall_app. split; [done|]. by apply (walk_valid [] x.1).
Qed.

(** ** [writeTemplate], step by step *)

Lemma writeTemplate_eq tfs E (root : path) (o t : string) (cfg : Config) (w : world) :
  writeTemplate tfs E root o t cfg w =
    let name := "templates/" +:+ t in
    let out := filepath_Join root o in
    match tfs name with
    | None =>
        (Some (PathError "open" name ENOENT), perform_all [ReadTemplateCall name] w)
    | Some text =>
        match Parse E t text with
        | inr err => (Some err, perform_all [ReadTemplateCall name; ParseCall t] w)
        | inl tmpl =>
            let w1 := perform_all [ReadTemplateCall name; ParseCall t;
                                   MkdirAllCall (filepath_Dir out)] w in
            match (os_Create out w1).1 with
            | Some err => (Some err, perform (CreateCall out) w1)
            | None =>
                ((Execute E tmpl (context_of cfg)).2,
                 perform_all [CreateCall out;
                              ExecuteCall out (Execute E tmpl (context_of cfg)).1;
                              CloseCall out] w1)
            end
        end
    end.
Proof.
  cbv zeta. repeat rewrite ?perform_all_cons, ?perform_all_nil.
  unfold writeTemplate, bind, templateFS_ReadFile, template_Parse, os_MkdirAll,
    os_Create, template_Execute, file_Close, ret, context_of.
  destruct (tfs _) as [text|]; [|done].
  destruct (Parse E t text) as [tmpl|err]; [|done].
  cbn [fst snd].
  destruct ((fs_write "open" _ "" _).2) as [err|]; [done|].
  destruct (Execute E tmpl _) as [written r]. cbn [fst snd].
  by rewrite !perform_all_cons, perform_all_nil.
Qed.

Lemma os_Create_ok (out : path) (w : world) :
  (os_Create out w).1 = None ->
  fs (perform (CreateCall out) w) !! out = Some (RegFile "").
Proof.
  unfold os_Create, perform. simpl. intros H. apply fs_write_ok in H as (-> & _).
  by rewrite lookup_insert_eq.
Qed.

Lemma write_handle_created (out : path) (written : string) (m : filesystem) (x : string) :
  m !! out = Some (RegFile x) ->
  fs_write_handle out written m !! out = Some (RegFile written).
Proof. intros H. unfold fs_write_handle. rewrite H. by rewrite lookup_insert_eq. Qed.

(** ** C9: the output file is created only after loading and parsing *)

(** C9. [writeTemplate] creates (and truncates) the output file only after
    the template text has been loaded and parsed: when the template cannot
    be loaded, or does not parse, the error is returned, no creation call
    is made and the file system is as before; when the file has been created
    and execution ends with result [r] after writing [written], the result
    is [r] and the output file holds exactly [written], whatever it held
    before -- for a failed execution, the partial output. *)
Theorem C9_output_created_after_parse tfs E (root : path) (o t : string)
    (cfg : Config) (w : world) :
  let name := "templates/" +:+ t in
  let out := filepath_Join root o in
  let run := writeTemplate tfs E root o t cfg w in
  (tfs name = None ->
     run.1 = Some (PathError "open" name ENOENT)
     /\ fs run.2 = fs w
     /\ trace run.2 = trace w ++ [ReadTemplateCall name])
  /\ (forall text err,
        tfs name = Some text -> Parse E t text = inr err ->
        run.1 = Some err
        /\ fs run.2 = fs w
        /\ trace run.2 = trace w ++ [ReadTemplateCall name; ParseCall t])
  /\ (forall text tmpl written r,
        tfs name = Some text -> Parse E t text = inl tmpl ->
        (os_Create out (perform (MkdirAllCall (filepath_Dir out)) w)).1 = None ->
        Execute E tmpl (context_of cfg) = (written, r) ->
        run.1 = r
        /\ fs run.2 !! out = Some (RegFile written)
        /\ trace run.2 =
             trace w ++ [ReadTemplateCall name; ParseCall t;
                         MkdirAllCall (filepath_Dir out); CreateCall out;
                         ExecuteCall out written; CloseCall out]).
Proof.
  intros name out run. subst run. rewrite writeTemplate_eq. fold name out.
  cbv zeta. split; [|split].
  - intros ->. simpl. done.
  - intros text err -> ->. simpl. done.
  - intros text tmpl written r -> -> Hc He.
    assert (forall w1 w2, fs w1 = fs w2 ->
              (os_Create out w1).1 = (os_Create out w2).1) as Hfs.
    { intros w1 w2 E12. unfold os_Create. simpl. by rewrite E12. }
    rewrite (Hfs _ (perform (MkdirAllCall (filepath_Dir out)) w)) by done.
    rewrite Hc, He. cbn [fst snd]. split; [done|]. split.
    + repeat rewrite ?perform_all_cons, ?perform_all_nil.
      cbn [perform fs apply_call].
      eapply write_handle_created. apply fs_write_ok in Hc as (Hc & _).
      cbn [perform fs apply_call] in Hc.
      etrans; [exact (f_equal (fun m : filesystem => m !! out) Hc)|].
      apply lookup_insert_eq.
    + simpl. by rewrite <- !app_assoc.
Qed.

(** On the sample store: a template that is missing and one that does not
    parse leave the old output in place; one that fails during execution
    leaves the text written before the failure. *)
Lemma C9_witness :
  (fs (writeTemplate Sample.store GoTemplate.engine Sample.root
         "cmd/main.go" "missing.tmpl" Sample.cfg Sample.used).2
     = fs Sample.used)
  /\ (fs (writeTemplate Sample.store GoTemplate.engine Sample.root
            "cmd/main.go" "open.tmpl" Sample.cfg Sample.used).2
        = fs Sample.used)
  /\ (writeTemplate Sample.store GoTemplate.engine Sample.root
        "cmd/main.go" "broken.tmpl" Sample.cfg Sample.used).1
       = Some (ExecError "can't evaluate field Path in type string")
  /\ fs (writeTemplate Sample.store GoTemplate.engine Sample.root
           "cmd/main.go" "broken.tmpl" Sample.cfg Sample.used).2
       !! (Sample.root ++ ["cmd"; "main.go"])
     = Some (RegFile "module github.com/acme/widget and ").
Proof.
  pose proof (C9_output_created_after_parse Sample.store GoTemplate.engine
                Sample.root "cmd/main.go") as H.
  split; [|split; [|split]].
  - apply (H "missing.tmpl" Sample.cfg Sample.used). reflexivity.
  - eapply (H "open.tmpl" Sample.cfg Sample.used); reflexivity.
  - eapply (H "broken.tmpl" Sample.cfg Sample.used);
      [reflexivity|reflexivity|vm_compute; reflexivity|vm_compute; reflexivity].
  - eapply (H "broken.tmpl" Sample.cfg Sample.used);
      [reflexivity|reflexivity|vm_compute; reflexivity|vm_compute; reflexivity].
Defined.

(** ** C3: failure to create the root *)

Lemma main_eq tfs E (cwd : path) (flags : Flags) (p : process) :
  flag_version flags = false ->
  main tfs E cwd flags p =
    let cfg := (resolve_config flags p).1 in
    let p1 := (resolve_config flags p).2 in
    let r := generate tfs E cwd cfg (os p1) in
    match r.1 with
    | Some err =>
        (1, Process (stdin p1) (stdout p1)
              (stderr p1 +:+ "Error: " +:+ error_Error err +:+ LF) r.2)
    | None =>
        (0, Process (stdin p1)
              ((((stdout p1 +:+ (LF +:+ "✓ Done! Your project is ready." +:+ LF))
                 +:+ (LF +:+ "Next steps:" +:+ LF))
                +:+ ("  cd " +:+ Root cfg +:+ LF))
               +:+ ("  make run" +:+ LF))
              (stderr p1) r.2)
    end.
Proof.
  intros Hv. unfold main. rewrite Hv. unfold bind at 1.
  destruct (resolve_config flags p) as [cfg p1]. cbn [fst snd].
  unfold bind at 1, liftOS.
  destruct (generate tfs E cwd cfg (os p1)) as [[err|] w']; reflexivity.
Qed.



(** ** C4: the first failing template ends the run *)

Lemma generate_prelude tfs E (cwd : path) (cfg : Config) (w : world) :
  generate tfs E cwd cfg w =
    check (prelude cwd cfg) (render tfs E (filepath_Abs cwd (Root cfg)) cfg templates) w.
Proof.
  rewrite generate_phases. unfold prelude, phase_tail, phase_files, check, bind.
  destruct (os_MkdirAll_name _ _ w) as [[err|] w1]; [done|].
  destruct (phase_clean _ cfg w1) as [[] w2].
  destruct (phase_dirs _ cfg w2) as [[] w3].
  destruct (writeGoMod _ _ w3) as [[err|] w4]; [done|].
  by destruct (writeMakefile _ _ w4) as [[err|] w5].
Qed.

Lemma render_stops tfs E (root : path) (cfg : Config)
    (pre post : list (string * string)) (o t : string) (w : world) (err : error) :
  (render tfs E root cfg pre w).1 = None ->
  (writeTemplate tfs E root o t cfg (render tfs E root cfg pre w).2).1 = Some err ->
  render tfs E root cfg (pre ++ (o, t) :: post) w =
    (Some err, (writeTemplate tfs E root o t cfg (render tfs E root cfg pre w).2).2).
Proof.
  revert w. induction pre as [|[o' t'] pre IH]; intros w; simpl.
  - intros _ H. unfold check, bind, ret in *.
    destruct (writeTemplate tfs E root o t cfg w) as [[e|] w']; simpl in *; congruence.
  - unfold check, bind, ret.
    destruct (writeTemplate tfs E root o' t' cfg w) as [[e|] w']; simpl; [done|].
    apply IH.
Qed.

(** C4. The entries of the template manifest are processed in order. When
    everything before an entry has succeeded and [writeTemplate] fails on
    that entry, [generate] returns this very error and ends in the world
    that call has left: nothing is done for the entries after it. The
    error of [writeTemplate] is the error of the first step that fails:
    loading the text, parsing it, creating the output file, executing the
    template. *)
Theorem C4_first_template_failure_aborts tfs E (cwd : path) (cfg : Config) :
  let root := filepath_Abs cwd (Root cfg) in
  (forall (w : world) (pre post : list (string * string)) (o t : string) (err : error),
     templates = pre ++ (o, t) :: post ->
     let w0 := (prelude cwd cfg w).2 in
     let w1 := (render tfs E root cfg pre w0).2 in
     (prelude cwd cfg w).1 = None ->
     (render tfs E root cfg pre w0).1 = None ->
     (writeTemplate tfs E root o t cfg w1).1 = Some err ->
     generate tfs E cwd cfg w
       = (Some err, (writeTemplate tfs E root o t cfg w1).2))
  /\ (forall (w : world) (o t : string),
        (writeTemplate tfs E root o t cfg w).1 =
          match tfs ("templates/" +:+ t) with
          | None => Some (PathError "open" ("templates/" +:+ t) ENOENT)
          | Some text =>
              match Parse E t text with
              | inr err => Some err
              | inl tmpl =>
                  let out := filepath_Join root o in
                  match (os_Create out
                           (perform (MkdirAllCall (filepath_Dir out)) w)).1 with
                  | Some err => Some err
                  | None => (Execute E tmpl (context_of cfg)).2
                  end
              end
          end).
Proof.
  intros root. split.
  - intros w pre post o t err Ht w0 w1 H0 H1 H2.
    rewrite generate_prelude. fold root. unfold check at 1, bind at 1.
    destruct (prelude cwd cfg w) as [r w0'] eqn:E0. simpl in H0. subst r.
    subst w0. cbn [snd] in *. rewrite Ht. by apply render_stops.
  - intros w o t. rewrite writeTemplate_eq. cbv zeta.
    destruct (tfs _) as [text|]; [|done].
    destruct (Parse E t text) as [tmpl|err]; [|done].
    assert ((os_Create (filepath_Join root o)
               (perform_all [ReadTemplateCall ("templates/" +:+ t); ParseCall t;
                             MkdirAllCall (filepath_Dir (filepath_Join root o))] w)).1
            = (os_Create (filepath_Join root o)
                 (perform (MkdirAllCall (filepath_Dir (filepath_Join root o))) w)).1)
      as ->.
    { unfold os_Create. cbn [fst]. do 2 f_equal. }
    by destruct ((os_Create _ _).1).
Qed.

Lemma C4_witness :
  generate Sample.store_without_router GoTemplate.engine Sample.cwd Sample.cfg Sample.empty
  = (Some (PathError "open" "templates/router.go.tmpl" ENOENT),
     (writeTemplate Sample.store_without_router GoTemplate.engine Sample.root
        "services/serviceName/routes/router.go" "router.go.tmpl" Sample.cfg
        (render Sample.store_without_router GoTemplate.engine Sample.root Sample.cfg
           [("cmd/main.go", "main.go.tmpl")]
           (prelude Sample.cwd Sample.cfg Sample.empty).2).2).2).
Proof.
  destruct (C4_first_template_failure_aborts Sample.store_without_router GoTemplate.engine
              Sample.cwd Sample.cfg) as [H _].
  apply (H Sample.empty [("cmd/main.go", "main.go.tmpl")]
           [("config/init/serverConfig.go", "serverConfig.go.tmpl");
            ("commons/utils/logger.go", "logger.go.tmpl")]
           "services/serviceName/routes/router.go" "router.go.tmpl");
    vm_compute; reflexivity.
Defined.

(** ** Successful runs *)

Lemma phase_tail_ok tfs E (root : path) (cfg : Config) (w w' : world) :
  phase_tail tfs E root cfg w = (None, w') ->
  let w3 := perform_all (dir_calls (Gitkeep cfg) root) w in
  let w4 := perform (WriteFileCall (root ++ ["go.mod"]) (goMod_content (ModuleName cfg))) w3 in
  let w5 := perform (WriteFileCall (root ++ ["Makefile"]) (Makefile_content (Port cfg))) w4 in
  (fs_write "open" (root ++ ["go.mod"]) (goMod_content (ModuleName cfg)) (fs w3)).2 = None
  /\ (fs_write "open" (root ++ ["Makefile"]) (Makefile_content (Port cfg)) (fs w4)).2 = None
  /\ render tfs E root cfg templates w5 = (None, w').
Proof.
  unfold phase_tail, phase_files. unfold bind at 1. rewrite phase_dirs_calls.
  unfold check at 1, bind at 1, writeGoMod, os_WriteFile at 1.
  rewrite Join_go_mod. cbn [fst snd].
  destruct ((fs_write "open" (root ++ ["go.mod"]) _ _).2) as [err|] eqn:E1; [done|].
  unfold check at 1, bind at 1, writeMakefile, os_WriteFile at 1.
  rewrite Join_Makefile. cbn [fst snd].
  destruct ((fs_write "open" (root ++ ["Makefile"]) _ _).2) as [err|] eqn:E2; [done|].
  intros H. done.
Qed.

Lemma render_call_no_removal (root : path) (c : call) :
  render_call root c -> is_removal c = false.
Proof. by destruct c. Qed.

Lemma render_call_keeps (root k0 : path) (c : call) :
  Forall (fun ot : string * string => rel ot.1 <> k0) templates ->
  render_call root c -> keeps (root ++ k0) c.
Proof.
  intros H. destruct c; unfold render_call, keeps; try done;
    intros Hin; apply list_elem_of_fmap in Hin as (ot & -> & Hot);
    intros Heq%app_inv_head; by apply (proj1 (Forall_forall _ _) H ot).
Qed.

Lemma render_keeps tfs E (root k0 : path) (cfg : Config) (w : world) (e : entry) :
  Forall (fun ot : string * string => rel ot.1 <> k0) templates ->
  fs w !! (root ++ k0) = Some e ->
  fs (render tfs E root cfg templates w).2 !! (root ++ k0) = Some e.
Proof.
  intros Hk He.
  destruct (within_calls _ _ w (within_render tfs E root cfg templates (reflexivity _)))
    as (cs & Hcs & ->).
  simpl. apply keeps_replay; [|done].
  eapply Forall_impl; [exact Hcs|]. intros c. by apply render_call_keeps.
Qed.

Lemma generate_ok tfs E (cwd : path) (cfg : Config) (w : world) :
  let root := filepath_Abs cwd (Root cfg) in
  (generate tfs E cwd cfg w).1 = None ->
  Root cfg <> ""
  /\ (fs_mkdir_all root (fs w)).2 = None
  /\ phase_tail tfs E root cfg
       (perform_all
          (MkdirAllCall root :: cleaning cfg root (fs_mkdir_all root (fs w)).1) w)
     = (None, (generate tfs E cwd cfg w).2).
Proof.
  intros root. destruct (String.eqb_spec (Root cfg) "") as [He|Hne].
  { by rewrite generate_empty_root. }
  rewrite generate_shape by done. fold root.
  destruct ((fs_mkdir_all root (fs w)).2) as [err|]; [done|].
  intros H. split; [done|]. split; [done|].
  destruct (phase_tail _ _ _ _ _) as [r w']. simpl in *. by subst r.
Qed.

(** ** C1: the static files *)

(** C1. After a successful generation, [go.mod] under the resolved root
    holds ["module "], the module identifier and the fixed remainder, and
    [Makefile] holds ["PORT ?= "], the port and the fixed remainder: the
    module identifier and the port are the only parts that vary. With module
    [github.com/acme/widget] and port [9090] the two texts are the ones
    displayed. *)
Theorem C1_static_files tfs E (cwd : path) (cfg : Config) (w : world) :
  let root := filepath_Abs cwd (Root cfg) in
  let TAB := String "009" EmptyString in
  (generate tfs E cwd cfg w).1 = None ->
  fs (generate tfs E cwd cfg w).2 !! (root ++ ["go.mod"])
    = Some (RegFile ("module " +:+ ModuleName cfg +:+ LF +:+ LF +:+ "go 1.22.0" +:+ LF))
  /\ fs (generate tfs E cwd cfg w).2 !! (root ++ ["Makefile"])
    = Some (RegFile ("PORT ?= " +:+ Port cfg +:+ LF +:+ LF
              +:+ "run:" +:+ LF +:+ TAB +:+ "go run ./cmd/main.go" +:+ LF +:+ LF
              +:+ "build:" +:+ LF +:+ TAB +:+ "go build -o bin/app ./cmd/main.go" +:+ LF +:+ LF
              +:+ "test:" +:+ LF +:+ TAB +:+ "go test ./..." +:+ LF +:+ LF
              +:+ "setup:" +:+ LF +:+ TAB +:+ "go mod tidy" +:+ LF))
  /\ goMod_content "github.com/acme/widget"
     = "module github.com/acme/widget" +:+ LF +:+ LF +:+ "go 1.22.0" +:+ LF
  /\ Makefile_content "9090"
     = "PORT ?= 9090" +:+ LF +:+ LF
       +:+ "run:" +:+ LF +:+ TAB +:+ "go run ./cmd/main.go" +:+ LF +:+ LF
       +:+ "build:" +:+ LF +:+ TAB +:+ "go build -o bin/app ./cmd/main.go" +:+ LF +:+ LF
       +:+ "test:" +:+ LF +:+ TAB +:+ "go test ./..." +:+ LF +:+ LF
       +:+ "setup:" +:+ LF +:+ TAB +:+ "go mod tidy" +:+ LF.
Proof.
  intros root TAB H. apply generate_ok in H as (_ & _ & H). fold root in H.
  apply phase_tail_ok in H as (H1 & H2 & H3). cbv zeta in *.
  pose proof (f_equal snd H3) as Hw. cbn [snd] in Hw. rewrite <- Hw. clear Hw H3.
  apply fs_write_ok in H1 as (H1 & _). apply fs_write_ok in H2 as (H2 & _).
  split; [|split; [|split; reflexivity]].
  - apply (render_keeps tfs E root ["go.mod"]); [by repeat constructor|].
    cbn [perform fs apply_call]. rewrite fs_write_other.
    2:{ intros Heq%app_inv_head. done. }
    etrans; [exact (f_equal (fun m : filesystem => m !! (root ++ ["go.mod"])) H1)|].
    by rewrite lookup_insert_eq.
  - apply (render_keeps tfs E root ["Makefile"]); [by repeat constructor|].
    cbn [perform fs apply_call] in *.
    etrans; [exact (f_equal (fun m : filesystem => m !! (root ++ ["Makefile"])) H2)|].
    by rewrite lookup_insert_eq.
Qed.

Lemma C1_witness :
  fs (generate Sample.store GoTemplate.engine Sample.cwd Sample.cfg Sample.empty).2
    !! (Sample.root ++ ["go.mod"])
  = Some (RegFile ("module " +:+ "github.com/acme/widget" +:+ LF +:+ LF
                   +:+ "go 1.22.0" +:+ LF)).
Proof.
  apply (C1_static_files Sample.store GoTemplate.engine Sample.cwd Sample.cfg
           Sample.empty).
  vm_compute. reflexivity.
Defined.

(** ** The calls of a whole run *)

Lemma generate_calls tfs E (cwd : path) (cfg : Config) (w : world) :
  let root := filepath_Abs cwd (Root cfg) in
  Root cfg <> "" ->
  (fs_mkdir_all root (fs w)).2 = None ->
  exists rest,
    Forall (tail_call (Gitkeep cfg) root) rest
    /\ (generate tfs E cwd cfg w).2 =
         perform_all (MkdirAllCall root
                      :: cleaning cfg root (fs_mkdir_all root (fs w)).1
                      ++ dir_calls (Gitkeep cfg) root ++ rest) w.
Proof.
  intros root Hne H. rewrite generate_shape by done. fold root. rewrite H.
  unfold phase_tail, bind. rewrite phase_dirs_calls.
  destruct (within_calls _ _
              (perform_all (dir_calls (Gitkeep cfg) root)
                 (perform_all (MkdirAllCall root
                    :: cleaning cfg root (fs_mkdir_all root (fs w)).1) w))
              (within_phase_files tfs E root cfg)) as (rest & Hrest & Heq).
  exists rest. split; [done|]. rewrite Heq.
  rewrite <- !perform_all_app. simpl. by rewrite <- app_assoc.
Qed.

Lemma dir_calls_tail (g : bool) (root : path) :
  Forall (tail_call g root) (dir_calls g root).
Proof.
  unfold dir_calls. apply Forall_forall. intros c Hc.
  apply list_elem_of_In, in_flat_map in Hc as (d & Hd & Hc).
  apply list_elem_of_In in Hd.
  rewrite (Join_marker root d Hd), (Join_dir root d Hd) in Hc.
  destruct Hc as [<-|Hc].
  - left. apply list_elem_of_fmap. by exists d.
  - destruct g; [|done]. destruct Hc as [<-|[]].
    right. right. repeat split. apply list_elem_of_fmap. by exists d.
Qed.

Lemma dirs_top : Forall (fun d => starts_in_top (rel d) = true) dirs.
Proof. repeat constructor. Qed.

Lemma templates_top :
  Forall (fun ot : string * string =>
            starts_in_top (rel ot.1) = true
            /\ starts_in_top (removelast (rel ot.1)) = true) templates.
Proof. repeat constructor. Qed.

(** Every path a call of the tail works on lies under the root, below one
    of the top names. *)
Lemma tail_call_under (g : bool) (root : path) (c : call) (p : path) :
  tail_call g root c -> call_path c = Some p ->
  exists l, p = root ++ l /\ starts_in_top l = true.
Proof.
  assert (forall q, q ∈ map (fun ot : string * string => root ++ rel ot.1) templates ->
            exists l, q = root ++ l /\ starts_in_top l = true) as Hout.
  { intros q (ot & -> & Hot)%list_elem_of_fmap. eexists. split; [done|].
    by apply (proj1 (Forall_forall _ _) templates_top ot). }
  destruct c; unfold tail_call, call_path; intros H [= <-]; try done; auto.
  - destruct H as [H|H]; apply list_elem_of_fmap in H as (x & -> & Hx);
      (eexists; split; [done|]).
    + by apply (proj1 (Forall_forall _ _) dirs_top x).
    + by apply (proj1 (Forall_forall _ _) templates_top x).
  - destruct H as [->|[->|(_ & _ & H)]];
      [exists ["go.mod"]; split; reflexivity
      |exists ["Makefile"]; split; reflexivity|].
    apply list_elem_of_fmap in H as (x & -> & Hx). eexists. split; [done|].
    generalize (proj1 (Forall_forall _ _) dirs_top x Hx).
    by destruct (rel x).
Qed.

Lemma tail_call_avoids (g : bool) (root : path) (n : string) (c : call) :
  n ∉ top_names -> tail_call g root c -> avoids (root ++ [n]) c.
Proof.
  intros Hn Hc.
  assert (forall l, starts_in_top l = true -> ¬ [n] `prefix_of` l) as Hl.
  { intros [|x l] Hx [k Hk]; [done|]. simpl in Hx. apply bool_decide_eq_true in Hx.
    simpl in Hk. congruence. }
  destruct c; unfold avoids; try done.
  - destruct (tail_call_under g root _ p Hc eq_refl) as (l & -> & Hl').
    intros [_ Hp%prefix_app_inv]%elem_of_prefixes. by apply (Hl l).
  - destruct (tail_call_under g root _ p Hc eq_refl) as (l & -> & Hl').
    intros ->%app_inv_head. by apply (Hl [n]).
  - destruct (tail_call_under g root _ p Hc eq_refl) as (l & -> & Hl').
    intros ->%app_inv_head. by apply (Hl [n]).
Qed.

Lemma tail_call_writes (g : bool) (root : path) (c : call) :
  tail_call g root c ->
  match c with
  | WriteFileCall p _ | CreateCall p | ExecuteCall p _ => p ∈ generated_files g root
  | _ => True
  end.
Proof.
  unfold generated_files. destruct c; unfold tail_call; try done.
  - intros [->|[->|(-> & _ & H)]]; set_solver.
  - set_solver.
  - set_solver.
Qed.

Lemma tail_call_keeps (g : bool) (root k : path) (c : call) :
  k ∉ generated_files g root -> tail_call g root c -> keeps k c.
Proof.
  intros Hk Hc. pose proof (tail_call_writes g root c Hc) as H.
  destruct c; unfold keeps; try done; by intros ->.
Qed.

(** ** The clean step *)

Lemma replay_removals (ps : list path) (m : filesystem) (k : path) :
  replay (map RemoveAllCall ps) m !! k =
    if decide (Exists (fun p => p `prefix_of` k) ps) then None else m !! k.
Proof.
  revert m. induction ps as [|p ps IH]; intros m; simpl.
  - done.
  - rewrite IH, fs_remove_all_lookup.
    destruct (decide (Exists _ ps)) as [He|He].
    + rewrite decide_True; [done|]. by right.
    + destruct (decide (p `prefix_of` k)) as [Hp|Hp].
      * rewrite decide_True; [done|]. by left.
      * rewrite decide_False; [done|]. by intros [?|?]%Exists_cons.
Qed.

Lemma root_is_directory (root : path) (m : filesystem) :
  (fs_mkdir_all root m).2 = None ->
  stat (fs_mkdir_all root m).1 root = Some Directory.
Proof.
  intros H. destruct root as [|c root]; [done|]. simpl stat.
  apply fs_mkdir_all_ok; [done|]. apply elem_of_prefixes. done.
Qed.

Lemma clean_calls_children (root : path) (m : filesystem) :
  stat m root = Some Directory ->
  clean_calls root m =
    ReadDirCall root :: map (fun e => RemoveAllCall (filepath_Join root e)) (children root m).
Proof. intros H. unfold clean_calls, fs_read_dir. by rewrite H. Qed.

Lemma clean_removes_child (root : path) (m : filesystem) (n : string) :
  stat m root = Some Directory -> valid_name n = true ->
  replay (clean_calls root m) m !! (root ++ [n]) = None.
Proof.
  intros Hd Hn. rewrite clean_calls_children by done. simpl.
  rewrite <- (map_map (filepath_Join root) RemoveAllCall), replay_removals.
  case_decide as He; [done|].
  destruct (m !! (root ++ [n])) as [e|] eqn:Em; [|done].
  exfalso. apply He. apply Exists_exists. exists (root ++ [n]). split; [|done].
  apply list_elem_of_fmap. exists n. split.
  - unfold filepath_Join. by rewrite walk_name.
  - apply elem_of_children. eauto.
Qed.

(** ** C6: the clean step *)

Lemma cleaning_no_creation (cfg : Config) (root : path) (m : filesystem) :
  Forall (fun c => is_creation c = false) (cleaning cfg root m).
Proof.
  unfold cleaning, clean_calls. destruct (Clean cfg); [|constructor].
  constructor; [done|]. apply Forall_forall.
  intros c (e & -> & _)%list_elem_of_fmap. done.
Qed.



(** ** What persists through the calls of a run *)

Lemma dir_stays (k : path) (c : call) (m : filesystem) :
  is_removal c = false -> m !! k = Some Directory ->
  apply_call c m !! k = Some Directory.
Proof.
  destruct c; simpl; intros Hc H; try done.
  - by apply fs_mkdir_all_keeps.
  - destruct (fs_write_cases "open" p data m) as [[err ->]|(-> & _ & _ & Hn)];
      simpl; [done|].
    rewrite lookup_insert_ne; [done|]. congruence.
  - destruct (fs_write_cases "open" p "" m) as [[err ->]|(-> & _ & _ & Hn)];
      simpl; [done|].
    rewrite lookup_insert_ne; [done|]. congruence.
  - unfold fs_write_handle. destruct (m !! p) as [[z|]|] eqn:E; try done.
    rewrite lookup_insert_ne; [done|]. congruence.
Qed.

Lemma dir_stays_replay (k : path) (cs : list call) (m : filesystem) :
  Forall (fun c => is_removal c = false) cs -> m !! k = Some Directory ->
  replay cs m !! k = Some Directory.
Proof.
  intros H. revert m. induction H as [|c cs Hc Hcs IH]; intros m Hm; simpl; [done|].
  apply IH. by apply dir_stays.
Qed.

Lemma keeps_empty_apply (k : path) (c : call) (m : filesystem) :
  keeps_empty k c -> m !! k = Some (RegFile "") ->
  apply_call c m !! k = Some (RegFile "").
Proof.
  destruct c; simpl; intros Hk H; try done.
  - by apply fs_mkdir_all_keeps.
  - rewrite fs_remove_all_lookup. by rewrite decide_False.
  - destruct (decide (p = k)) as [->|Hne]; [|by rewrite fs_write_other].
    destruct Hk as [?| ->]; [done|].
    destruct (fs_write_cases "open" k "" m) as [[err ->]|(-> & _)]; simpl; [done|].
    by rewrite lookup_insert_eq.
  - destruct (decide (p = k)) as [->|Hne]; [|by rewrite fs_write_other].
    destruct (fs_write_cases "open" k "" m) as [[err ->]|(-> & _)]; simpl; [done|].
    by rewrite lookup_insert_eq.
  - by rewrite fs_write_handle_other.
Qed.

Lemma keeps_empty_replay (k : path) (cs : list call) (m : filesystem) :
  Forall (keeps_empty k) cs -> m !! k = Some (RegFile "") ->
  replay cs m !! k = Some (RegFile "").
Proof.
  intros H. revert m. induction H as [|c cs Hc Hcs IH]; intros m Hm; simpl; [done|].
  apply IH. by apply keeps_empty_apply.
Qed.

Lemma unwritten_apply (k : path) (c : call) (m : filesystem) (x : string) :
  unwritten k c -> apply_call c m !! k = Some (RegFile x) ->
  m !! k = Some (RegFile x).
Proof.
  destruct c; simpl; intros Hk H; try done.
  - apply fs_mkdir_all_lookup in H as [H|(_ & H & _)]; done.
  - rewrite fs_remove_all_lookup in H. by case_decide.
  - by rewrite fs_write_other in H.
  - by rewrite fs_write_other in H.
  - by rewrite fs_write_handle_other in H.
Qed.

Lemma unwritten_replay (k : path) (cs : list call) (m : filesystem) (x : string) :
  Forall (unwritten k) cs -> replay cs m !! k = Some (RegFile x) ->
  m !! k = Some (RegFile x).
Proof.
  intros H. revert m. induction H as [|c cs Hc Hcs IH]; intros m Hm; simpl in *; [done|].
  eapply unwritten_apply; [done|]. by apply IH.
Qed.

Lemma templates_last :
  Forall (fun ot : string * string =>
            last (rel ot.1) <> Some ".gitkeep" /\ last (rel ot.1) <> None) templates.
Proof. repeat constructor; done. Qed.

Lemma last_under (root l : path) : l <> [] -> last (root ++ l) = last l.
Proof. intros H. rewrite last_app. destruct (last l) eqn:E; [done|].
  by apply last_None in E. Qed.

Lemma tail_call_unwritten (root k : path) (c : call) :
  last k = Some ".gitkeep" -> tail_call false root c -> unwritten k c.
Proof.
  intros Hk.
  assert (forall p, p ∈ map (fun ot : string * string => root ++ rel ot.1) templates ->
            p <> k) as Hout.
  { intros p (ot & -> & Hot)%list_elem_of_fmap <-.
    destruct (proj1 (Forall_forall _ _) templates_last ot Hot) as [H1 H2].
    rewrite last_under in Hk; [done|]. intros E. by rewrite E in H2. }
  destruct c; unfold tail_call, unwritten; try done; auto.
  intros [->|[->|(? & _)]]; [| |done]; intros <-; by rewrite last_snoc in Hk.
Qed.

Lemma cleaning_unwritten (cfg : Config) (root : path) (m : filesystem) (k : path) :
  Forall (unwritten k) (cleaning cfg root m).
Proof.
  eapply Forall_impl; [apply (cleaning_no_creation cfg root m)|].
  intros c. by destruct c.
Qed.

Lemma flat_map_split {A B} (f : A -> list B) (l : list A) (x : A) :
  x ∈ l -> exists pre post, flat_map f l = pre ++ f x ++ post.
Proof.
  intros (l1 & l2 & ->)%list_elem_of_split. rewrite flat_map_app. simpl. eauto.
Qed.

Lemma dir_calls_split (g : bool) (root : path) (d : string) :
  d ∈ dirs ->
  exists pre post,
    dir_calls g root =
      pre ++ (MkdirAllCall (root ++ rel d)
              :: (if g then [WriteFileCall (root ++ rel d ++ [".gitkeep"]) ""] else []))
          ++ post.
Proof.
  intros Hd. unfold dir_calls.
  rewrite <- (Join_marker root d Hd), <- (Join_dir root d Hd).
  exact (flat_map_split
           (fun dir =>
              MkdirAllCall (filepath_Join root dir)
              :: (if g
                  then [WriteFileCall (filepath_Join (filepath_Join root dir) ".gitkeep") ""]
                  else []))
           dirs d Hd).
Qed.

(** ** The manifest directories and their markers at the end of a run *)

Lemma fs_write_failure (op : string) (p : path) (data : string) (m : filesystem) (err : error) :
  (fs_write op p data m).2 = Some err ->
  p = [] \/ stat m (removelast p) <> Some Directory \/ m !! p = Some Directory.
Proof.
  unfold fs_write. destruct p as [|c p]; [by left|]. right.
  destruct (stat m (removelast (c :: p))) as [[x|]|] eqn:E; [by left| |by left].
  destruct (m !! (c :: p)) as [[x|]|] eqn:E'; simpl; try done. by right.
Qed.

Lemma dirs_rel_nonempty : Forall (fun d => rel d <> []) dirs.
Proof. repeat constructor; done. Qed.

Lemma tail_call_keeps_empty (root : path) (d : string) (c : call) :
  tail_call true root c -> keeps_empty (root ++ rel d ++ [".gitkeep"]) c.
Proof.
  assert (last (root ++ rel d ++ [".gitkeep"]) = Some ".gitkeep") as Hk
    by (by rewrite app_assoc, last_snoc).
  intros Hc. destruct c; unfold keeps_empty; try done.
  - destruct Hc as [->|[->|(_ & -> & _)]]; [left|left|by right];
      intros E; rewrite <- E, last_snoc in Hk; done.
  - by apply (tail_call_unwritten root _ (ExecuteCall p out) Hk).
Qed.

Lemma dir_path_nonempty (root : path) (d : string) :
  d ∈ dirs -> root ++ rel d <> [].
Proof.
  intros Hd [_ H]%app_eq_nil.
  by apply (proj1 (Forall_forall _ _) dirs_rel_nonempty d Hd).
Qed.

Lemma stat_lookup (m : filesystem) (p : path) : p <> [] -> stat m p = m !! p.
Proof. by destruct p. Qed.

Lemma replay_middle (pre after : list call) (c : call) (m : filesystem) :
  replay (pre ++ c :: after) m = replay after (apply_call c (replay pre m)).
Proof. by rewrite replay_app. Qed.

Section Final.

Variables (g : bool) (root : path) (rest : list call) (m : filesystem).
Hypothesis Hrest : Forall (tail_call g root) rest.

Let final : filesystem := replay (dir_calls g root ++ rest) m.

Lemma dirs_final (d : string) :
  d ∈ dirs ->
  final !! (root ++ rel d) = Some Directory \/ blocked final (root ++ rel d).
Proof.
  intros Hd. destruct (dir_calls_split g root d Hd) as (pre & post & E).
  pose proof (dir_calls_tail g root) as Hdirs. rewrite E in Hdirs.
  apply Forall_app in Hdirs as [_ Hdirs]. apply Forall_app in Hdirs as [Hmid Hpost].
  apply Forall_cons in Hmid as [_ Hmid].
  assert (Forall (fun c => is_removal c = false)
            ((if g then [WriteFileCall (root ++ rel d ++ [".gitkeep"]) ""] else [])
             ++ post ++ rest)) as Hafter.
  { eapply Forall_impl; [|apply (tail_call_no_removal g root)].
    by repeat apply Forall_app_2. }
  subst final. rewrite E. rewrite <- !app_assoc. simpl app. rewrite replay_middle.
  set (m_a := replay pre m). cbn [apply_call].
  destruct ((fs_mkdir_all (root ++ rel d) m_a).2) as [err|] eqn:Em.
  - right. apply fs_mkdir_all_fail in Em as (-> & q & x & Hq & Hx).
    destruct (file_stays_replay q _ m_a x Hafter Hx) as [y Hy]. by exists q, y.
  - left. apply dir_stays_replay; [done|]. apply fs_mkdir_all_ok; [done|].
    apply elem_of_prefixes. split; [|done]. by apply dir_path_nonempty.
Qed.

Lemma markers_final (d : string) :
  g = true -> d ∈ dirs ->
  final !! (root ++ rel d ++ [".gitkeep"]) = Some (RegFile "")
  \/ final !! (root ++ rel d ++ [".gitkeep"]) = Some Directory
  \/ blocked final (root ++ rel d).
Proof.
  intros -> Hd. destruct (dir_calls_split true root d Hd) as (pre & post & E).
  pose proof (dir_calls_tail true root) as Hdirs. rewrite E in Hdirs.
  apply Forall_app in Hdirs as [_ Hdirs]. apply Forall_app in Hdirs as [_ Hpost].
  assert (Forall (tail_call true root) (post ++ rest)) as Hafter
    by (by apply Forall_app_2).
  assert (Forall (fun c => is_removal c = false) (post ++ rest)) as Hnr.
  { eapply Forall_impl; [exact Hafter|]. apply tail_call_no_removal. }
  subst final. rewrite E. rewrite <- !app_assoc. simpl app. rewrite replay_middle.
  set (m_a := replay pre m). cbn [apply_call].
  change (replay (WriteFileCall (root ++ rel d ++ [".gitkeep"]) "" :: post ++ rest)
            (fs_mkdir_all (root ++ rel d) m_a).1)
    with (replay (post ++ rest)
            (fs_write "open" (root ++ rel d ++ [".gitkeep"]) ""
               (fs_mkdir_all (root ++ rel d) m_a).1).1).
  set (k := root ++ rel d ++ [".gitkeep"]).
  set (m_b := (fs_mkdir_all (root ++ rel d) m_a).1).
  assert (removelast k = root ++ rel d) as Hparent.
  { unfold k. by rewrite app_assoc, removelast_snoc. }
  pose proof (dir_path_nonempty root d Hd) as Hne.
  destruct (fs_write_cases "open" k "" m_b) as [[err Hw]|(Hw & _)].
  - rewrite Hw. cbn [fst].
    pose proof (fs_write_failure "open" k "" m_b err) as Hf.
    rewrite Hw in Hf. destruct (Hf eq_refl) as [Hk|[Hk|Hk]].
    + unfold k in Hk. rewrite app_assoc in Hk. by apply app_eq_nil in Hk as [_ ?].
    + right. right. rewrite Hparent in Hk.
      destruct ((fs_mkdir_all (root ++ rel d) m_a).2) as [e|] eqn:Em.
      * apply fs_mkdir_all_fail in Em as (Em & q & x & Hq & Hx).
        assert (m_b !! q = Some (RegFile x)) as Hb by (unfold m_b; by rewrite Em).
        destruct (file_stays_replay q _ m_b x Hnr Hb) as [y Hy]. by exists q, y.
      * exfalso. apply Hk. rewrite stat_lookup by done.
        apply fs_mkdir_all_ok; [done|]. by apply elem_of_prefixes.
    + right. left. by apply dir_stays_replay.
  - rewrite Hw. cbn [fst]. left. apply keeps_empty_replay.
    + eapply Forall_impl; [exact Hafter|]. intros c. apply tail_call_keeps_empty.
    + by rewrite lookup_insert_eq.
Qed.

End Final.

(** ** C5: the manifest directories and their markers *)

Lemma flat_map_ext_Forall {A B} (f h : A -> list B) (l : list A) :
  Forall (fun x => f x = h x) l -> flat_map f l = flat_map h l.
Proof. induction 1 as [|x l Hx Hl IH]; simpl; congruence. Qed.

Lemma dir_calls_eq (g : bool) (root : path) :
  dir_calls g root =
    flat_map (fun d =>
      MkdirAllCall (root ++ rel d)
      :: (if g then [WriteFileCall (root ++ rel d ++ [".gitkeep"]) ""] else []))
      dirs.
Proof.
  unfold dir_calls. apply flat_map_ext_Forall, Forall_forall. intros d Hd.
  by rewrite (Join_marker root d Hd), (Join_dir root d Hd).
Qed.



(** ** The rendered files of a successful run *)

Lemma writeTemplate_ok tfs E (root : path) (o t : string) (cfg : Config) (w : world) :
  (writeTemplate tfs E root o t cfg w).1 = None ->
  exists written,
    fs (writeTemplate tfs E root o t cfg w).2 !! filepath_Join root o
      = Some (RegFile written).
Proof.
  rewrite writeTemplate_eq. cbv zeta.
  destruct (tfs _) as [text|]; [|done].
  destruct (Parse E t text) as [tmpl|err]; [|done].
  destruct ((os_Create _ _).1) as [err|] eqn:Ec; [done|].
  cbn [fst snd]. intros _. eexists.
  rewrite !perform_all_cons, perform_all_nil. cbn [perform fs apply_call].
  eapply write_handle_created.
  unfold os_Create in Ec. cbn [fst] in Ec. apply fs_write_ok in Ec as (Ec & _).
  etrans; [exact (f_equal (fun m : filesystem => m !! filepath_Join root o) Ec)|].
  apply lookup_insert_eq.
Qed.

Lemma render_ok tfs E (root : path) (cfg : Config) (l : list (string * string))
    (w : world) (o t : string) :
  l ⊆ templates ->
  (render tfs E root cfg l w).1 = None -> (o, t) ∈ l ->
  exists c, fs (render tfs E root cfg l w).2 !! (root ++ rel o) = Some (RegFile c).
Proof.
  revert w. induction l as [|[o' t'] l IH]; intros w Hl Hr Hin; [by apply elem_of_nil in Hin|].
  simpl in *. unfold check, bind in *.
  destruct (writeTemplate tfs E root o' t' cfg w) as [[err|] w1] eqn:Ew; [done|].
  assert (l ⊆ templates) as Hl' by set_solver.
  destruct (decide ((o, t) ∈ l)) as [Hin'|Hnin]; [by apply IH|].
  assert ((o', t') = (o, t)) as [= -> ->] by set_solver.
  pose proof (writeTemplate_ok tfs E root o t cfg w) as Hw. rewrite Ew in Hw.
  destruct (Hw eq_refl) as [written Hwr]. cbn [snd] in Hwr.
  rewrite (Join_output root o t) in Hwr by set_solver.
  destruct (within_calls _ _ w1 (within_render tfs E root cfg l Hl')) as (cs & Hcs & ->).
  cbn [perform_all fs]. eapply file_stays_replay; [|exact Hwr].
  eapply Forall_impl; [exact Hcs|]. apply render_call_no_removal.
Qed.

Lemma apply_call_closed (c : call) (m : filesystem) :
  closed m -> closed (apply_call c m).
Proof.
  intros Hc. destruct c; simpl; try done.
  - by apply fs_mkdir_all_closed.
  - by apply fs_remove_all_closed.
  - by apply fs_write_closed.
  - by apply fs_write_closed.
  - by apply fs_write_handle_closed.
Qed.

Lemma replay_closed (cs : list call) (m : filesystem) :
  closed m -> closed (replay cs m).
Proof.
  revert m. induction cs as [|c cs IH]; intros m Hm; simpl; [done|].
  apply IH. by apply apply_call_closed.
Qed.

(** In a closed file system everything on the way to an entry is a
    directory. *)
Lemma closed_prefixes (m : filesystem) (p : path) :
  closed m -> is_Some (m !! p) ->
  forall q, q ∈ prefixes p -> q <> p -> m !! q = Some Directory.
Proof.
  intros Hc. induction p as [|c p IH] using rev_ind; intros Hp q Hq Hne.
  - by apply elem_of_nil in Hq.
  - rewrite prefixes_snoc in Hq. apply elem_of_app in Hq as [Hq|Hq]; [|set_solver].
    pose proof (Hc p c Hp) as Hd.
    assert (p <> []) as Hpne by (intros ->; by apply elem_of_nil in Hq).
    rewrite stat_lookup in Hd by done.
    destruct (decide (q = p)) as [->|Hqp]; [done|].
    apply IH; [by rewrite Hd|done|done].
Qed.

Lemma no_mkdir_apply (k : path) (c : call) (m : filesystem) :
  no_mkdir k c -> apply_call c m !! k = Some Directory -> m !! k = Some Directory.
Proof.
  destruct c; simpl; intros Hk H; try done.
  - apply fs_mkdir_all_lookup in H as [H|(_ & _ & H)]; done.
  - rewrite fs_remove_all_lookup in H. by case_decide.
  - destruct (fs_write_cases "open" p data m) as [[err Hw]|(Hw & _)];
      rewrite Hw in H; simpl in H; [done|].
    destruct (decide (k = p)) as [->|Hne].
    + by rewrite lookup_insert_eq in H.
    + by rewrite lookup_insert_ne in H.
  - destruct (fs_write_cases "open" p "" m) as [[err Hw]|(Hw & _)];
      rewrite Hw in H; simpl in H; [done|].
    destruct (decide (k = p)) as [->|Hne].
    + by rewrite lookup_insert_eq in H.
    + by rewrite lookup_insert_ne in H.
  - unfold fs_write_handle in H. destruct (m !! p) as [[z|]|] eqn:E; try done.
    destruct (decide (k = p)) as [->|Hne].
    + by rewrite lookup_insert_eq in H.
    + by rewrite lookup_insert_ne in H.
Qed.

Lemma no_mkdir_replay (k : path) (cs : list call) (m : filesystem) :
  Forall (no_mkdir k) cs -> replay cs m !! k = Some Directory ->
  m !! k = Some Directory.
Proof.
  intros H. revert m. induction H as [|c cs Hc Hcs IH]; intros m Hm; simpl in *; [done|].
  eapply no_mkdir_apply; [done|]. by apply IH.
Qed.

(** No path of the manifest has a [.gitkeep] component. *)
Lemma manifest_no_marker :
  Forall (fun d => Forall (fun d' => ¬ (rel d ++ [".gitkeep"]) `prefix_of` rel d') dirs
                   /\ Forall (fun ot : string * string =>
                                ¬ (rel d ++ [".gitkeep"]) `prefix_of` removelast (rel ot.1))
                        templates) dirs.
Proof. apply (bool_decide_unpack _). vm_compute. exact I. Qed.

Lemma tail_call_no_mkdir (g : bool) (root : path) (d : string) (c : call) :
  d ∈ dirs -> tail_call g root c -> no_mkdir (root ++ rel d ++ [".gitkeep"]) c.
Proof.
  intros Hd. destruct (proj1 (Forall_forall _ _) manifest_no_marker d Hd) as [H1 H2].
  destruct c; unfold tail_call, no_mkdir; try done.
  intros [H|H]; apply list_elem_of_fmap in H as (x & -> & Hx);
    intros [_ Hp%prefix_app_inv]%elem_of_prefixes.
  - by apply (proj1 (Forall_forall _ _) H1 x).
  - by apply (proj1 (Forall_forall _ _) H2 x).
Qed.

Lemma first_calls_no_mkdir (cfg : Config) (root : path) (m : filesystem) (l : path) :
  l <> [] -> Forall (no_mkdir (root ++ l)) (MkdirAllCall root :: cleaning cfg root m).
Proof.
  intros Hl. constructor.
  - simpl. intros [_ Hp]%elem_of_prefixes. apply prefix_length in Hp.
    rewrite length_app in Hp. destruct l; [done|]. simpl in Hp. lia.
  - eapply Forall_impl; [apply (cleaning_no_creation cfg root m)|].
    intros c. by destruct c.
Qed.

(** The directories of the rendered files are manifest directories. *)
Lemma template_dirs :
  Forall (fun ot : string * string =>
            exists d, d ∈ dirs /\ removelast (rel ot.1) = rel d
                      /\ exists f, rel ot.1 = rel d ++ [f]) templates.
Proof.
  repeat constructor.
  - exists "cmd". split; [set_solver|]. split; [done|]. by exists "main.go".
  - exists "services/serviceName/routes". split; [set_solver|]. split; [done|].
    by exists "router.go".
  - exists "config/init". split; [set_solver|]. split; [done|].
    by exists "serverConfig.go".
  - exists "commons/utils". split; [set_solver|]. split; [done|].
    by exists "logger.go".
Qed.

(** ** C10: markers beside the rendered files *)

(** Closedness of a given file system can be checked entry by entry. *)
Lemma closed_check (m : filesystem) :
  map_Forall (fun k _ => k = [] \/ stat m (removelast k) = Some Directory) m ->
  closed m.
Proof.
  intros H p c [e He]. destruct (H _ _ He) as [Hk|Hk].
  - by apply app_eq_nil in Hk as [_ ?].
  - by rewrite removelast_snoc in Hk.
Qed.

Lemma squatted_closed : closed (fs Sample.squatted).
Proof. apply closed_check. apply (bool_decide_unpack _). vm_compute. exact I. Qed.




(** ** C8: the answers of the interactive mode *)

Lemma read_line_answer (a rest : string) :
  no_newline a = true -> read_line (a +:+ LF +:+ rest) = (a +:+ LF, rest).
Proof.
  induction a as [|c a IH]; simpl; [done|].
  intros [Hc Ha]%andb_prop. apply negb_true_iff in Hc. rewrite Hc.
  by rewrite (IH Ha).
Qed.

Lemma trim_right_LF (s : string) : trim_right (s +:+ LF) = trim_right s.
Proof. induction s as [|c s IH]; simpl; [done|]. by rewrite IH. Qed.

Lemma TrimSpace_LF (a : string) :
  strings_TrimSpace (a +:+ LF) = strings_TrimSpace a.
Proof.
  unfold strings_TrimSpace. induction a as [|c a IH]; [done|].
  simpl. destruct (is_space c); [done|].
  change (String c (a +:+ LF)) with (String c a +:+ LF). apply trim_right_LF.
Qed.

Lemma resolve_config_interactive (flags : Flags) (p : process)
    (a1 a2 a3 a4 a5 more : string) :
  flag_i flags = true ->
  no_newline a1 && no_newline a2 && no_newline a3 && no_newline a4
    && no_newline a5 = true ->
  stdin p = answers a1 a2 a3 a4 a5 more ->
  (resolve_config flags p).1 =
    {| Root := typed (flag_r flags) a1;
       ModuleName := with_default (typed (flag_m flags) a2);
       Port := typed (flag_p flags) a3;
       Gitkeep := flag_g flags || yes a4;
       Clean := flag_c flags || yes a5 |}.
Proof.
  intros Hi Hn Hs.
  apply andb_prop in Hn as [Hn H5]. apply andb_prop in Hn as [Hn H4].
  apply andb_prop in Hn as [Hn H3]. apply andb_prop in Hn as [H1 H2].
  unfold resolve_config, bind, ret, fmt_Print, reader_ReadString. rewrite Hi.
  cbn [stdin stdout stderr os fst snd]. rewrite Hs. unfold answers.
  rewrite (read_line_answer a1) by done. cbn [stdin stdout stderr os fst snd].
  rewrite (read_line_answer a2) by done. cbn [stdin stdout stderr os fst snd].
  rewrite (read_line_answer a3) by done. cbn [stdin stdout stderr os fst snd].
  rewrite (read_line_answer a4) by done. cbn [stdin stdout stderr os fst snd].
  rewrite (read_line_answer a5) by done. cbn [stdin stdout stderr os fst snd].
  rewrite !TrimSpace_LF. unfold typed, with_default, yes.
  destruct (String.eqb (strings_TrimSpace a1) "");
    destruct (String.eqb (strings_TrimSpace a2) "") eqn:E2;
    destruct (String.eqb (strings_TrimSpace a3) "");
    destruct (String.eqb (strings_ToLower (strings_TrimSpace a4)) "y");
    destruct (String.eqb (strings_ToLower (strings_TrimSpace a5)) "y");
    cbn [negb Root ModuleName Port Gitkeep Clean];
    rewrite ?E2; destruct (String.eqb (flag_m flags) ""); cbn;
    rewrite ?orb_true_r, ?orb_false_r; reflexivity.
Qed.




(** ** C7: placeholders outside the substitution context *)

(** The template [port {{.PORT}} name {{.NAME}}] parses and renders
    without error, and [<no value>] stands where the placeholder was;
    [writeTemplate] on it succeeds and leaves that text in the output
    file. *)
Lemma C7_counterexample :
  let text := "port {{.PORT}} name {{.NAME}}" in
  let run := writeTemplate Sample.store GoTemplate.engine Sample.root
               "cmd/main.go" "unknown.tmpl" Sample.cfg Sample.used in
  (Sample.store "templates/unknown.tmpl" = Some text
   /\ context_of Sample.cfg !! "NAME" = None
   /\ GoTemplate.parse "unknown.tmpl" text
        = inl [GoTemplate.TextNode "port "; GoTemplate.FieldNode ["PORT"];
               GoTemplate.TextNode " name "; GoTemplate.FieldNode ["NAME"]]
   /\ GoTemplate.execute
        [GoTemplate.TextNode "port "; GoTemplate.FieldNode ["PORT"];
         GoTemplate.TextNode " name "; GoTemplate.FieldNode ["NAME"]]
        (context_of Sample.cfg)
      = ("port 9090 name <no value>", None)
   /\ run.1 = None
   /\ fs run.2 !! ["home"; "dev"; "widget"; "cmd"; "main.go"]
        = Some (RegFile "port 9090 name <no value>"))
  /\ ¬ claimed_unknown_placeholder_policy.
Proof.
  intros text run. split; [by vm_compute|]. intros H.
  pose proof (H Sample.cfg "NAME" "unknown.tmpl" text eq_refl eq_refl eq_refl) as Hc.
  vm_compute in Hc. discriminate Hc.
Qed.

Module GoTemplateFacts.
Import GoTemplate.

Lemma ident_char_facts (c : ascii) :
  is_ident_char c = true ->
  Ascii.eqb c "}" = false /\ Ascii.eqb c "." = false /\ is_space c = false
  /\ Ascii.eqb c "011" = false /\ Ascii.eqb c "012" = false.
Proof.
  destruct c as [[] [] [] [] [] [] [] []]; vm_compute; intros H;
    try discriminate H; done.
Qed.

Lemma all_ident_facts (s : string) :
  all_ident s = true ->
  no_char "}" s = true /\ no_char "." s = true /\ no_space s = true
  /\ no_char "011" s = true /\ no_char "012" s = true.
Proof.
  induction s as [|c s IH]; simpl; [done|].
  intros [Hc Hs]%andb_prop. destruct (IH Hs) as (H1 & H2 & H3 & H4 & H5).
  destruct (ident_char_facts c Hc) as (E1 & E2 & E3 & E4 & E5).
  by rewrite E1, E2, E3, E4, E5, H1, H2, H3, H4, H5.
Qed.

Lemma is_name_ident (s : string) : is_name s = true -> all_ident s = true.
Proof. destruct s as [|c s]; [done|]. simpl. by intros [_ H]%andb_prop. Qed.

Lemma scan_action (s : string) :
  no_char "}" s = true -> scan true (s +:+ "}}") = Some (s, [ItemText ""]).
Proof.
  induction s as [|c s IH]; [done|].
  intros [Hc Hs]%andb_prop. apply negb_true_iff in Hc.
  change (String c s +:+ "}}") with (String c (s +:+ "}}")).
  cbn [scan]. rewrite (IH Hs), Hc. cbn [andb negb].
  by destruct (s +:+ "}}").
Qed.

Lemma trim_right_no_space (s : string) : no_space s = true -> trim_right s = s.
Proof.
  induction s as [|c s IH]; simpl; [done|].
  intros [Hc Hs]%andb_prop. apply negb_true_iff in Hc. rewrite (IH Hs), Hc.
  by destruct s.
Qed.

Lemma split_dot_no_dot (s : string) : no_char "." s = true -> split_dot s = [s].
Proof.
  induction s as [|c s IH]; simpl; [done|].
  intros [Hc Hs]%andb_prop. apply negb_true_iff in Hc. by rewrite Hc, (IH Hs).
Qed.

Lemma parse_action_field (name : string) :
  is_name name = true ->
  parse_action (String "." name) = Some (FieldNode [name]).
Proof.
  intros Hn. pose proof (is_name_ident name Hn) as Hid.
  destruct (all_ident_facts name Hid) as (_ & Hdot & Hsp & Hvt & Hff).
  unfold parse_action. cbn [no_char]. rewrite Hvt, Hff.
  change (negb (Ascii.eqb "." "011") && true && (negb (Ascii.eqb "." "012") && true))
    with true. cbv iota.
  unfold strings_TrimSpace. cbn [trim_left].
  change (is_space ".") with false. cbv iota.
  rewrite trim_right_no_space by (simpl; by rewrite Hsp).
  cbn [split_dot]. change (Ascii.eqb "." ".") with true. cbv iota.
  rewrite split_dot_no_dot by done. cbn [forallb]. by rewrite Hn.
Qed.

Lemma parse_field_source (tname name : string) :
  is_name name = true ->
  parse tname (field_source name) = inl [FieldNode [name]].
Proof.
  intros Hn. pose proof (is_name_ident name Hn) as Hid.
  destruct (all_ident_facts name Hid) as (Hbr & _).
  unfold parse, lex, field_source.
  change ("{{." +:+ name +:+ "}}") with (String "{" (String "{" (String "." name +:+ "}}"))).
  cbn [scan]. change (negb false && Ascii.eqb "{" "{" && Ascii.eqb "{" "{") with true.
  cbv iota. rewrite scan_action by (simpl; by rewrite Hbr).
  cbn [parse_items]. by rewrite parse_action_field.
Qed.

Lemma append_assoc (a b c : string) : a +:+ b +:+ c = (a +:+ b) +:+ c.
Proof.
  induction a as [|x a IH]; [done|].
  change (String x (a +:+ b +:+ c) = String x ((a +:+ b) +:+ c)). by rewrite IH.
Qed.

Lemma execute_app (t1 t2 : list node) (data : gmap string string) :
  execute (t1 ++ t2) data =
    match execute t1 data with
    | (o1, Some e) => (o1, Some e)
    | (o1, None) => let '(o2, r) := execute t2 data in (o1 +:+ o2, r)
    end.
Proof.
  induction t1 as [|n t1 IH]; simpl.
  - by destruct (execute t2 data).
  - destruct n as [s|ident].
    + rewrite IH. destruct (execute t1 data) as [o1 [e|]]; [done|].
      destruct (execute t2 data) as [o2 r]. f_equal. apply append_assoc.
    + destruct (eval_field ident data) as [v|e]; [|done].
      rewrite IH. destruct (execute t1 data) as [o1 [e|]]; [done|].
      destruct (execute t2 data) as [o2 r]. f_equal. apply append_assoc.
Qed.

End GoTemplateFacts.

Lemma context_of_lookup (cfg : Config) (name : string) :
  context_of cfg !! name =
    if String.eqb name "MODULE" then Some (ModuleName cfg)
    else if String.eqb name "PORT" then Some (Port cfg)
    else None.
Proof.
  unfold context_of.
  destruct (String.eqb_spec name "MODULE") as [->|H1]; [by rewrite lookup_insert_eq|].
  rewrite lookup_insert_ne by done.
  destruct (String.eqb_spec name "PORT") as [->|H2]; [by rewrite lookup_insert_eq|].
  by rewrite lookup_insert_ne.
Qed.

(** C7 (amended). The substitution context has exactly the keys [MODULE]
    and [PORT]. A placeholder [{{.NAME}}] with any other name parses as a
    field action; executed, it neither stays in the output as it stands nor
    is an error: it is rendered as the text [<no value>], and execution goes
    on with what follows it. *)
Theorem C7_unknown_placeholder_no_value (cfg : Config) (name : string) :
  GoTemplate.is_name name = true ->
  name <> "MODULE" -> name <> "PORT" ->
  context_of cfg !! name = None
  /\ (forall tname,
        GoTemplate.parse tname (GoTemplate.field_source name)
          = inl [GoTemplate.FieldNode [name]])
  /\ GoTemplate.execute [GoTemplate.FieldNode [name]] (context_of cfg)
       = ("<no value>", None)
  /\ (forall t1 t2,
        GoTemplate.execute (t1 ++ GoTemplate.FieldNode [name] :: t2) (context_of cfg) =
          match GoTemplate.execute t1 (context_of cfg) with
          | (o1, Some e) => (o1, Some e)
          | (o1, None) =>
              let '(o2, r) := GoTemplate.execute t2 (context_of cfg) in
              (o1 +:+ "<no value>" +:+ o2, r)
          end).
Proof.
  intros Hn H1 H2.
  assert (context_of cfg !! name = None) as Hl.
  { rewrite context_of_lookup.
    destruct (String.eqb_spec name "MODULE"); [done|].
    by destruct (String.eqb_spec name "PORT"). }
  split; [done|]. split; [intros; by apply GoTemplateFacts.parse_field_source|].
  split.
  - simpl. by rewrite Hl.
  - intros t1 t2. rewrite GoTemplateFacts.execute_app.
    destruct (GoTemplate.execute t1 (context_of cfg)) as [o1 [e|]]; [done|].
    simpl. rewrite Hl. by destruct (GoTemplate.execute t2 (context_of cfg)).
Qed.

Lemma C7_witness :
  GoTemplate.execute
    ([GoTemplate.TextNode "name "] ++ GoTemplate.FieldNode ["NAME"] :: [])
    (context_of Sample.cfg)
  = match GoTemplate.execute [GoTemplate.TextNode "name "] (context_of Sample.cfg) with
    | (o1, Some e) => (o1, Some e)
    | (o1, None) =>
        let '(o2, r) := GoTemplate.execute [] (context_of Sample.cfg) in
        (o1 +:+ "<no value>" +:+ o2, r)
    end.
Proof.
  apply (C7_unknown_placeholder_no_value Sample.cfg "NAME"); [reflexivity|done|done].
Defined.

(** ** C2: running twice *)

Lemma prune_lookup (root : path) (m : filesystem) (k : path) :
  prune root m !! k = if decide (strictly_under root k) then None else m !! k.
Proof.
  unfold prune. rewrite map_lookup_filter.
  destruct (m !! k); simpl; case_decide; try done.
  - rewrite option_guard_False; [done|]. simpl. tauto.
  - by rewrite option_guard_True.
Qed.

Lemma prune_idempotent (root : path) (m : filesystem) :
  prune root (prune root m) = prune root m.
Proof. apply map_eq. intros k. rewrite !prune_lookup. by case_decide. Qed.

Lemma strictly_under_inv (root k : path) :
  strictly_under root k -> exists n rest, k = root ++ n :: rest.
Proof.
  intros [[l ->] Hne]. destruct l as [|n rest]; [by rewrite app_nil_r in Hne|]. eauto.
Qed.

Lemma child_strictly_under (root k : path) (n : string) :
  (root ++ [n]) `prefix_of` k -> strictly_under root k.
Proof.
  intros [l ->]. split.
  - rewrite <- app_assoc. by apply prefix_app_r.
  - intros E. apply (f_equal length) in E. rewrite !length_app in E. simpl in E. lia.
Qed.

(** On a well-formed file system whose [root] is a directory, the clean
    step leaves exactly what does not lie below [root]. *)
Lemma clean_prunes (root : path) (m : filesystem) :
  wf m -> stat m root = Some Directory ->
  replay (clean_calls root m) m = prune root m.
Proof.
  intros [Hc Hn] Hd. rewrite clean_calls_children by done. simpl.
  rewrite <- (map_map (filepath_Join root) RemoveAllCall).
  assert (forall n, n ∈ children root m -> filepath_Join root n = root ++ [n]) as Hj.
  { intros n Hin%elem_of_children. apply Hn in Hin.
    apply Forall_app in Hin as [_ Hin]. apply Forall_cons in Hin as [Hin _].
    by apply walk_name. }
  apply map_eq. intros k. rewrite replay_removals, prune_lookup.
  destruct (m !! k) as [e|] eqn:Ek; [|by repeat case_decide].
  destruct (decide (Exists _ _)) as [He|He]; destruct (decide (strictly_under root k))
    as [Hs|Hs]; try done.
  - exfalso. apply Hs. apply Exists_exists in He as (p & Hp & Hpk).
    apply list_elem_of_fmap in Hp as (n & -> & Hin).
    rewrite (Hj n Hin) in Hpk. by apply (child_strictly_under root k n).
  - exfalso. apply He. destruct (strictly_under_inv root k Hs) as (n & rest & ->).
    assert (is_Some (m !! (root ++ [n]))) as Hchild.
    { destruct (decide (root ++ [n] = root ++ n :: rest)) as [->|Hne]; [eauto|].
      exists Directory. apply (closed_prefixes m (root ++ n :: rest)); eauto.
      apply elem_of_prefixes. split; [by intros [_ ?]%app_eq_nil|].
      apply prefix_app. by apply prefix_cons, prefix_nil. }
    apply elem_of_children in Hchild. apply Exists_exists.
    exists (root ++ [n]). split.
    + apply list_elem_of_fmap. exists n. by rewrite (Hj n Hchild).
    + apply prefix_app. by apply prefix_cons, prefix_nil.
Qed.

(** The calls after the clean step change nothing outside what lies
    below the root, once the root and what leads to it are directories. *)
Lemma tail_frame (g : bool) (root : path) (c : call) (m : filesystem) (k : path) :
  (forall q, q ∈ prefixes root -> m !! q = Some Directory) ->
  tail_call g root c -> ¬ strictly_under root k ->
  apply_call c m !! k = m !! k.
Proof.
  intros Hroot Hc Hk.
  assert (forall l, starts_in_top l = true -> k <> root ++ l) as Hne.
  { intros l Hl ->. apply Hk. split; [by apply prefix_app_r|].
    intros E. rewrite <- (app_nil_r root) in E at 2. apply app_inv_head in E.
    by subst l. }
  destruct c; try done; simpl.
  - destruct (tail_call_under g root _ p Hc eq_refl) as (l & -> & Hl).
    destruct (m !! k) as [e|] eqn:Ek; [by apply fs_mkdir_all_keeps|].
    destruct ((fs_mkdir_all (root ++ l) m).1 !! k) as [e|] eqn:E; [|done].
    apply fs_mkdir_all_lookup in E as [E|(_ & _ & Hin)]; [congruence|].
    apply elem_of_prefixes in Hin as [Hk0 Hin].
    destruct (prefix_weak_total k root (root ++ l) Hin) as [Hkr|Hrk];
      [by apply prefix_app_r| |].
    + rewrite Hroot in Ek; [done|]. by apply elem_of_prefixes.
    + destruct (decide (k = root)) as [->|Hkne]; [|exfalso; by apply Hk].
      rewrite Hroot in Ek; [done|]. by apply elem_of_prefixes.
  - destruct (tail_call_under g root _ p Hc eq_refl) as (l & -> & Hl).
    apply fs_write_other. by apply Hne.
  - destruct (tail_call_under g root _ p Hc eq_refl) as (l & -> & Hl).
    apply fs_write_other. by apply Hne.
  - destruct (tail_call_under g root _ p Hc eq_refl) as (l & -> & Hl).
    apply fs_write_handle_other. by apply Hne.
Qed.

Lemma tail_prune (g : bool) (root : path) (cs : list call) (m : filesystem) :
  (forall q, q ∈ prefixes root -> m !! q = Some Directory) ->
  Forall (tail_call g root) cs ->
  prune root (replay cs m) = prune root m
  /\ (forall q, q ∈ prefixes root -> replay cs m !! q = Some Directory).
Proof.
  intros Hroot H. revert m Hroot.
  induction H as [|c cs Hc Hcs IH]; intros m Hroot; simpl; [done|].
  assert (forall q, q ∈ prefixes root -> apply_call c m !! q = Some Directory) as Hroot'.
  { intros q Hq. apply dir_stays; [by eapply tail_call_no_removal|by apply Hroot]. }
  destruct (IH _ Hroot') as [IH1 IH2]. split; [|done].
  rewrite IH1. apply map_eq. intros k. rewrite !prune_lookup.
  case_decide; [done|]. by eapply tail_frame.
Qed.

Lemma root_prefixes_pruned (root : path) (m : filesystem) (q : path) :
  q ∈ prefixes root -> prune root m !! q = m !! q.
Proof.
  intros [_ Hq]%elem_of_prefixes. rewrite prune_lookup.
  rewrite decide_False; [done|]. intros [Hr Hne]. apply Hne.
  by apply (anti_symm prefix).
Qed.

Lemma cleaning_valid (cfg : Config) (root : path) (m : filesystem) :
  Forall valid_call (cleaning cfg root m).
Proof.
  eapply Forall_impl; [apply (cleaning_no_creation cfg root m)|].
  intros c. by destruct c.
Qed.

(** What a run with the clean flag leaves, when the root can be created:
    the result and the file system are those of [phase_tail] on the pruned
    file system. *)
Lemma generate_clean_run tfs E (cwd : path) (cfg : Config) (w : world) :
  let root := filepath_Abs cwd (Root cfg) in
  Clean cfg = true -> wf (fs w) ->
  Forall (fun c => valid_name c = true) cwd ->
  Root cfg <> "" ->
  (fs_mkdir_all root (fs w)).2 = None ->
  exists w2,
    generate tfs E cwd cfg w = phase_tail tfs E root cfg w2
    /\ fs w2 = prune root (fs_mkdir_all root (fs w)).1
    /\ wf (fs w2)
    /\ (forall q, q ∈ prefixes root -> fs w2 !! q = Some Directory).
Proof.
  intros root Hclean Hwf Hcwd Hne Hmk.
  set (m1 := (fs_mkdir_all root (fs w)).1).
  assert (wf m1) as Hwf1.
  { apply (apply_call_wf (MkdirAllCall root)); [|done].
    by apply filepath_Abs_valid. }
  assert (stat m1 root = Some Directory) as Hd by (by apply root_is_directory).
  exists (perform_all (MkdirAllCall root :: cleaning cfg root m1) w).
  split; [|split; [|split]].
  - rewrite generate_shape by done. fold root. by rewrite Hmk.
  - unfold perform_all. cbn [fs]. simpl replay. fold m1.
    unfold cleaning. rewrite Hclean. by apply clean_prunes.
  - unfold perform_all. cbn [fs]. simpl replay. fold m1.
    apply replay_wf; [apply cleaning_valid|done].
  - intros q Hq. unfold perform_all. cbn [fs]. simpl replay. fold m1.
    unfold cleaning. rewrite Hclean, clean_prunes by done.
    rewrite root_prefixes_pruned by done. by apply fs_mkdir_all_ok.
Qed.


(** Well-formedness of a given file system can be checked entry by
    entry. *)
Lemma wf_check (m : filesystem) :
  map_Forall (fun k _ =>
    (k = [] \/ stat m (removelast k) = Some Directory)
    /\ Forall (fun c => valid_name c = true) k) m ->
  wf m.
Proof.
  intros H. split.
  - apply closed_check. intros k e Hk. by apply (H k e Hk).
  - intros k [e Hk]. by apply (H k e Hk).
Qed.


(** ** Runs of [main] *)

Lemma resolve_config_batch (flags : Flags) (p : process) :
  flag_i flags = false -> resolve_config flags p = (flags_config flags, p).
Proof.
  intros Hi. unfold resolve_config, bind, ret. rewrite Hi.
  unfold flags_config. cbn [Root ModuleName Port Gitkeep Clean].
  destruct p. by destruct (String.eqb (flag_m flags) "").
Qed.

(** The two static files after a successful generation. *)
Lemma generate_static_files tfs E (cwd : path) (cfg : Config) (w : world) :
  let root := filepath_Abs cwd (Root cfg) in
  (generate tfs E cwd cfg w).1 = None ->
  fs (generate tfs E cwd cfg w).2 !! (root ++ ["go.mod"])
    = Some (RegFile (goMod_content (ModuleName cfg)))
  /\ fs (generate tfs E cwd cfg w).2 !! (root ++ ["Makefile"])
    = Some (RegFile (Makefile_content (Port cfg))).
Proof.
  intros root H. apply generate_ok in H as (_ & _ & H). fold root in H.
  apply phase_tail_ok in H as (H1 & H2 & H3). cbv zeta in *.
  pose proof (f_equal snd H3) as Hw. cbn [snd] in Hw. rewrite <- Hw. clear Hw H3.
  apply fs_write_ok in H1 as (H1 & _). apply fs_write_ok in H2 as (H2 & _).
  split.
  - apply (render_keeps tfs E root ["go.mod"]); [by repeat constructor|].
    cbn [perform fs apply_call]. rewrite fs_write_other.
    2:{ intros Heq%app_inv_head. done. }
    etrans; [exact (f_equal (fun m : filesystem => m !! (root ++ ["go.mod"])) H1)|].
    by rewrite lookup_insert_eq.
  - apply (render_keeps tfs E root ["Makefile"]); [by repeat constructor|].
    cbn [perform fs apply_call] in *.
    etrans; [exact (f_equal (fun m : filesystem => m !! (root ++ ["Makefile"])) H2)|].
    by rewrite lookup_insert_eq.
Qed.

(** X1. A run without the interactive mode reads nothing from standard
    input and takes its configuration from the flags alone, an empty module
    name becoming [service.com/service]. It ends with code 0 or 1. With
    code 0 it has printed the closing message, whose [cd] line shows the
    root as it was given on the command line, and [go.mod] and [Makefile]
    under the resolved root hold the module name and the port of the flags;
    with code 1 it has printed nothing on standard output. *)
Theorem X1_batch_run tfs E (cwd : path) (flags : Flags) (p : process) :
  flag_version flags = false -> flag_i flags = false ->
  let run := main tfs E cwd flags p in
  let root := filepath_Abs cwd (flag_r flags) in
  let module := if String.eqb (flag_m flags) "" then "service.com/service"
                else flag_m flags in
  stdin run.2 = stdin p
  /\ (run.1 = 0 \/ run.1 = 1)
  /\ (run.1 = 0 ->
        stdout run.2
          = (((stdout p +:+ (LF +:+ "✓ Done! Your project is ready." +:+ LF))
              +:+ (LF +:+ "Next steps:" +:+ LF))
             +:+ ("  cd " +:+ flag_r flags +:+ LF))
            +:+ ("  make run" +:+ LF)
        /\ stderr run.2 = stderr p
        /\ fs (os run.2) !! (root ++ ["go.mod"])
             = Some (RegFile ("module " +:+ module +:+ LF +:+ LF
                              +:+ "go 1.22.0" +:+ LF))
        /\ fs (os run.2) !! (root ++ ["Makefile"])
             = Some (RegFile (Makefile_content (flag_p flags))))
  /\ (run.1 = 1 -> stdout run.2 = stdout p).
Proof.
  intros Hv Hi run root module. unfold run.
  rewrite main_eq by done. rewrite resolve_config_batch by done.
  cbv zeta. cbn [fst snd].
  pose proof (generate_static_files tfs E cwd (flags_config flags) (os p)) as Hs.
  destruct (generate tfs E cwd (flags_config flags) (os p)) as [[err|] w'] eqn:Hg;
    cbn [fst snd stdin stdout stderr os] in *.
  - split; [done|]. split; [by right|]. split; [done|]. done.
  - split; [done|]. split; [by left|]. split; [|done]. intros _.
    split; [done|]. split; [done|]. apply Hs. done.
Qed.

Lemma X1_witness :
  let flags := {| flag_i := false; flag_version := false; flag_r := "widget";
                  flag_m := ""; flag_p := "8080"; flag_g := false;
                  flag_c := false |} in
  let run := main Sample.store GoTemplate.engine Sample.cwd flags
               (Process "unread" "" "" Sample.empty) in
  run.1 = 0
  /\ stdin run.2 = "unread"
  /\ fs (os run.2) !! (Sample.root ++ ["go.mod"])
       = Some (RegFile ("module service.com/service" +:+ LF +:+ LF
                        +:+ "go 1.22.0" +:+ LF)).
Proof.
  intros flags run.
  destruct (X1_batch_run Sample.store GoTemplate.engine Sample.cwd flags
              (Process "unread" "" "" Sample.empty) eq_refl eq_refl)
    as (H1 & _ & H3 & _).
  assert (run.1 = 0) as H0 by (vm_compute; reflexivity).
  split; [exact H0|]. split; [exact H1|].
  destruct (H3 H0) as (_ & _ & H4 & _). exact H4.
Defined.

Lemma read_line_end (a : string) :
  no_newline a = true -> read_line a = (a, "").
Proof.
  induction a as [|c a IH]; simpl; [done|].
  intros [Hc Ha]%andb_prop. apply negb_true_iff in Hc. rewrite Hc.
  by rewrite (IH Ha).
Qed.

(** X2. In the interactive mode the same five prompts are printed, in the
    same order, whatever is typed: the first always names [.] as the
    default directory, also when [-r] was given, and the third shows the
    port of the flags. Nothing is written to the error stream and the file
    system is not touched while the answers are read. *)
Theorem X2_interactive_prompts (flags : Flags) (p : process) :
  flag_i flags = true ->
  let p1 := (resolve_config flags p).2 in
  stdout p1
    = ((((stdout p +:+ "Project directory (default: .): ")
         +:+ "Go module name (github.com/user/project): ")
        +:+ ("Server port (default: " +:+ flag_p flags +:+ "): "))
       +:+ "Add .gitkeep files? (y/N): ")
      +:+ "Clean target directory first? (y/N): "
  /\ stderr p1 = stderr p
  /\ os p1 = os p.
Proof.
  intros Hi. unfold resolve_config, bind, ret, fmt_Print, reader_ReadString.
  rewrite Hi. cbn [fst snd stdin stdout stderr os].
  repeat (destruct (read_line _) as [? ?]; cbn [fst snd stdin stdout stderr os]).
  repeat match goal with
         | |- context [negb (String.eqb ?a ?b)] => destruct (String.eqb a b)
         end; cbn [negb Root ModuleName Port Gitkeep Clean]; done.
Qed.

Lemma X2_witness :
  let flags := {| flag_i := true; flag_version := false; flag_r := "widget";
                  flag_m := ""; flag_p := "9090"; flag_g := false;
                  flag_c := false |} in
  let p1 := (resolve_config flags
               (Process (answers "" "m" "1" "y" "n" "") "" "" Sample.empty)).2 in
  stdout p1
    = (((("" +:+ "Project directory (default: .): ")
         +:+ "Go module name (github.com/user/project): ")
        +:+ ("Server port (default: " +:+ "9090" +:+ "): "))
       +:+ "Add .gitkeep files? (y/N): ")
      +:+ "Clean target directory first? (y/N): "
  /\ stderr p1 = ""
  /\ os p1 = Sample.empty.
Proof.
  intros flags.
  apply (X2_interactive_prompts flags
           (Process (answers "" "m" "1" "y" "n" "") "" "" Sample.empty)).
  reflexivity.
Defined.



(** X4. The module name [main] passes on is never empty, whatever the
    flags and whatever is typed; so the [go.mod] of a run that ends with
    code 0 never declares an empty module. *)
Theorem X4_module_name_never_empty tfs E (cwd : path) (flags : Flags) (p : process) :
  let cfg := (resolve_config flags p).1 in
  ModuleName cfg <> ""
  /\ (flag_version flags = false ->
      (main tfs E cwd flags p).1 = 0 ->
      fs (os (main tfs E cwd flags p).2) !! (filepath_Abs cwd (Root cfg) ++ ["go.mod"])
        = Some (RegFile ("module " +:+ ModuleName cfg +:+ LF +:+ LF
                         +:+ "go 1.22.0" +:+ LF))).
Proof.
  intros cfg. split.
  - unfold cfg, resolve_config. unfold bind at 1.
    match goal with
    | |- context [let '(a, w') := ?m p in _] => destruct (m p) as [c p1]
    end.
    unfold ret. cbn [fst].
    destruct (String.eqb_spec (ModuleName c) ""); [done|done].
  - intros Hv. rewrite main_eq by done. cbv zeta. fold cfg.
    pose proof (generate_static_files tfs E cwd cfg (os (resolve_config flags p).2))
      as Hs.
    destruct (generate tfs E cwd cfg (os (resolve_config flags p).2))
      as [[err|] w'] eqn:Hg; cbn [fst snd os] in *; [done|].
    intros _. by apply Hs.
Qed.

Lemma X4_witness :
  let flags := {| flag_i := true; flag_version := false; flag_r := "widget";
                  flag_m := ""; flag_p := "8080"; flag_g := false;
                  flag_c := false |} in
  let p := Process (answers "" "   " "" "" "" "") "" "" Sample.empty in
  ModuleName (resolve_config flags p).1 <> ""
  /\ fs (os (main Sample.store GoTemplate.engine Sample.cwd flags p).2)
       !! (filepath_Abs Sample.cwd (Root (resolve_config flags p).1) ++ ["go.mod"])
     = Some (RegFile ("module " +:+ ModuleName (resolve_config flags p).1
                      +:+ LF +:+ LF +:+ "go 1.22.0" +:+ LF)).
Proof.
  intros flags p.
  destruct (X4_module_name_never_empty Sample.store GoTemplate.engine Sample.cwd
              flags p) as [H1 H2].
  split; [exact H1|]. apply H2; vm_compute; reflexivity.
Defined.

(** ** Runs of [generate] that stop at a static file *)

Lemma phase_tail_shape tfs E (root : path) (cfg : Config) (w : world) :
  phase_tail tfs E root cfg w =
    let gomod := WriteFileCall (root ++ ["go.mod"]) (goMod_content (ModuleName cfg)) in
    let makefile := WriteFileCall (root ++ ["Makefile"]) (Makefile_content (Port cfg)) in
    let w3 := perform_all (dir_calls (Gitkeep cfg) root) w in
    match (fs_write "open" (root ++ ["go.mod"]) (goMod_content (ModuleName cfg))
             (fs w3)).2 with
    | Some err => (Some err, perform gomod w3)
    | None =>
        match (fs_write "open" (root ++ ["Makefile"]) (Makefile_content (Port cfg))
                 (fs (perform gomod w3))).2 with
        | Some err => (Some err, perform makefile (perform gomod w3))
        | None => render tfs E root cfg templates (perform makefile (perform gomod w3))
        end
    end.
Proof.
  unfold phase_tail, phase_files. unfold bind at 1. rewrite phase_dirs_calls.
  unfold check at 1, bind at 1, writeGoMod, os_WriteFile at 1.
  rewrite Join_go_mod. cbn [fst snd]. cbv zeta.
  destruct ((fs_write "open" (root ++ ["go.mod"]) _ _).2) as [err|] eqn:E1; [done|].
  unfold check at 1, bind at 1, writeMakefile, os_WriteFile at 1.
  rewrite Join_Makefile. cbn [fst snd].
  destruct ((fs_write "open" (root ++ ["Makefile"]) _ _).2) as [err|] eqn:E2; done.
Qed.

Lemma fs_write_directory (op : string) (p : path) (data : string) (m : filesystem) :
  p <> [] -> stat m (removelast p) = Some Directory -> m !! p = Some Directory ->
  fs_write op p data m = (m, Some (PathError op (path_string p) EISDIR)).
Proof.
  intros Hp Hd Hk. unfold fs_write. destruct p as [|c p]; [done|].
  by rewrite Hd, Hk.
Qed.

Lemma snoc_nonempty (root : path) (n : string) : root ++ [n] <> [].
Proof. by intros [_ ?]%app_eq_nil. Qed.

Lemma snoc_longer (root : path) (n : string) : root ++ [n] <> root.
Proof.
  intros E0. apply (f_equal length) in E0. rewrite length_app in E0.
  simpl in E0. lia.
Qed.

Lemma dir_calls_no_removal (g : bool) (root : path) :
  Forall (fun c => is_removal c = false) (dir_calls g root).
Proof.
  eapply Forall_impl; [apply (dir_calls_tail g root)|]. apply tail_call_no_removal.
Qed.

(** The root is a directory once it has been created, and stays one
    through the directory loop. *)
Lemma root_after_dirs (g : bool) (root : path) (m : filesystem) :
  (fs_mkdir_all root m).2 = None ->
  stat (replay (dir_calls g root) (fs_mkdir_all root m).1) root = Some Directory.
Proof.
  intros Hmk. pose proof (root_is_directory root m Hmk) as Hd.
  destruct root as [|c root]; [done|]. cbn [stat] in *.
  apply dir_stays_replay; [apply dir_calls_no_removal|done].
Qed.

Lemma dirs_heads :
  Forall (fun d => forall n, n ∈ ["go.mod"; "Makefile"] -> ¬ [n] `prefix_of` rel d) dirs.
Proof.
  repeat constructor; intros n Hn [l Hl]; vm_compute in Hl;
    apply (f_equal head) in Hl; simpl in Hl; injection Hl as <-;
    set_solver.
Qed.

(** The directory loop makes no directory where a static file goes. *)
Lemma dir_calls_no_mkdir_static (g : bool) (root : path) (n : string) :
  n ∈ ["go.mod"; "Makefile"] ->
  Forall (no_mkdir (root ++ [n])) (dir_calls g root).
Proof.
  intros Hn. rewrite dir_calls_eq. apply Forall_flat_map, Forall_forall.
  intros d Hd. constructor; [|by destruct g; repeat constructor].
  simpl. intros [_ Hin]%elem_of_prefixes.
  apply prefix_app_inv in Hin.
  by apply (proj1 (Forall_forall _ _) dirs_heads d Hd n Hn).
Qed.

Lemma no_mkdir_root (root : path) (l : path) :
  l <> [] -> no_mkdir (root ++ l) (MkdirAllCall root).
Proof.
  intros Hl. simpl. intros [_ Hin]%elem_of_prefixes.
  apply prefix_length in Hin. rewrite length_app in Hin.
  destruct l; [done|]. simpl in Hin. lia.
Qed.



(** ** What lies outside the root *)

Lemma prefix_longer (root : path) (n : string) : ¬ (root ++ [n]) `prefix_of` root.
Proof.
  intros H%prefix_length. rewrite length_app in H. simpl in H. lia.
Qed.

(** The clean step removes nothing outside what lies below the root. *)
Lemma cleaning_frame (cfg : Config) (root : path) (m : filesystem) (k : path) :
  (forall n, is_Some (m !! (root ++ [n])) -> valid_name n = true) ->
  ¬ strictly_under root k ->
  replay (cleaning cfg root m) m !! k = m !! k.
Proof.
  intros Hn Hk. unfold cleaning. destruct (Clean cfg); [|done].
  unfold clean_calls, fs_read_dir.
  destruct (stat m root) as [[x|]|]; [done| |done]. cbn [fst].
  change (replay (ReadDirCall root :: ?l) m) with (replay l m).
  rewrite <- (map_map (filepath_Join root) RemoveAllCall).
  rewrite replay_removals. rewrite decide_False; [done|].
  intros (p & Hp & Hpk)%Exists_exists.
  apply list_elem_of_fmap in Hp as (n & -> & Hin).
  apply elem_of_children in Hin.
  unfold filepath_Join in Hpk. rewrite walk_name in Hpk by (by apply Hn).
  by apply Hk, (child_strictly_under root k n).
Qed.



(** ** A template whose output file cannot be created *)

(** X7. When the template is found and parses but its output file cannot
    be created, [writeTemplate] returns the error of [os.Create]: the
    template is never executed and nothing is closed, no entry of the file
    system is lost or changed, and all that may have appeared are
    directories on the way to the output. This happens whenever a directory
    stands at the output path, and whenever the directory of the output is a
    regular file. *)
Theorem X7_output_not_created tfs E (root : path) (o t : string) (cfg : Config)
    (w : world) (text : string) (tmpl : template E) :
  let name := "templates/" +:+ t in
  let out := filepath_Join root o in
  let run := writeTemplate tfs E root o t cfg w in
  tfs name = Some text -> Parse E t text = inl tmpl ->
  (forall err,
     (os_Create out (perform (MkdirAllCall (filepath_Dir out)) w)).1 = Some err ->
     run.1 = Some err
     /\ trace run.2 = trace w ++ [ReadTemplateCall name; ParseCall t;
                                  MkdirAllCall (filepath_Dir out); CreateCall out]
     /\ fs run.2 = (fs_mkdir_all (filepath_Dir out) (fs w)).1
     /\ (forall k e, fs w !! k = Some e -> fs run.2 !! k = Some e)
     /\ (forall k, fs w !! k = None ->
           fs run.2 !! k = None
           \/ (fs run.2 !! k = Some Directory /\ k ∈ prefixes (filepath_Dir out))))
  /\ (stat (fs w) out = Some Directory ->
      exists e, run.1 = Some (PathError "open" (path_string out) e))
  /\ (forall x, stat (fs w) (filepath_Dir out) = Some (RegFile x) ->
      run.1 = Some (PathError "open" (path_string out) ENOTDIR)).
Proof.
  intros name out run Ht Hp.
  assert (forall err,
            (os_Create out (perform (MkdirAllCall (filepath_Dir out)) w)).1 = Some err ->
            run = (Some err,
                   perform (CreateCall out)
                     (perform_all [ReadTemplateCall name; ParseCall t;
                                   MkdirAllCall (filepath_Dir out)] w))) as Hrun.
  { intros err Hc. unfold run. rewrite writeTemplate_eq. cbv zeta.
    fold name out. rewrite Ht, Hp.
    change ((os_Create out (perform_all [ReadTemplateCall name; ParseCall t;
                                         MkdirAllCall (filepath_Dir out)] w)).1)
      with ((os_Create out (perform (MkdirAllCall (filepath_Dir out)) w)).1).
    by rewrite Hc. }
  split; [|split].
  - intros err Hc. rewrite (Hrun err Hc). cbn [fst snd]. split; [done|].
    assert (fs (perform (CreateCall out)
                  (perform_all [ReadTemplateCall name; ParseCall t;
                                MkdirAllCall (filepath_Dir out)] w))
            = (fs_mkdir_all (filepath_Dir out) (fs w)).1) as Hfs.
    { unfold os_Create in Hc. cbn [fst perform fs apply_call] in Hc.
      cbn [perform perform_all fs replay foldl apply_call].
      by apply fs_write_fail in Hc. }
    split; [|split; [exact Hfs|split]].
    + cbn [perform perform_all trace]. by rewrite <- app_assoc.
    + intros k e He. rewrite Hfs. by apply fs_mkdir_all_keeps.
    + intros k Hk. rewrite Hfs.
      destruct ((fs_mkdir_all (filepath_Dir out) (fs w)).1 !! k) as [e|] eqn:Ek;
        [|by left].
      apply fs_mkdir_all_lookup in Ek as [Ek|(_ & -> & Hin)]; [congruence|by right].
  - intros Hd. unfold run. rewrite writeTemplate_eq. cbv zeta.
    fold name out. rewrite Ht, Hp.
    set (w1 := perform_all [ReadTemplateCall name; ParseCall t;
                            MkdirAllCall (filepath_Dir out)] w).
    assert (stat (fs w1) out = Some Directory) as Hd1.
    { apply (stat_keeps (fs w)); [|done]. intros e He.
      unfold w1. cbn [perform_all fs replay foldl apply_call].
      by apply fs_mkdir_all_keeps. }
    unfold os_Create. cbn [fst]. unfold fs_write.
    destruct out as [|c0 out0] eqn:Eout; [cbn [snd]; eauto|].
    destruct (stat (fs w1) (removelast (c0 :: out0))) as [[x|]|]; cbn [snd]; eauto.
    cbn [stat] in Hd1. rewrite Hd1. cbn [snd]. eauto.
  - intros x Hx. unfold run. rewrite writeTemplate_eq. cbv zeta.
    fold name out. rewrite Ht, Hp.
    set (w1 := perform_all [ReadTemplateCall name; ParseCall t;
                            MkdirAllCall (filepath_Dir out)] w).
    assert (filepath_Dir out <> []) as Hne.
    { intros E0. by rewrite E0 in Hx. }
    rewrite stat_lookup in Hx by done.
    assert (fs w1 !! filepath_Dir out = Some (RegFile x)) as Hx1.
    { unfold w1. cbn [perform_all fs replay foldl apply_call].
      by apply fs_mkdir_all_keeps. }
    unfold os_Create. cbn [fst]. unfold fs_write.
    destruct out as [|c0 out0] eqn:Eout; [done|].
    unfold filepath_Dir in *. rewrite stat_lookup by done. by rewrite Hx1.
Qed.

Lemma X7_witness :
  let run := writeTemplate Sample.store GoTemplate.engine Sample.root
               "cmd/main.go" "main.go.tmpl" Sample.cfg Disk.cmd_is_file in
  run.1 = Some (PathError "open" "/home/dev/widget/cmd/main.go" ENOTDIR)
  /\ (forall k e, fs Disk.cmd_is_file !! k = Some e -> fs run.2 !! k = Some e).
Proof.
  intros run.
  destruct (X7_output_not_created Sample.store GoTemplate.engine Sample.root
              "cmd/main.go" "main.go.tmpl" Sample.cfg Disk.cmd_is_file
              "package main // module {{.MODULE}}, port {{.PORT}}"
              [GoTemplate.TextNode "package main // module ";
               GoTemplate.FieldNode ["MODULE"];
               GoTemplate.TextNode ", port ";
               GoTemplate.FieldNode ["PORT"]] eq_refl eq_refl)
    as (H1 & _ & H3).
  split.
  - apply (H3 "not a directory"). reflexivity.
  - apply (H1 (PathError "open" "/home/dev/widget/cmd/main.go" ENOTDIR)).
    vm_compute. reflexivity.
Defined.

(** ** Substitution of placeholders *)

Module Substitution.
Import GoTemplate GoTemplateFacts.

Lemma append_nil_r (s : string) : s +:+ "" = s.
Proof. induction s as [|c s IH]; [done|]. change (String c (s +:+ "") = String c s). by rewrite IH. Qed.

Lemma scan_step (inside : bool) (c c' : ascii) (s : string) :
  scan inside (String c (String c' s)) =
    if negb inside && Ascii.eqb c "{" && Ascii.eqb c' "{" then
      match scan true s with
      | Some (a, items) => Some ("", ItemAction a :: items)
      | None => None
      end
    else if inside && Ascii.eqb c "}" && Ascii.eqb c' "}" then
      match scan false s with
      | Some (t, items) => Some ("", ItemText t :: items)
      | None => None
      end
    else
      match scan inside (String c' s) with
      | Some (t, items) => Some (String c t, items)
      | None => None
      end.
Proof. reflexivity. Qed.

Lemma scan_last (c : ascii) : scan false (String c "") = Some (String c "", []).
Proof. reflexivity. Qed.

Lemma scan_text (s r : string) :
  text_ok s = true ->
  scan false (s +:+ r) =
    match scan false r with
    | Some (t, items) => Some (s +:+ t, items)
    | None => None
    end.
Proof.
  induction s as [|c s IH]; intros Hs.
  - change ("" +:+ r) with r. by destruct (scan false r) as [[t items]|].
  - change (String c s +:+ r) with (String c (s +:+ r)).
    destruct s as [|c' s'].
    + cbn [text_ok] in Hs. apply negb_true_iff in Hs.
      change ("" +:+ r) with r in *. clear IH.
      destruct r as [|c' r'].
      * by rewrite scan_last.
      * rewrite scan_step, Hs. cbn [negb andb].
        by destruct (scan false (String c' r')) as [[t items]|].
    + assert (Ascii.eqb c "{" && Ascii.eqb c' "{" = false
              /\ text_ok (String c' s') = true) as [Hcc Hs'].
      { change (text_ok (String c (String c' s')))
          with (negb (Ascii.eqb c "{" && Ascii.eqb c' "{") && text_ok (String c' s'))
          in Hs.
        apply andb_prop in Hs as [Hcc Hs]. by apply negb_true_iff in Hcc. }
      specialize (IH Hs').
      change (String c' s' +:+ r) with (String c' (s' +:+ r)) in *.
      rewrite scan_step. cbn [negb andb]. rewrite Hcc, IH.
      by destruct (scan false r) as [[t items]|].
Qed.

Lemma scan_action_then (body r : string) :
  no_char "}" body = true ->
  scan true (body +:+ "}}" +:+ r) =
    match scan false r with
    | Some (t, items) => Some (body, ItemText t :: items)
    | None => None
    end.
Proof.
  induction body as [|c body IH]; intros Hb.
  - change ("" +:+ "}}" +:+ r) with (String "}" (String "}" r)).
    rewrite scan_step. cbn [negb andb Ascii.eqb Bool.eqb].
    by destruct (scan false r) as [[t items]|].
  - cbn [no_char] in Hb. apply andb_prop in Hb as [Hc Hb].
    apply negb_true_iff in Hc. specialize (IH Hb).
    change (String c body +:+ "}}" +:+ r) with (String c (body +:+ "}}" +:+ r)).
    destruct body as [|c' body'].
    + change ("" +:+ "}}" +:+ r) with (String "}" (String "}" r)) in *.
      rewrite (scan_step true c). cbn [negb andb]. rewrite Hc. cbn [andb].
      rewrite IH. by destruct (scan false r) as [[t items]|].
    + change (String c' body' +:+ "}}" +:+ r)
        with (String c' (body' +:+ "}}" +:+ r)) in *.
      rewrite (scan_step true c). cbn [negb andb]. rewrite Hc. cbn [andb].
      rewrite IH. by destruct (scan false r) as [[t items]|].
Qed.

Lemma scan_placeholder (n r : string) :
  is_name n = true ->
  scan false (field_source n +:+ r) =
    match scan false r with
    | Some (t, items) => Some ("", ItemAction (String "." n) :: ItemText t :: items)
    | None => None
    end.
Proof.
  intros Hn. unfold field_source.
  rewrite <- !append_assoc.
  change ("{{." +:+ n +:+ "}}" +:+ r)
    with (String "{" (String "{" (String "." n +:+ "}}" +:+ r))).
  rewrite scan_step. cbn [negb andb Ascii.eqb Bool.eqb].
  assert (no_char "}" (String "." n) = true) as Hb.
  { cbn [no_char]. apply is_name_ident, all_ident_facts in Hn as (Hn & _).
    by rewrite Hn. }
  change (String "." (n +:+ "}}" +:+ r)) with (String "." n +:+ "}}" +:+ r).
  rewrite (scan_action_then _ r Hb).
  by destruct (scan false r) as [[t items]|].
Qed.

Lemma parse_items_text (pre : string) (items : list item) (ns : list node)
    (data : gmap string string) (out : string) :
  parse_items items = Some ns -> execute ns data = (out, None) ->
  exists ns', parse_items (ItemText pre :: items) = Some ns'
              /\ execute ns' data = (pre +:+ out, None).
Proof.
  intros Hp He. destruct pre as [|c pre].
  - exists ns. by split.
  - exists (TextNode (String c pre) :: ns). split.
    + cbn [parse_items]. by rewrite Hp.
    + cbn [execute]. by rewrite He.
Qed.

Lemma parse_items_action (a : string) (items : list item) (n : node) (ns : list node) :
  parse_action a = Some n -> parse_items items = Some ns ->
  parse_items (ItemAction a :: items) = Some (n :: ns).
Proof. intros Ha Hi. cbn [parse_items]. by rewrite Ha, Hi. Qed.

(** The lexer and the parser on a source made of pieces: the pieces come
    out in order, and executing the result writes their values. *)
Lemma pieces_parsed (data : gmap string string) (ps : list piece) :
  forallb piece_ok ps = true ->
  exists t0 items,
    scan false (source ps) = Some (t0, items)
    /\ forall pre, exists ns,
         parse_items (ItemText (pre +:+ t0) :: items) = Some ns
         /\ execute ns data = (pre +:+ substituted data ps, None).
Proof.
  induction ps as [|p ps IH]; intros Hok.
  - exists "", []. split; [done|]. intros pre. rewrite append_nil_r.
    destruct (parse_items_text pre [] [] data "" eq_refl eq_refl) as (ns & H1 & H2).
    exists ns. split; [done|]. by rewrite H2.
  - cbn [forallb] in Hok. apply andb_prop in Hok as [Hp Hok].
    destruct (IH Hok) as (t0 & items & Hscan & Hparse). clear IH.
    destruct p as [s|n]; cbn [piece_ok] in Hp; cbn [source piece_source].
    + exists (s +:+ t0), items. split.
      * by rewrite (scan_text s _ Hp), Hscan.
      * intros pre. destruct (Hparse (pre +:+ s)) as (ns & H1 & H2).
        exists ns. rewrite append_assoc. split; [done|].
        rewrite H2. cbn [substituted piece_value]. by rewrite append_assoc.
    + exists "", (ItemAction (String "." n) :: ItemText t0 :: items). split.
      * by rewrite (scan_placeholder n _ Hp), Hscan.
      * intros pre. rewrite append_nil_r.
        destruct (Hparse "") as (ns & H1 & H2).
        change ("" +:+ t0) with t0 in H1.
        change ("" +:+ substituted data ps) with (substituted data ps) in H2.
        apply (parse_items_text pre _ (FieldNode [n] :: ns) data).
        -- by apply parse_items_action; [apply parse_action_field|].
        -- cbn [execute eval_field substituted piece_value].
           destruct (data !! n) as [v|]; by rewrite H2.
Qed.

Lemma pieces_rendered (tname : string) (data : gmap string string) (ps : list piece) :
  forallb piece_ok ps = true ->
  exists ns, parse tname (source ps) = inl ns
             /\ execute ns data = (substituted data ps, None).
Proof.
  intros Hok. destruct (pieces_parsed data ps Hok) as (t0 & items & Hscan & Hparse).
  destruct (Hparse "") as (ns & H1 & H2). exists ns. split; [|done].
  unfold parse, lex. rewrite Hscan.
  change ("" +:+ t0) with t0 in H1. by rewrite H1.
Qed.

End Substitution.

Lemma writeTemplate_written tfs E (root : path) (o t : string) (cfg : Config)
    (w : world) (text : string) (tmpl : template E) :
  let out := filepath_Join root o in
  let run := writeTemplate tfs E root o t cfg w in
  tfs ("templates/" +:+ t) = Some text -> Parse E t text = inl tmpl ->
  (os_Create out (perform (MkdirAllCall (filepath_Dir out)) w)).1 = None ->
  run.1 = (Execute E tmpl (context_of cfg)).2
  /\ fs run.2 !! out = Some (RegFile (Execute E tmpl (context_of cfg)).1).
Proof.
  intros out run Ht Hp Hc. subst run. rewrite writeTemplate_eq. fold out.
  cbv zeta. rewrite Ht, Hp.
  assert (forall w1 w2, fs w1 = fs w2 ->
            (os_Create out w1).1 = (os_Create out w2).1) as Hfs.
  { intros w1 w2 E12. unfold os_Create. simpl. by rewrite E12. }
  rewrite (Hfs _ (perform (MkdirAllCall (filepath_Dir out)) w)) by done.
  rewrite Hc. cbn [fst snd]. split; [done|].
  repeat rewrite ?perform_all_cons, ?perform_all_nil.
  cbn [perform fs apply_call].
  eapply write_handle_created. apply fs_write_ok in Hc as (Hc & _).
  cbn [perform fs apply_call] in Hc.
  etrans; [exact (f_equal (fun m : filesystem => m !! out) Hc)|].
  apply lookup_insert_eq.
Qed.

(** X8. With the substitution fragment of [text/template] as the engine: a
    template whose source is made of literal text (free of [{{], single
    braces allowed) and placeholders [{{.NAME}}] always parses and renders
    without error, and the output file holds the same text with every
    placeholder replaced by its value, [{{.MODULE}}] by the module name and
    [{{.PORT}}] by the port of the configuration; text between placeholders
    is copied as it stands. *)
Theorem X8_placeholders_substituted tfs (root : path) (o t : string) (cfg : Config)
    (w : world) (ps : list piece) :
  let name := "templates/" +:+ t in
  let out := filepath_Join root o in
  let run := writeTemplate tfs GoTemplate.engine root o t cfg w in
  forallb piece_ok ps = true ->
  tfs name = Some (source ps) ->
  (os_Create out (perform (MkdirAllCall (filepath_Dir out)) w)).1 = None ->
  run.1 = None
  /\ fs run.2 !! out = Some (RegFile (substituted (context_of cfg) ps))
  /\ piece_value (context_of cfg) (Placeholder "MODULE") = ModuleName cfg
  /\ piece_value (context_of cfg) (Placeholder "PORT") = Port cfg.
Proof.
  intros name out run Hok Ht Hc.
  destruct (Substitution.pieces_rendered t (context_of cfg) ps Hok)
    as (ns & Hparse & Hexec).
  destruct (writeTemplate_written tfs GoTemplate.engine root o t cfg w
              (source ps) ns Ht Hparse Hc) as [H1 H2].
  fold out run in H1, H2.
  change (Execute GoTemplate.engine ns (context_of cfg))
    with (GoTemplate.execute ns (context_of cfg)) in H1, H2.
  rewrite Hexec in H1, H2. split; [done|]. split; [done|]. split; reflexivity.
Qed.

Lemma X8_witness :
  let ps := [Literal "package main // {module "; Placeholder "MODULE";
             Literal "} port "; Placeholder "PORT"; Placeholder "NAME"] in
  let tfs := fun name : string =>
               if String.eqb name "templates/t.tmpl" then Some (source ps) else None in
  source ps = "package main // {module {{.MODULE}}} port {{.PORT}}{{.NAME}}"
  /\ fs (writeTemplate tfs GoTemplate.engine Sample.root "cmd/main.go" "t.tmpl"
           Sample.cfg Sample.used).2 !! (Sample.root ++ ["cmd"; "main.go"])
     = Some (RegFile "package main // {module github.com/acme/widget} port 9090<no value>").
Proof.
  intros ps tfs. split; [reflexivity|].
  destruct (X8_placeholders_substituted tfs Sample.root "cmd/main.go" "t.tmpl"
              Sample.cfg Sample.used ps) as (_ & H & _).
  - reflexivity.
  - reflexivity.
  - vm_compute. reflexivity.
  - exact H.
Defined.

(** ** Runs on nothing but a generated project *)

(** The clean step on a closed file system whose entries in the root have
    proper names. *)
Lemma clean_prunes_closed (root : path) (m : filesystem) :
  closed m -> (forall n, is_Some (m !! (root ++ [n])) -> valid_name n = true) ->
  stat m root = Some Directory ->
  replay (clean_calls root m) m = prune root m.
Proof.
  intros Hc Hn Hd. rewrite clean_calls_children by done.
  change (replay (ReadDirCall root :: ?l) m) with (replay l m).
  rewrite <- (map_map (filepath_Join root) RemoveAllCall).
  assert (forall n, n ∈ children root m -> filepath_Join root n = root ++ [n]) as Hj.
  { intros n Hin%elem_of_children. by apply walk_name, Hn. }
  apply map_eq. intros k. rewrite replay_removals, prune_lookup.
  destruct (m !! k) as [e|] eqn:Ek; [|by repeat case_decide].
  destruct (decide (Exists _ _)) as [He|He]; destruct (decide (strictly_under root k))
    as [Hs|Hs]; try done.
  - exfalso. apply Hs. apply Exists_exists in He as (p & Hp & Hpk).
    apply list_elem_of_fmap in Hp as (n & -> & Hin).
    rewrite (Hj n Hin) in Hpk. by apply (child_strictly_under root k n).
  - exfalso. apply He. destruct (strictly_under_inv root k Hs) as (n & rest & ->).
    assert (is_Some (m !! (root ++ [n]))) as Hchild.
    { destruct (decide (root ++ [n] = root ++ n :: rest)) as [->|Hne]; [eauto|].
      exists Directory. apply (closed_prefixes m (root ++ n :: rest)); eauto.
      apply elem_of_prefixes. split; [by intros [_ ?]%app_eq_nil|].
      apply prefix_app. by apply prefix_cons, prefix_nil. }
    apply elem_of_children in Hchild. apply Exists_exists.
    exists (root ++ [n]). split.
    + apply list_elem_of_fmap. exists n. by rewrite (Hj n Hchild).
    + apply prefix_app. by apply prefix_cons, prefix_nil.
Qed.

Lemma prefix_of_root_not_under (root q : path) :
  q ∈ prefixes root -> ¬ strictly_under root q.
Proof.
  intros [_ Hq]%elem_of_prefixes [Hr Hne]. apply Hne. by apply (anti_symm prefix).
Qed.

Lemma strictly_under_app (root l : path) : l <> [] -> strictly_under root (root ++ l).
Proof.
  intros Hl. split; [by apply prefix_app_r|].
  intros E0. rewrite <- (app_nil_r root) in E0 at 2. by apply app_inv_head in E0.
Qed.

(** An empty root holds nothing but parts of a project. *)
Lemma empty_project_below (g : bool) (root : path) (m : filesystem) :
  empty_below root m -> project_below g root m.
Proof.
  intros H l e Hl He. rewrite H in He; [done|]. by apply strictly_under_app.
Qed.

(** From such a start, [generate] is [phase_tail] on a world in which the
    root is a directory and holds nothing but parts of a project: nothing
    at all after the clean step, what it held before without it. *)
Lemma blank_tail tfs E (cwd : path) (cfg : Config) (w : world) :
  let root := filepath_Abs cwd (Root cfg) in
  project_start cwd cfg (fs w) ->
  Root cfg <> "" -> (fs_mkdir_all root (fs w)).2 = None ->
  exists w2,
    generate tfs E cwd cfg w = phase_tail tfs E root cfg w2
    /\ project_below (Gitkeep cfg) root (fs w2)
    /\ (forall q, q ∈ prefixes root -> fs w2 !! q = Some Directory)
    /\ (forall l, l <> [] ->
          fs w2 !! (root ++ l) = if Clean cfg then None else fs w !! (root ++ l)).
Proof.
  intros root Hblank Hne Hmk.
  set (m1 := (fs_mkdir_all root (fs w)).1).
  exists (perform_all (MkdirAllCall root :: cleaning cfg root m1) w).
  split; [by rewrite generate_shape by done; fold root; rewrite Hmk|].
  unfold perform_all. cbn [fs].
  change (replay (MkdirAllCall root :: ?l) (fs w)) with (replay l m1).
  unfold project_start in Hblank. unfold cleaning. destruct (Clean cfg).
  - destruct Hblank as [Hc Hn].
    rewrite clean_prunes_closed.
    + assert (forall k, strictly_under root k -> prune root m1 !! k = None) as Hnone.
      { intros k Hk. rewrite prune_lookup. by rewrite decide_True. }
      split; [|split].
      * apply empty_project_below. exact Hnone.
      * intros q Hq. rewrite root_prefixes_pruned by done. by apply fs_mkdir_all_ok.
      * intros l Hl. apply Hnone. by apply strictly_under_app.
    + by apply fs_mkdir_all_closed.
    + intros n [e Hn']. apply fs_mkdir_all_lookup in Hn' as [Hn'|(_ & _ & Hin)].
      * assert (is_Some (fs w !! (root ++ [n]))) as Hs by eauto.
        apply Hn in Hs. apply Forall_app in Hs as [_ Hs].
        by apply Forall_cons in Hs as [Hs _].
      * apply elem_of_prefixes in Hin as [_ Hin]. by apply prefix_longer in Hin.
    + by apply root_is_directory.
  - fold root in Hblank. cbn [replay foldl].
    assert (forall l, l <> [] -> m1 !! (root ++ l) = fs w !! (root ++ l)) as Hsame.
    { intros l Hl. destruct (m1 !! (root ++ l)) as [e|] eqn:Ek.
      - apply fs_mkdir_all_lookup in Ek as [Ek|(_ & _ & Hin)]; [done|].
        exfalso. apply (prefix_of_root_not_under root (root ++ l) Hin).
        by apply strictly_under_app.
      - destruct (fs w !! (root ++ l)) as [e|] eqn:Ew; [|done].
        apply (fs_mkdir_all_keeps root) in Ew. fold m1 in Ew. congruence. }
    split; [|split; [|done]].
    + intros l e Hl He. rewrite Hsame in He by done. by apply (Hblank l e).
    + intros q Hq. by apply fs_mkdir_all_ok.
Qed.


(** A prefix of a path below the root leads to the root or lies below it. *)
Lemma prefixes_under (root l q : path) :
  q ∈ prefixes (root ++ l) ->
  q ∈ prefixes root \/ exists l', l' ∈ prefixes l /\ q = root ++ l'.
Proof.
  intros [Hq Hpre]%elem_of_prefixes.
  destruct (prefix_weak_total q root (root ++ l) Hpre) as [Hqr|Hrq];
    [by apply prefix_app_r| |].
  - left. by apply elem_of_prefixes.
  - destruct Hrq as [l' ->]. apply prefix_app_inv in Hpre.
    destruct l' as [|c l'].
    + left. rewrite app_nil_r in *. apply elem_of_prefixes. by split.
    + right. exists (c :: l'). split; [|done]. apply elem_of_prefixes. by split.
Qed.

Lemma tail_call_unwritten_other (g : bool) (root k : path) (c : call) :
  k ∉ generated_files g root -> tail_call g root c -> unwritten k c.
Proof.
  intros Hk Hc. pose proof (tail_call_writes g root c Hc) as Hw.
  destruct c; try done; simpl in *; by intros ->.
Qed.

(** The files [generate] writes, relative to the root. *)
Lemma generated_files_under (g : bool) (root : path) :
  generated_files g root = map (app root) (generated_files g []).
Proof. by destruct g. Qed.

Lemma elem_of_generated_files (g : bool) (root l : path) :
  root ++ l ∈ generated_files g root <-> l ∈ generated_files g [].
Proof.
  rewrite generated_files_under, list_elem_of_fmap. split.
  - by intros (l' & ->%app_inv_head & H).
  - intros H. by exists l.
Qed.

Lemma layout_dirs_not_files (g : bool) :
  Forall (fun l => l ∉ generated_files g []) layout_dirs.
Proof. destruct g; apply (bool_decide_unpack _); vm_compute; exact I. Qed.

Lemma layout_dirs_prefixes :
  Forall (fun d => Forall (fun l => l ∈ layout_dirs) (prefixes (rel d))) dirs.
Proof. apply (bool_decide_unpack _). vm_compute. exact I. Qed.

Lemma layout_dirs_reached :
  Forall (fun l => Exists (fun d => l ∈ prefixes (rel d)) dirs) layout_dirs.
Proof. apply (bool_decide_unpack _). vm_compute. exact I. Qed.

Lemma template_dirs_layout :
  Forall (fun ot : string * string =>
            Forall (fun l => l ∈ layout_dirs) (prefixes (removelast (rel ot.1))))
    templates.
Proof. apply (bool_decide_unpack _). vm_compute. exact I. Qed.

Section Blank.

Variables (g : bool) (root : path) (m : filesystem).
Hypothesis Hproject : project_below g root m.
Hypothesis Hroot : forall q, q ∈ prefixes root -> m !! q = Some Directory.

(** Below the root, regular files are where [generate] writes them. *)
Lemma blank_files (cs : list call) (l : path) (x : string) :
  Forall (tail_call g root) cs -> l <> [] ->
  replay cs m !! (root ++ l) = Some (RegFile x) ->
  l ∈ generated_files g [].
Proof.
  intros Hcs Hl Hx. apply (proj1 (elem_of_generated_files g root l)).
  destruct (decide (root ++ l ∈ generated_files g root)) as [|Hn];
    [done|exfalso].
  apply unwritten_replay in Hx.
  - apply Hn. apply elem_of_generated_files. by apply (Hproject l (RegFile x)).
  - eapply Forall_impl; [exact Hcs|]. intros c. by apply tail_call_unwritten_other.
Qed.

(** No regular file stands on the way to a directory of the layout. *)
Lemma blank_not_blocked (cs : list call) (p : path) :
  Forall (tail_call g root) cs ->
  Forall (fun l => l ∈ layout_dirs) (prefixes p) ->
  ¬ blocked (replay cs m) (root ++ p).
Proof.
  intros Hcs Hp (q & x & Hq & Hx).
  apply prefixes_under in Hq as [Hq|(l & Hl & ->)].
  - destruct (tail_prune g root cs m Hroot Hcs) as [_ Hr]. by rewrite Hr in Hx.
  - assert (l <> []) as Hne by (by apply elem_of_prefixes in Hl as [? _]).
    apply blank_files in Hx; [|done|done].
    apply (proj1 (Forall_forall _ _) Hp) in Hl.
    by apply (proj1 (Forall_forall _ _) (layout_dirs_not_files g) l Hl).
Qed.

End Blank.

Lemma manifest_call_mono (root : path) (l l' : list (string * string)) (c : call) :
  l ⊆ l' -> manifest_call root l c -> manifest_call root l' c.
Proof.
  intros Hl. destruct c; simpl; try done;
    intros (ot & -> & Hot)%list_elem_of_fmap; apply list_elem_of_fmap;
    exists ot; split; [done|by apply Hl|done|by apply Hl|done|by apply Hl|done|by apply Hl].
Qed.

Lemma manifest_call_render (root : path) (l : list (string * string)) (c : call) :
  l ⊆ templates -> manifest_call root l c -> render_call root c.
Proof. intros Hl Hc. by apply (manifest_call_mono root l templates). Qed.

Lemma within_writeTemplate_of tfs E (root : path) (l : list (string * string))
    (o t : string) (cfg : Config) :
  (o, t) ∈ templates -> (o, t) ∈ l ->
  within (manifest_call root l) (writeTemplate tfs E root o t cfg).
Proof.
  intros H Hl. unfold writeTemplate.
  assert (root ++ rel o ∈ map (fun ot : string * string => root ++ rel ot.1) l) as Hout.
  { apply list_elem_of_fmap. by exists (o, t). }
  apply within_bind; [by apply within_templateFS_ReadFile|].
  intros [text|err]; [|apply within_ret].
  apply within_bind; [by apply within_template_Parse|].
  intros [tmpl|err]; [|apply within_ret].
  rewrite (Dir_output root o t H), (Join_output root o t H).
  apply within_bind.
  { apply within_os_MkdirAll. apply list_elem_of_fmap. by exists (o, t). }
  intros _. apply within_bind; [by apply within_os_Create|].
  intros [err|]; [apply within_ret|].
  apply within_bind; [by apply within_template_Execute|].
  intros r. apply within_bind; [by apply within_file_Close|].
  intros _. apply within_ret.
Qed.

Lemma within_render_of tfs E (root : path) (cfg : Config) (l : list (string * string)) :
  l ⊆ templates -> within (manifest_call root l) (render tfs E root cfg l).
Proof.
  induction l as [|[o t] l IH]; intros H; simpl; [apply within_ret|].
  apply within_check.
  - apply within_writeTemplate_of; [apply H|]; by left.
  - eapply within_weaken; [|apply IH; intros x Hx; apply H; by right].
    intros c. apply manifest_call_mono. intros x Hx. by right.
Qed.

(** The calls on a manifest leave alone the output of a template that is
    not in it. *)
Lemma manifest_call_keeps (root : path) (l : list (string * string)) (k : path)
    (c : call) :
  k ∉ map (fun ot : string * string => rel ot.1) l ->
  manifest_call root l c -> keeps (root ++ k) c.
Proof.
  intros Hk. destruct c; simpl; try done;
    intros (ot & Hp & Hot)%list_elem_of_fmap -> ; apply app_inv_head in Hp;
    apply Hk, list_elem_of_fmap; by exists ot.
Qed.

(** A template that renders without error: what its success means. *)
Lemma writeTemplate_success tfs E (root : path) (o t : string) (cfg : Config)
    (w : world) :
  (writeTemplate tfs E root o t cfg w).1 = None ->
  exists written,
    rendered tfs E cfg t = Some written
    /\ fs (writeTemplate tfs E root o t cfg w).2 !! filepath_Join root o
         = Some (RegFile written).
Proof.
  intros Hok. pose proof Hok as Hok'. rewrite writeTemplate_eq in Hok'.
  cbv zeta in Hok'. unfold rendered.
  destruct (tfs ("templates/" +:+ t)) as [text|] eqn:Ht; [|done].
  destruct (Parse E t text) as [tmpl|err] eqn:Hp; [|done].
  destruct ((os_Create _ _).1) as [err|] eqn:Ec; [done|].
  cbn [fst] in Hok'.
  destruct (writeTemplate_written tfs E root o t cfg w text tmpl Ht Hp Ec) as [_ H2].
  destruct (Execute E tmpl (context_of cfg)) as [out r]. cbn [snd] in Hok'.
  subst r. by exists out.
Qed.

Lemma templates_outputs_distinct :
  NoDup (map (fun ot : string * string => rel ot.1) templates).
Proof. apply (bool_decide_unpack _). vm_compute. exact I. Qed.

(** After a manifest has been rendered without error, every output holds
    what its template rendered to. *)
Lemma render_written tfs E (root : path) (cfg : Config) (l : list (string * string))
    (w : world) (o t : string) :
  l ⊆ templates -> NoDup (map (fun ot : string * string => rel ot.1) l) ->
  (render tfs E root cfg l w).1 = None -> (o, t) ∈ l ->
  exists written,
    rendered tfs E cfg t = Some written
    /\ fs (render tfs E root cfg l w).2 !! (root ++ rel o) = Some (RegFile written).
Proof.
  revert w. induction l as [|[o' t'] l IH]; intros w Hl Hnd Hr Hin;
    [by apply elem_of_nil in Hin|].
  cbn [render] in *. unfold check, bind in *.
  pose proof (writeTemplate_success tfs E root o' t' cfg w) as Hw.
  destruct (writeTemplate tfs E root o' t' cfg w) as [[err|] w1] eqn:Ew; [done|].
  assert (l ⊆ templates) as Hl' by (intros x Hx; apply Hl; by right).
  cbn [map] in Hnd. apply NoDup_cons in Hnd as [Hfresh Hnd].
  apply elem_of_cons in Hin as [[= -> ->]|Hin]; [|by apply IH].
  destruct (Hw eq_refl) as (written & Hrd & Hwr). cbn [snd] in Hwr.
  exists written. split; [done|].
  rewrite (Join_output root o' t') in Hwr by (apply Hl; by left).
  destruct (within_calls _ _ w1 (within_render_of tfs E root cfg l Hl'))
    as (cs & Hcs & ->).
  cbn [perform_all fs]. apply keeps_replay; [|exact Hwr].
  eapply Forall_impl; [exact Hcs|]. intros c. by apply manifest_call_keeps.
Qed.

Lemma markers_not_dirs :
  Forall (fun d => rel d ++ [".gitkeep"] ∉ layout_dirs) dirs.
Proof. apply (bool_decide_unpack _). vm_compute. exact I. Qed.

Section BlankFinal.

Variables (g : bool) (root : path) (m : filesystem) (rest : list call).
Hypothesis Hproject : project_below g root m.
Hypothesis Hroot : forall q, q ∈ prefixes root -> m !! q = Some Directory.
Hypothesis Hrest : Forall (tail_call g root) rest.

Let final : filesystem := replay (dir_calls g root ++ rest) m.

Lemma blank_calls : Forall (tail_call g root) (dir_calls g root ++ rest).
Proof. apply Forall_app_2; [apply dir_calls_tail|done]. Qed.

(** Every directory of the layout exists after the directory loop. *)
Lemma blank_dirs (l : path) :
  l ∈ layout_dirs -> final !! (root ++ l) = Some Directory.
Proof.
  intros Hl.
  apply (proj1 (Forall_forall _ _) layout_dirs_reached) in Hl.
  apply Exists_exists in Hl as (d & Hd & Hl).
  destruct (dir_calls_split g root d Hd) as (pre & post & E).
  pose proof (dir_calls_tail g root) as Hdirs. rewrite E in Hdirs.
  apply Forall_app in Hdirs as [Hpre Hdirs].
  apply Forall_app in Hdirs as [Hmid Hpost].
  apply Forall_cons in Hmid as [_ Hmid].
  assert (Forall (fun c => is_removal c = false)
            ((if g then [WriteFileCall (root ++ rel d ++ [".gitkeep"]) ""] else [])
             ++ post ++ rest)) as Hafter.
  { eapply Forall_impl; [|apply (tail_call_no_removal g root)].
    by repeat apply Forall_app_2. }
  subst final. rewrite E. rewrite <- !app_assoc. simpl app. rewrite replay_middle.
  set (m_a := replay pre m). cbn [apply_call].
  destruct ((fs_mkdir_all (root ++ rel d) m_a).2) as [err|] eqn:Em.
  - exfalso. apply fs_mkdir_all_fail in Em as (_ & q & x & Hq & Hx).
    apply (blank_not_blocked g root m Hproject Hroot pre (rel d) Hpre).
    + by apply (proj1 (Forall_forall _ _) layout_dirs_prefixes).
    + by exists q, x.
  - apply dir_stays_replay; [done|]. apply fs_mkdir_all_ok; [done|].
    apply elem_of_prefixes in Hl as [Hne Hl].
    apply elem_of_prefixes. split; [|by apply prefix_app].
    by intros [_ ?]%app_eq_nil.
Qed.

(** With the gitkeep flag every marker is an empty file. *)
Lemma blank_markers (d : string) :
  g = true -> d ∈ dirs ->
  final !! (root ++ rel d ++ [".gitkeep"]) = Some (RegFile "").
Proof.
  intros Hg Hd.
  destruct (markers_final g root rest m Hrest d Hg Hd) as [H|[H|H]]; [done| |].
  - exfalso. fold final in H. unfold final in H. apply no_mkdir_replay in H.
    + apply (Hproject (rel d ++ [".gitkeep"]) Directory) in H;
        [|by intros [_ ?]%app_eq_nil].
      by apply (proj1 (Forall_forall _ _) markers_not_dirs d Hd).
    + eapply Forall_impl; [apply blank_calls|]. intros c.
      by apply tail_call_no_mkdir.
  - exfalso. apply (blank_not_blocked g root m Hproject Hroot _ (rel d) blank_calls);
      [|exact H].
    by apply (proj1 (Forall_forall _ _) layout_dirs_prefixes).
Qed.

(** Nothing else appears below the root. *)
Lemma blank_nothing_else (l : path) :
  l <> [] -> l ∉ layout_dirs -> l ∉ generated_files g [] ->
  final !! (root ++ l) = None.
Proof.
  intros Hl Hd Hf. apply avoids_replay.
  2:{ destruct (m !! (root ++ l)) as [e|] eqn:Ek; [exfalso|done].
      pose proof (Hproject l e Hl Ek) as Hin. by destruct e. }
  eapply Forall_impl; [apply blank_calls|]. intros c Hc.
  pose proof (tail_call_writes g root c Hc) as Hw.
  destruct c; try done; unfold tail_call in Hc; unfold avoids; cbv beta iota in Hw.
  - intros Hin.
    assert (exists p0, p = root ++ p0
                       /\ Forall (fun l => l ∈ layout_dirs) (prefixes p0))
      as (p0 & -> & Hp0).
    { destruct Hc as [Hc|Hc]; apply list_elem_of_fmap in Hc as (x & -> & Hx).
      - exists (rel x). split; [done|].
        by apply (proj1 (Forall_forall _ _) layout_dirs_prefixes).
      - exists (removelast (rel x.1)). split; [done|].
        by apply (proj1 (Forall_forall _ _) template_dirs_layout). }
    apply prefixes_under in Hin as [Hin|(l' & Hl' & Heq)].
    + by apply (prefix_of_root_not_under root (root ++ l) Hin), strictly_under_app.
    + apply app_inv_head in Heq. subst l'.
      by apply Hd, (proj1 (Forall_forall _ _) Hp0).
  - intros ->. by apply Hf, (elem_of_generated_files g root l).
  - intros ->. by apply Hf, (elem_of_generated_files g root l).
Qed.

End BlankFinal.

Lemma tree_keys (cfg : Config) (o1 o2 o3 o4 : string) :
  map fst (tree cfg o1 o2 o3 o4) = layout_dirs ++ generated_files (Gitkeep cfg) [].
Proof. unfold tree. by destruct (Gitkeep cfg). Qed.

Lemma layout_markers_dirs :
  layout_markers = map (fun d => rel d ++ [".gitkeep"]) dirs.
Proof. reflexivity. Qed.

(** What [phase_tail] leaves is what the directory loop and then further
    calls of [generate] leave. *)
Lemma phase_tail_calls tfs E (root : path) (cfg : Config) (w : world) :
  exists rest,
    Forall (tail_call (Gitkeep cfg) root) rest
    /\ (phase_tail tfs E root cfg w).2
       = perform_all (dir_calls (Gitkeep cfg) root ++ rest) w.
Proof.
  unfold phase_tail, bind. rewrite phase_dirs_calls.
  destruct (within_calls _ _ (perform_all (dir_calls (Gitkeep cfg) root) w)
              (within_phase_files tfs E root cfg)) as (rest & Hrest & Heq).
  exists rest. split; [done|]. by rewrite Heq, perform_all_app.
Qed.



Lemma outputs_not_dirs :
  Forall (fun ot : string * string =>
            rel ot.1 ∉ layout_dirs /\ removelast (rel ot.1) ∈ layout_dirs
            /\ rel ot.1 <> [] /\ removelast (rel ot.1) <> []) templates.
Proof.
  repeat constructor; try done; apply (bool_decide_unpack _); vm_compute; exact I.
Qed.

Lemma removelast_shorter {A} (l : list A) :
  l <> [] -> length (removelast l) < length l.
Proof.
  intros Hl. rewrite removelast_firstn_len, length_take.
  destruct l; [done|]. simpl. lia.
Qed.

Lemma manifest_call_no_removal (root : path) (l : list (string * string)) (c : call) :
  manifest_call root l c -> is_removal c = false.
Proof. by destruct c. Qed.

(** Rendering a manifest makes a directory only on the way to an output. *)
Lemma manifest_call_no_mkdir (root : path) (l : list (string * string)) (k : path)
    (c : call) :
  l ⊆ templates -> k ∉ layout_dirs -> k <> [] ->
  manifest_call root l c -> no_mkdir (root ++ k) c.
Proof.
  intros Hl Hk Hne. destruct c; try done. unfold manifest_call, no_mkdir.
  intros (ot & -> & Hot)%list_elem_of_fmap Hin.
  apply prefixes_under in Hin as [Hin|(l' & Hl' & Heq)].
  - by apply (prefix_of_root_not_under root (root ++ k) Hin), strictly_under_app.
  - apply app_inv_head in Heq. subst l'. apply Hk.
    apply Hl in Hot.
    by apply (proj1 (Forall_forall _ _)
                (proj1 (Forall_forall _ _) template_dirs_layout ot Hot)).
Qed.

(** When the outputs of a manifest can be created, the result of rendering
    it is decided by the templates alone. *)
Lemma render_ready tfs E (root : path) (cfg : Config) (l : list (string * string))
    (w : world) :
  l ⊆ templates -> ready root (fs w) l ->
  (render tfs E root cfg l w).1 = first_error tfs E cfg l.
Proof.
  revert w. induction l as [|[o t] l IH]; intros w Hl Hready; [done|].
  assert ((o, t) ∈ templates) as Hot by (apply Hl; by left).
  assert (l ⊆ templates) as Hl' by (intros x Hx; apply Hl; by right).
  destruct (proj1 (Forall_forall _ _) outputs_not_dirs (o, t) Hot)
    as (Hnd & Hd & Hne & Hdne). cbn [fst] in *.
  destruct (Hready o t) as [Hdir Hout]; [by left|].
  cbn [render first_error]. unfold check, bind.
  pose proof (within_calls _ _ w
                (within_writeTemplate_of tfs E root [(o, t)] o t cfg Hot
                   ltac:(by left))) as (cs & Hcs & Hw).
  rewrite writeTemplate_eq in Hw |- *. cbv zeta in Hw |- *.
  destruct (tfs ("templates/" +:+ t)) as [text|]; [|done].
  destruct (Parse E t text) as [tmpl|err]; [|done].
  rewrite (Dir_output root o t Hot), (Join_output root o t Hot) in Hw |- *.
  set (w1 := perform_all [ReadTemplateCall ("templates/" +:+ t); ParseCall t;
                          MkdirAllCall (root ++ removelast (rel o))] w) in *.
  assert ((os_Create (root ++ rel o) w1).1 = None) as Hc.
  { unfold os_Create. cbn [fst].
    destruct (fs_write_cases "open" (root ++ rel o) "" (fs w1)) as [[err Hf]|(Hf & _)];
      [exfalso|by rewrite Hf].
    pose proof (fs_write_failure "open" (root ++ rel o) "" (fs w1) err) as Hwhy.
    rewrite Hf in Hwhy. destruct (Hwhy eq_refl) as [Hk|[Hk|Hk]].
    - by apply app_eq_nil in Hk as [_ ?].
    - apply Hk. rewrite removelast_app by done.
      rewrite stat_lookup by (by intros [_ ?]%app_eq_nil).
      unfold w1. cbn [perform_all fs replay foldl apply_call].
      by apply fs_mkdir_all_keeps.
    - apply Hout. unfold w1 in Hk. cbn [perform_all fs replay foldl apply_call] in Hk.
      apply fs_mkdir_all_lookup in Hk as [Hk|(_ & _ & Hin)]; [done|exfalso].
      apply prefixes_under in Hin as [Hin|(l' & Hl'' & Heq)].
      + by apply (prefix_of_root_not_under root (root ++ rel o) Hin),
          strictly_under_app.
      + apply app_inv_head in Heq. subst l'.
        apply elem_of_prefixes in Hl'' as [_ Hpre].
        apply prefix_length in Hpre.
        pose proof (removelast_shorter (rel o) Hne). lia. }
  rewrite Hc in Hw |- *.
  destruct (Execute E tmpl (context_of cfg)) as [written [err|]] eqn:He;
    cbn [fst snd] in *; [done|].
  rewrite IH; [done|done|].
  intros o' t' Hin'. destruct (Hready o' t') as [Hdir' Hout']; [by right|].
  assert ((o', t') ∈ templates) as Hot' by (by apply Hl').
  destruct (proj1 (Forall_forall _ _) outputs_not_dirs (o', t') Hot')
    as (Hnd' & _ & Hne' & _). cbn [fst] in *.
  rewrite Hw. cbn [perform_all fs]. split.
  - apply dir_stays_replay; [|done].
    eapply Forall_impl; [exact Hcs|]. apply manifest_call_no_removal.
  - intros Hk. apply Hout'. apply (no_mkdir_replay _ cs); [|done].
    eapply Forall_impl; [exact Hcs|]. intros c.
    apply manifest_call_no_mkdir; [|done|done].
    intros x Hx. apply list_elem_of_singleton in Hx. by subst x.
Qed.

Section BlankReady.

Variables (g : bool) (root : path) (m : filesystem) (rest : list call).
Hypothesis Hproject : project_below g root m.
Hypothesis Hroot : forall q, q ∈ prefixes root -> m !! q = Some Directory.
Hypothesis Hrest : Forall (tail_call g root) rest.

(** Below the root, directories are those of the layout. *)
Lemma blank_only_dirs (l : path) :
  l <> [] -> l ∉ layout_dirs ->
  replay (dir_calls g root ++ rest) m !! (root ++ l) <> Some Directory.
Proof.
  intros Hl Hd Hk. apply no_mkdir_replay in Hk.
  - by apply Hd, (Hproject l Directory).
  - eapply Forall_impl; [apply (blank_calls g root rest Hrest)|]. intros c Hc.
    destruct c; try done. unfold tail_call in Hc. unfold no_mkdir. intros Hin.
    assert (exists p0, p = root ++ p0
                       /\ Forall (fun l => l ∈ layout_dirs) (prefixes p0))
      as (p0 & -> & Hp0).
    { destruct Hc as [Hc|Hc]; apply list_elem_of_fmap in Hc as (x & -> & Hx).
      - exists (rel x). split; [done|].
        by apply (proj1 (Forall_forall _ _) layout_dirs_prefixes).
      - exists (removelast (rel x.1)). split; [done|].
        by apply (proj1 (Forall_forall _ _) template_dirs_layout). }
    apply prefixes_under in Hin as [Hin|(l' & Hl' & Heq)].
    + by apply (prefix_of_root_not_under root (root ++ l) Hin), strictly_under_app.
    + apply app_inv_head in Heq. subst l'.
      by apply Hd, (proj1 (Forall_forall _ _) Hp0).
Qed.

Lemma blank_ready : ready root (replay (dir_calls g root ++ rest) m) templates.
Proof.
  intros o t Hot.
  destruct (proj1 (Forall_forall _ _) outputs_not_dirs (o, t) Hot)
    as (Hnd & Hd & Hne & _). cbn [fst] in *. split.
  - by apply blank_dirs.
  - by apply blank_only_dirs.
Qed.

End BlankReady.



(** ** Running again: the file system *)

Lemma fs_mkdir_all_blocked (p : path) (m : filesystem) :
  blocked m p -> (fs_mkdir_all p m).1 = m.
Proof.
  intros (q & x & Hq & Hx).
  destruct ((fs_mkdir_all p m).2) as [err|] eqn:E.
  - by apply fs_mkdir_all_fail in E as [-> _].
  - pose proof (fs_mkdir_all_ok p m q E Hq) as Hd.
    apply (fs_mkdir_all_keeps p) in Hx. congruence.
Qed.

Lemma mkdir_done_after (p : path) (m : filesystem) :
  mkdir_done p (fs_mkdir_all p m).1.
Proof.
  destruct ((fs_mkdir_all p m).2) as [err|] eqn:E.
  - right. apply fs_mkdir_all_fail in E as (-> & q & x & Hq & Hx). by exists q, x.
  - left. intros q Hq. by apply fs_mkdir_all_ok.
Qed.

Lemma blocked_apply (p : path) (c : call) (m : filesystem) :
  is_removal c = false -> blocked m p -> blocked (apply_call c m) p.
Proof.
  intros Hc (q & x & Hq & Hx). destruct (file_stays q c m x Hc Hx) as [y Hy].
  by exists q, y.
Qed.

Lemma blocked_replay (p : path) (cs : list call) (m : filesystem) :
  Forall (fun c => is_removal c = false) cs -> blocked m p -> blocked (replay cs m) p.
Proof.
  intros H. revert m. induction H as [|c cs Hc Hcs IH]; intros m Hm; [done|].
  apply IH. by apply blocked_apply.
Qed.

Lemma mkdir_done_replay (p : path) (cs : list call) (m : filesystem) :
  Forall (fun c => is_removal c = false) cs -> mkdir_done p m ->
  mkdir_done p (replay cs m).
Proof.
  intros Hcs [Hd|Hb].
  - left. intros q Hq. apply dir_stays_replay; [done|by apply Hd].
  - right. by apply blocked_replay.
Qed.

Lemma mkdir_done_id (p : path) (m : filesystem) :
  mkdir_done p m -> (fs_mkdir_all p m).1 = m.
Proof.
  intros [Hd|Hb]; [by rewrite fs_mkdir_all_existing|by apply fs_mkdir_all_blocked].
Qed.

Lemma stat_dir_replay (p : path) (cs : list call) (m : filesystem) :
  Forall (fun c => is_removal c = false) cs -> stat m p = Some Directory ->
  stat (replay cs m) p = Some Directory.
Proof.
  intros Hcs. destruct p as [|c p]; [done|]. cbn [stat].
  by apply dir_stays_replay.
Qed.

Lemma prefixes_trans (q p p' : path) :
  q ∈ prefixes p -> p ∈ prefixes p' -> q ∈ prefixes p'.
Proof.
  intros [Hq Hqp]%elem_of_prefixes [_ Hpp]%elem_of_prefixes.
  apply elem_of_prefixes. split; [done|]. by etrans.
Qed.

(** Where a regular file stands on the way, no directory appears. *)
Lemma not_dir_apply (p : path) (c : call) (m : filesystem) :
  is_removal c = false -> blocked m p -> stat m p <> Some Directory ->
  stat (apply_call c m) p <> Some Directory.
Proof.
  intros Hc Hb Hn Hd. apply Hn. destruct p as [|c0 p]; [done|]. cbn [stat] in *.
  destruct c as [p0| | | | | | | | |]; try done;
    try (by eapply no_mkdir_apply; [|exact Hd]).
  cbn [apply_call] in Hd.
  destruct ((fs_mkdir_all p0 m).2) as [err|] eqn:E.
  - apply fs_mkdir_all_fail in E as (Hid & _). by rewrite Hid in Hd.
  - apply fs_mkdir_all_lookup in Hd as [Hd|(Hnone & _ & Hin)]; [done|exfalso].
    destruct Hb as (q & x & Hq & Hx).
    pose proof (fs_mkdir_all_ok p0 m q E (prefixes_trans _ _ _ Hq Hin)) as Hq'.
    apply (fs_mkdir_all_keeps p0) in Hx. congruence.
Qed.

Lemma not_dir_replay (p : path) (cs : list call) (m : filesystem) :
  Forall (fun c => is_removal c = false) cs ->
  blocked m p -> stat m p <> Some Directory ->
  stat (replay cs m) p <> Some Directory.
Proof.
  intros H. revert m. induction H as [|c cs Hc Hcs IH]; intros m Hb Hn; [done|].
  apply IH; [by apply blocked_apply|by apply not_dir_apply].
Qed.

(** A missing entry with a regular file on the way stays missing, as long
    as nothing is written in its place. *)
Lemma missing_replay (p : path) (cs : list call) (m : filesystem) :
  Forall (adds (unwritten p)) cs -> blocked m p -> stat m p = None ->
  stat (replay cs m) p = None.
Proof.
  intros Hcs Hb Hn.
  assert (Forall (fun c => is_removal c = false) cs) as Hnr.
  { eapply Forall_impl; [exact Hcs|]. by intros c [? _]. }
  assert (Forall (unwritten p) cs) as Hun.
  { eapply Forall_impl; [exact Hcs|]. by intros c [_ ?]. }
  pose proof (not_dir_replay p cs m Hnr Hb) as Hd. rewrite Hn in Hd.
  specialize (Hd ltac:(done)).
  destruct p as [|c0 p]; [done|]. cbn [stat] in *.
  destruct (replay cs m !! (c0 :: p)) as [[x|]|] eqn:E; [|done|done].
  apply unwritten_replay in E; [congruence|done].
Qed.

(** Writing again what a file already holds changes nothing. *)
Lemma fs_write_again (op : string) (k : path) (data : string) (m : filesystem) :
  m !! k = Some (RegFile data) -> k <> [] ->
  stat m (removelast k) = Some Directory ->
  fs_write op k data m = (m, None).
Proof.
  intros Hk Hne Hd. unfold fs_write. destruct k as [|c k]; [done|].
  rewrite Hd, Hk. by rewrite insert_id.
Qed.

(** A write that has failed fails again in the same way. *)
Lemma fs_write_fails_again (op : string) (k : path) (data : string) (m : filesystem)
    (cs : list call) (err : error) :
  (fs_write op k data m).2 = Some err ->
  stat m (removelast k) <> None \/ blocked m (removelast k) ->
  Forall (adds (unwritten (removelast k))) cs ->
  fs_write op k data (replay cs m) = (replay cs m, Some err).
Proof.
  intros Hf Hp Hcs.
  assert (Forall (fun c => is_removal c = false) cs) as Hnr.
  { eapply Forall_impl; [exact Hcs|]. by intros c [? _]. }
  unfold fs_write in *. destruct k as [|c k]; [by rewrite <- Hf|].
  destruct (stat m (removelast (c :: k))) as [[x|]|] eqn:Es.
  - assert (removelast (c :: k) <> []) as Hne by (by intros E; rewrite E in Es).
    rewrite stat_lookup in Es |- * by done.
    destruct (file_stays_replay _ cs m x Hnr Es) as [y ->]. by rewrite <- Hf.
  - rewrite (stat_dir_replay _ cs m Hnr Es).
    destruct (m !! (c :: k)) as [[x|]|] eqn:Ek; try done.
    rewrite (dir_stays_replay _ cs m Hnr Ek). by rewrite <- Hf.
  - destruct Hp as [Hp|Hp]; [done|].
    rewrite (missing_replay _ cs m Hcs Hp Es). by rewrite <- Hf.
Qed.

(** ** Running again: computations *)

Lemma adds_no_removal (P : call -> Prop) (cs : list call) :
  Forall (adds P) cs -> Forall (fun c => is_removal c = false) cs.
Proof. intros H. eapply Forall_impl; [exact H|]. by intros c [? _]. Qed.

Lemma adds_weaken (P Q : call -> Prop) (cs : list call) :
  (forall c, P c -> Q c) -> Forall (adds P) cs -> Forall (adds Q) cs.
Proof.
  intros H Hcs. eapply Forall_impl; [exact Hcs|].
  intros c [? ?]. split; [done|by apply H].
Qed.

Lemma adds_keeps (k : path) (c : call) : adds (unwritten k) c -> keeps k c.
Proof. intros [Hr Hu]. by destruct c. Qed.

Lemma keeps_unwritten (k : path) (c : call) : keeps k c -> unwritten k c.
Proof. by destruct c. Qed.

Lemma settled_ret {A} (root : path) (P : call -> Prop) (a : A) :
  settled root P (ret a : IO A).
Proof. by intros w cs w' _ _ Hfs. Qed.

Lemma settled_bind {A B} (root : path) (P Pm Pk Qm Qk : call -> Prop)
    (m : IO A) (k : A -> IO B) :
  settled root Pm m -> within Qm m -> (forall c, Qm c -> is_removal c = false) ->
  (forall a, settled root Pk (k a)) -> (forall a, within Qk (k a)) ->
  (forall c, Qk c -> adds Pm c) ->
  (forall c, P c -> Pm c /\ Pk c) ->
  settled root P (bind m k).
Proof.
  intros Hm Hwm Hqm Hk Hwk Hqk HP w cs w' Hroot Hcs Hfs.
  destruct (within_calls _ _ w Hwm) as (cm & Hcm & Em).
  unfold bind in *. destruct (m w) as [a w1] eqn:Ea. cbn [snd] in Em.
  destruct (within_calls _ _ w1 (Hwk a)) as (ck & Hck & Ek).
  assert (fs w' = replay (ck ++ cs) (fs w1)) as Hfs1.
  { rewrite Hfs, Ek, replay_app. done. }
  assert (Forall (adds Pm) (ck ++ cs)) as Hall.
  { apply Forall_app_2.
    - eapply Forall_impl; [exact Hck|]. apply Hqk.
    - eapply adds_weaken; [|exact Hcs]. intros c Hc. by apply HP. }
  pose proof (Hm w (ck ++ cs) w' Hroot Hall) as Hagain. rewrite Ea in Hagain.
  destruct (Hagain Hfs1) as [Ha Hfa]. cbn [fst snd] in Ha.
  destruct (m w') as [a' w1']. cbn [fst snd] in *. subst a'.
  assert (stat (fs w1) root = Some Directory) as Hroot1.
  { rewrite Em. cbn [perform_all fs]. apply stat_dir_replay; [|done].
    eapply Forall_impl; [exact Hcm|]. apply Hqm. }
  rewrite <- Hfa. apply (Hk a w1 cs w1' Hroot1).
  - eapply adds_weaken; [|exact Hcs]. intros c Hc. by apply HP.
  - by rewrite Hfa.
Qed.

Lemma settled_check (root : path) (P Pm Pk Qm Qk : call -> Prop)
    (m k : IO (option error)) :
  settled root Pm m -> within Qm m -> (forall c, Qm c -> is_removal c = false) ->
  settled root Pk k -> within Qk k ->
  (forall c, Qk c -> adds Pm c) ->
  (forall c, P c -> Pm c /\ Pk c) ->
  settled root P (check m k).
Proof.
  intros Hm Hwm Hqm Hk Hwk Hqk HP. unfold check.
  apply (settled_bind root P Pm Pk Qm Qk); try done.
  - intros [err|]; [apply settled_ret|done].
  - intros [err|]; [apply within_ret|done].
Qed.

Lemma settled_for_each {A} (root : path) (P : call -> Prop)
    (Pb Qb : A -> call -> Prop) (l : list A) (body : A -> IO unit) :
  NoDup l ->
  (forall x, x ∈ l -> settled root (Pb x) (body x)) ->
  (forall x, x ∈ l -> within (Qb x) (body x)) ->
  (forall x c, x ∈ l -> Qb x c -> is_removal c = false) ->
  (forall x y c, x ∈ l -> y ∈ l -> x <> y -> Qb y c -> Pb x c) ->
  (forall x c, x ∈ l -> P c -> Pb x c) ->
  settled root P (for_each l body).
Proof.
  induction l as [|x l IH]; intros Hnd Hs Hw Hr Hpair HP; [apply settled_ret|].
  apply NoDup_cons in Hnd as [Hx Hnd]. cbn [for_each].
  apply (settled_bind root P (Pb x) P (Qb x)
           (fun c => exists y, y ∈ l /\ Qb y c)).
  - apply Hs. by left.
  - apply Hw. by left.
  - intros c. apply Hr. by left.
  - intros _. apply IH; [done| | | | |].
    + intros y Hy. apply Hs. by right.
    + intros y Hy. apply Hw. by right.
    + intros y c Hy. apply Hr. by right.
    + intros y z c Hy Hz. apply Hpair; by right.
    + intros y c Hy. apply HP. by right.
  - intros _. apply within_for_each. intros y Hy.
    eapply within_weaken; [|apply Hw; by right]. intros c Hc. by exists y.
  - intros c (y & Hy & Hc). split.
    + apply (Hr y); [by right|done].
    + apply (Hpair x y); [by left|by right| |done]. by intros ->.
  - intros c Hc. split; [|done]. apply HP; [by left|done].
Qed.

(** ** Running again: the steps of [generate] *)

Lemma fs_write_no_parent (op : string) (k : path) (data : string) (m : filesystem) :
  stat m (removelast k) <> Some Directory -> (fs_write op k data m).1 = m.
Proof.
  intros Hn. unfold fs_write. destruct k as [|c k]; [done|].
  by destruct (stat m (removelast (c :: k))) as [[x|]|].
Qed.

Lemma fs_write_on_dir (op : string) (k : path) (data : string) (m : filesystem) :
  m !! k = Some Directory -> (fs_write op k data m).1 = m.
Proof.
  intros Hd. unfold fs_write. destruct k as [|c k]; [done|].
  destruct (stat m (removelast (c :: k))) as [[x|]|]; [done| |done].
  by rewrite Hd.
Qed.

(** A write that has failed although its directory was there fails again
    in the same way. *)
Lemma fs_write_fails_again_dir (op : string) (k : path) (data : string)
    (m : filesystem) (cs : list call) (err : error) :
  (fs_write op k data m).2 = Some err ->
  stat m (removelast k) = Some Directory ->
  Forall (fun c => is_removal c = false) cs ->
  fs_write op k data (replay cs m) = (replay cs m, Some err).
Proof.
  intros Hf Hd Hnr. unfold fs_write in *. destruct k as [|c k]; [by rewrite <- Hf|].
  rewrite Hd in Hf. rewrite (stat_dir_replay _ cs m Hnr Hd).
  destruct (m !! (c :: k)) as [[x|]|] eqn:Ek; try done.
  rewrite (dir_stays_replay _ cs m Hnr Ek). by rewrite <- Hf.
Qed.

(** A file that has been written, and not written since, is written again
    without change. *)
Lemma fs_write_settled (op : string) (k : path) (data : string) (m : filesystem)
    (cs : list call) :
  (fs_write op k data m).2 = None ->
  Forall (adds (unwritten k)) cs ->
  fs_write op k data (replay cs (fs_write op k data m).1)
    = (replay cs (fs_write op k data m).1, None).
Proof.
  intros Hok Hcs. apply fs_write_ok in Hok as (Hw & Hne & Hd). rewrite Hw.
  apply fs_write_again; [|done|].
  - apply keeps_replay; [|by rewrite lookup_insert_eq].
    eapply Forall_impl; [exact Hcs|]. apply adds_keeps.
  - apply stat_dir_replay; [by eapply adds_no_removal|].
    destruct (removelast k) as [|c0 k0] eqn:Ek; [done|]. cbn [stat] in *.
    rewrite lookup_insert_ne; [done|]. intros E0.
    pose proof (removelast_shorter k Hne) as Hlen. rewrite Ek, <- E0 in Hlen.
    lia.
Qed.

(** One round of the directory loop: creating the directory, writing the
    marker. *)
Lemma settled_dir_round (root : path) (g : bool) (p : path) (c0 : string) :
  p <> [] ->
  settled root (unwritten (p ++ [c0]))
    (run! os_MkdirAll p ;;
     if g then run! os_WriteFile (p ++ [c0]) "" ;; ret tt else ret tt).
Proof.
  intros Hp w cs w' _ Hcs Hfs. set (k := p ++ [c0]) in *.
  pose proof (adds_no_removal _ cs Hcs) as Hnr.
  assert (removelast k = p) as Hparent by (unfold k; apply removelast_snoc).
  unfold bind, os_MkdirAll, os_WriteFile, ret in *. destruct g.
  - cbn [fst snd perform fs apply_call] in *. split; [done|].
    set (m_a := (fs_mkdir_all p (fs w)).1) in *.
    assert (mkdir_done p (fs w')) as Hdone.
    { rewrite Hfs. apply mkdir_done_replay; [done|].
      apply (mkdir_done_replay p [WriteFileCall k ""]); [by repeat constructor|].
      apply mkdir_done_after. }
    rewrite (mkdir_done_id p (fs w') Hdone).
    destruct ((fs_write "open" k "" m_a).2) as [err|] eqn:Ew.
    + pose proof (fs_write_failure "open" k "" m_a err Ew) as Hwhy.
      apply fs_write_fail in Ew. rewrite Ew in Hfs.
      destruct Hwhy as [Hk|[Hk|Hk]].
      * by apply app_eq_nil in Hk as [_ ?].
      * apply fs_write_no_parent. rewrite Hparent in *. rewrite Hfs.
        apply not_dir_replay; [done| |done].
        destruct (mkdir_done_after p (fs w)) as [Hd|Hb]; [|done].
        exfalso. apply Hk. rewrite stat_lookup by done. apply Hd.
        by apply elem_of_prefixes.
      * apply fs_write_on_dir. rewrite Hfs. by apply dir_stays_replay.
    + rewrite Hfs. by rewrite (fs_write_settled "open" k "" m_a cs Ew Hcs).
  - cbn [fst snd perform fs apply_call] in *. split; [done|].
    apply mkdir_done_id. rewrite Hfs. apply mkdir_done_replay; [done|].
    apply mkdir_done_after.
Qed.

(** Writing a static file in the root. *)
Lemma settled_static (root : path) (n data : string) :
  settled root (unwritten (root ++ [n])) (os_WriteFile (root ++ [n]) data).
Proof.
  intros w cs w' Hroot Hcs Hfs. set (k := root ++ [n]) in *.
  pose proof (adds_no_removal _ cs Hcs) as Hnr.
  unfold os_WriteFile in *. cbn [fst snd perform fs apply_call] in *.
  destruct ((fs_write "open" k data (fs w)).2) as [err|] eqn:Ew.
  - pose proof (fs_write_fail _ _ _ _ _ Ew) as Hid. rewrite Hid in Hfs.
    rewrite Hfs, (fs_write_fails_again_dir "open" k data (fs w) cs err Ew); [done| |done].
    unfold k. by rewrite removelast_snoc.
  - rewrite Hfs. by rewrite (fs_write_settled "open" k data (fs w) cs Ew Hcs).
Qed.

Lemma fs_write_over (op : string) (k : path) (x data : string) (m : filesystem) :
  m !! k = Some (RegFile x) -> k <> [] ->
  stat m (removelast k) = Some Directory ->
  fs_write op k data m = (<[k := RegFile data]> m, None).
Proof.
  intros Hk Hne Hd. unfold fs_write. destruct k as [|c k]; [done|].
  by rewrite Hd, Hk.
Qed.

Lemma mkdir_done_insert (d k : path) (x : string) (m : filesystem) :
  mkdir_done d m -> k ∉ prefixes d -> mkdir_done d (<[k := RegFile x]> m).
Proof.
  intros [Hd|(q & y & Hq & Hy)] Hk.
  - left. intros q Hq. rewrite lookup_insert_ne; [by apply Hd|]. by intros ->.
  - right. exists q, y. split; [done|].
    rewrite lookup_insert_ne; [done|]. by intros ->.
Qed.

(** Rendering a template. *)
Lemma settled_writeTemplate tfs E (root : path) (o t : string) (cfg : Config) :
  let out := filepath_Join root o in
  settled root (fun c => unwritten out c /\ unwritten (filepath_Dir out) c)
    (writeTemplate tfs E root o t cfg).
Proof.
  intros out w cs w' _ Hcs Hfs.
  assert (Forall (adds (unwritten out)) cs) as Hcs1.
  { eapply adds_weaken; [|exact Hcs]. by intros c [? _]. }
  assert (Forall (adds (unwritten (filepath_Dir out))) cs) as Hcs2.
  { eapply adds_weaken; [|exact Hcs]. by intros c [_ ?]. }
  pose proof (adds_no_removal _ cs Hcs) as Hnr.
  rewrite !writeTemplate_eq in *. cbv zeta in *. fold out in Hfs |- *.
  destruct (tfs ("templates/" +:+ t)) as [text|]; [|done].
  destruct (Parse E t text) as [tmpl|err]; [|done].
  unfold os_Create in *.
  cbn [fst snd perform perform_all fs replay foldl apply_call] in *.
  set (d := filepath_Dir out) in *.
  assert (mkdir_done d (fs_mkdir_all d (fs w)).1) as Hdone by apply mkdir_done_after.
  destruct ((fs_write "open" out "" (fs_mkdir_all d (fs w)).1).2) as [err|] eqn:Ec;
    cbn [fst snd perform perform_all fs replay foldl apply_call] in *;
    set (m1 := (fs_mkdir_all d (fs w)).1) in *.
  - pose proof (fs_write_fail _ _ _ _ _ Ec) as Hid. rewrite Hid in Hfs.
    assert ((fs_mkdir_all d (fs w')).1 = fs w') as Hmk.
    { apply mkdir_done_id. rewrite Hfs. by apply mkdir_done_replay. }
    assert (fs_write "open" out "" (fs w') = (fs w', Some err)) as Hagain.
    { rewrite Hfs. apply fs_write_fails_again; [done| |done].
      destruct Hdone as [Hd|Hb]; [left|by right].
      change (removelast out) with d.
      destruct (decide (d = [])) as [->|Hdne]; [done|].
      rewrite stat_lookup by done. rewrite Hd; [done|].
      by apply elem_of_prefixes. }
    rewrite Hmk, Hagain. cbn [fst snd perform perform_all fs replay foldl apply_call].
    by rewrite Hmk, Hagain.
  - pose proof (fs_write_ok _ _ _ _ Ec) as (Hw & Hne & Hd).
    set (written := (Execute E tmpl (context_of cfg)).1) in *.
    assert (fs_write_handle out written (fs_write "open" out "" m1).1
            = <[out := RegFile written]> m1) as Hm2.
    { rewrite Hw. unfold fs_write_handle. rewrite lookup_insert_eq.
      by rewrite insert_insert_eq. }
    rewrite Hm2 in Hfs.
    assert (fs w' !! out = Some (RegFile written)) as Hout.
    { rewrite Hfs. apply keeps_replay; [|by rewrite lookup_insert_eq].
      eapply Forall_impl; [exact Hcs1|]. apply adds_keeps. }
    change (removelast out) with d in Hd.
    assert (stat (<[out := RegFile written]> m1) d = Some Directory) as Hd2.
    { destruct (decide (d = [])) as [Hdn|Hdne]; [by rewrite Hdn|].
      rewrite stat_lookup in Hd |- * by done.
      rewrite lookup_insert_ne; [done|]. intros E0.
      pose proof (removelast_shorter out Hne) as Hlen.
      change (removelast out) with d in Hlen. rewrite <- E0 in Hlen. lia. }
    assert ((fs_mkdir_all d (fs w')).1 = fs w') as Hmk.
    { apply mkdir_done_id. rewrite Hfs. apply mkdir_done_replay; [done|].
      apply mkdir_done_insert; [done|].
      intros [_ Hin]%elem_of_prefixes. apply prefix_length in Hin.
      pose proof (removelast_shorter out Hne) as Hlen.
      change (removelast out) with d in Hlen. lia. }
    rewrite Hmk.
    assert (fs_write "open" out "" (fs w') = (<[out := RegFile ""]> (fs w'), None))
      as Hagain.
    { apply (fs_write_over "open" out written ""); [done|done|].
      change (removelast out) with d. rewrite Hfs. by apply stat_dir_replay. }
    rewrite Hagain. cbn [fst snd perform perform_all fs replay foldl apply_call].
    rewrite Hmk, Hagain. cbn [fst snd]. split; [done|].
    unfold fs_write_handle. rewrite lookup_insert_eq, insert_insert_eq.
    by apply insert_id.
Qed.

(** ** Running again: [generate] *)

Lemma dirs_distinct : NoDup dirs.
Proof. apply (bool_decide_unpack _). vm_compute. exact I. Qed.

Lemma markers_distinct :
  Forall (fun x => Forall (fun y => x <> y ->
            rel y ++ [".gitkeep"] <> rel x ++ [".gitkeep"]) dirs) dirs.
Proof. apply (bool_decide_unpack _). vm_compute. exact I. Qed.

Lemma within_dir_round (root : path) (cfg : Config) (d : string) :
  d ∈ dirs ->
  within (dir_round (Gitkeep cfg) root d)
    (run! os_MkdirAll (filepath_Join root d) ;;
     if Gitkeep cfg then
       run! os_WriteFile (filepath_Join (filepath_Join root d) ".gitkeep") "" ;; ret tt
     else ret tt).
Proof.
  intros Hd. rewrite (Join_marker root d Hd), (Join_dir root d Hd).
  apply within_bind; [apply within_os_MkdirAll; by left|].
  intros _. destruct (Gitkeep cfg) eqn:G; [|apply within_ret].
  apply within_bind; [|intros _; apply within_ret].
  apply within_os_WriteFile. by right.
Qed.

Lemma settled_phase_dirs (root : path) (cfg : Config) :
  settled root
    (fun c => forall d, d ∈ dirs -> unwritten (root ++ rel d ++ [".gitkeep"]) c)
    (phase_dirs root cfg).
Proof.
  unfold phase_dirs.
  apply (settled_for_each root _
           (fun d => unwritten (root ++ rel d ++ [".gitkeep"]))
           (dir_round (Gitkeep cfg) root)).
  - apply dirs_distinct.
  - intros d Hd. cbv zeta. rewrite (Join_marker root d Hd), (Join_dir root d Hd).
    rewrite app_assoc. apply settled_dir_round. by apply dir_path_nonempty.
  - intros d Hd. by apply within_dir_round.
  - intros d c _ [->|[_ ->]]; done.
  - intros x y c Hx Hy Hxy [->|[_ ->]]; [done|].
    cbn [unwritten]. intros E0%app_inv_head.
    by apply (proj1 (Forall_forall _ _)
                (proj1 (Forall_forall _ _) markers_distinct x Hx) y Hy Hxy).
  - intros d c Hd Hc. by apply Hc.
Qed.

Lemma template_dirs_not_outputs :
  Forall (fun ot : string * string =>
            removelast (rel ot.1) ∉ map (fun ot : string * string => rel ot.1) templates)
    templates.
Proof. apply (bool_decide_unpack _). vm_compute. exact I. Qed.

Lemma settled_render tfs E (root : path) (cfg : Config) (l : list (string * string)) :
  l ⊆ templates -> NoDup (map (fun ot : string * string => rel ot.1) l) ->
  settled root (fun _ => False) (render tfs E root cfg l).
Proof.
  induction l as [|[o t] l IH]; intros Hl Hnd; [apply settled_ret|].
  assert ((o, t) ∈ templates) as Hot by (apply Hl; by left).
  assert (l ⊆ templates) as Hl' by (intros x Hx; apply Hl; by right).
  cbn [map] in Hnd. apply NoDup_cons in Hnd as [Hfresh Hnd]. cbn [fst] in Hfresh.
  cbn [render].
  apply (settled_check root _
           (fun c => unwritten (root ++ rel o) c
                     /\ unwritten (root ++ removelast (rel o)) c)
           (fun _ => False)
           (manifest_call root [(o, t)]) (manifest_call root l)).
  - pose proof (settled_writeTemplate tfs E root o t cfg) as H. cbv zeta in H.
    by rewrite (Dir_output root o t Hot), (Join_output root o t Hot) in H.
  - apply within_writeTemplate_of; [done|by left].
  - apply manifest_call_no_removal.
  - by apply IH.
  - by apply within_render_of.
  - intros c Hc. split; [by eapply manifest_call_no_removal|]. split.
    + by apply keeps_unwritten, (manifest_call_keeps root l).
    + apply keeps_unwritten, (manifest_call_keeps root l); [|done].
      intros Hin.
      apply (proj1 (Forall_forall _ _) template_dirs_not_outputs (o, t) Hot).
      cbn [fst]. apply list_elem_of_fmap in Hin as (ot & Heq & Hin').
      apply list_elem_of_fmap. exists ot. split; [done|by apply Hl'].
  - done.
Qed.

Lemma static_not_output :
  Forall (fun n => [n] ∉ map (fun ot : string * string => rel ot.1) templates)
    ["go.mod"; "Makefile"].
Proof. apply (bool_decide_unpack _). vm_compute. exact I. Qed.

Lemma settled_phase_files tfs E (root : path) (cfg : Config) :
  settled root (fun _ => False) (phase_files tfs E root cfg).
Proof.
  unfold phase_files, writeGoMod, writeMakefile. cbv zeta.
  rewrite Join_go_mod, Join_Makefile.
  set (makefile := WriteFileCall (root ++ ["Makefile"]) (Makefile_content (Port cfg))).
  apply (settled_check root _ (unwritten (root ++ ["go.mod"])) (fun _ => False)
           (fun c => is_removal c = false)
           (fun c => c = makefile \/ manifest_call root templates c)).
  - apply settled_static.
  - by apply within_os_WriteFile.
  - done.
  - apply (settled_check root _ (unwritten (root ++ ["Makefile"])) (fun _ => False)
             (fun c => is_removal c = false) (manifest_call root templates)).
    + apply settled_static.
    + by apply within_os_WriteFile.
    + done.
    + apply settled_render; [done|apply templates_outputs_distinct].
    + by apply within_render_of.
    + intros c Hc. split; [by eapply manifest_call_no_removal|].
      apply keeps_unwritten, (manifest_call_keeps root templates); [|done].
      apply (proj1 (Forall_forall _ _) static_not_output). by do 2 constructor.
    + done.
  - apply within_check.
    + apply within_os_WriteFile. by left.
    + eapply within_weaken; [|by apply (within_render_of tfs E root cfg templates)].
      intros c Hc. by right.
  - intros c [->|Hc].
    + split; [done|]. cbn [unwritten]. by intros E0%app_inv_head.
    + split; [by eapply manifest_call_no_removal|].
      apply keeps_unwritten, (manifest_call_keeps root templates); [|done].
      apply (proj1 (Forall_forall _ _) static_not_output). by constructor.
  - done.
Qed.

Lemma within_phase_files_plain tfs E (root : path) (cfg : Config) :
  within (tail_call false root) (phase_files tfs E root cfg).
Proof.
  unfold phase_files.
  apply within_check.
  { apply within_os_WriteFile. by left. }
  apply within_check.
  { apply within_os_WriteFile. right. by left. }
  eapply within_weaken; [apply render_call_tail|]. by apply within_render.
Qed.

Lemma settled_phase_tail tfs E (root : path) (cfg : Config) :
  settled root (fun _ => False) (phase_tail tfs E root cfg).
Proof.
  unfold phase_tail.
  apply (settled_bind root _
           (fun c => forall d, d ∈ dirs -> unwritten (root ++ rel d ++ [".gitkeep"]) c)
           (fun _ => False)
           (tail_call (Gitkeep cfg) root) (tail_call false root)).
  - apply settled_phase_dirs.
  - apply within_phase_dirs.
  - apply tail_call_no_removal.
  - intros _. apply settled_phase_files.
  - intros _. apply within_phase_files_plain.
  - intros c Hc. split; [by eapply tail_call_no_removal|].
    intros d Hd. apply (tail_call_unwritten root); [|done].
    rewrite app_assoc. apply last_snoc.
  - done.
Qed.



(** ** The gitkeep flag adds markers and nothing else *)

Lemma utm_refl (root : path) (m : filesystem) : up_to_markers root m m.
Proof. intros k. by left. Qed.

Lemma utm_outside (root : path) (m1 m2 : filesystem) (k : path) :
  up_to_markers root m1 m2 -> k ∉ markers root -> m1 !! k = m2 !! k.
Proof. intros H Hk. by destruct (H k) as [E|[Hin _]]. Qed.

Lemma root_not_marker (root : path) : root ∉ markers root.
Proof.
  intros (d & E & _)%list_elem_of_fmap.
  apply (f_equal length) in E. rewrite !length_app in E. simpl in E. lia.
Qed.

Lemma utm_stat (root : path) (m1 m2 : filesystem) (p : path) :
  up_to_markers root m1 m2 -> p ∉ markers root -> stat m1 p = stat m2 p.
Proof.
  intros H Hp. destruct p as [|c p]; [done|]. cbn [stat]. by apply (utm_outside root).
Qed.

Lemma find_agree {A} (f g : A -> bool) (l : list A) :
  (forall x, x ∈ l -> f x = g x) -> find f l = find g l.
Proof.
  induction l as [|x l IH]; intros H; simpl; [done|].
  rewrite (H x) by set_solver. destruct (g x); [done|]. apply IH.
  intros y Hy. apply H. set_solver.
Qed.

Lemma utm_mkdir_all (root : path) (m1 m2 : filesystem) (p : path) :
  up_to_markers root m1 m2 -> blind root (MkdirAllCall p) ->
  (fs_mkdir_all p m1).2 = (fs_mkdir_all p m2).2
  /\ up_to_markers root (fs_mkdir_all p m1).1 (fs_mkdir_all p m2).1.
Proof.
  intros H Hb. unfold fs_mkdir_all.
  rewrite (find_agree (is_file m1) (is_file m2)).
  2:{ intros q Hq. unfold is_file. rewrite (utm_outside root m1 m2 q H); [done|].
      intros Hin. by apply (Hb q Hin). }
  destruct (find (is_file m2) (prefixes p)) as [q|]; simpl; [done|].
  split; [done|]. intros k. rewrite !lookup_mkdirs.
  destruct (H k) as [->|[Hin ->]]; [by left|]. by right.
Qed.

Lemma utm_write (root : path) (m1 m2 : filesystem) (op : string) (p : path)
    (data : string) :
  up_to_markers root m1 m2 -> p ∉ markers root -> removelast p ∉ markers root ->
  (fs_write op p data m1).2 = (fs_write op p data m2).2
  /\ up_to_markers root (fs_write op p data m1).1 (fs_write op p data m2).1.
Proof.
  intros H Hp Hd. unfold fs_write. destruct p as [|c p]; [done|].
  rewrite (utm_stat root m1 m2 _ H Hd), (utm_outside root m1 m2 _ H Hp).
  destruct (stat m2 (removelast (c :: p))) as [[x|]|]; simpl; try done.
  assert (up_to_markers root (<[c :: p := RegFile data]> m1)
            (<[c :: p := RegFile data]> m2)) as Hins.
  { intros k. destruct (decide (k = c :: p)) as [->|Hk].
    - left. by rewrite !lookup_insert_eq.
    - rewrite !lookup_insert_ne by done. apply H. }
  destruct (m2 !! (c :: p)) as [[x|]|]; simpl; done.
Qed.

Lemma utm_write_handle (root : path) (m1 m2 : filesystem) (p : path) (out : string) :
  up_to_markers root m1 m2 -> p ∉ markers root ->
  up_to_markers root (fs_write_handle p out m1) (fs_write_handle p out m2).
Proof.
  intros H Hp. unfold fs_write_handle. rewrite (utm_outside root m1 m2 _ H Hp).
  destruct (m2 !! p) as [[x|]|]; try done.
  intros k. destruct (decide (k = p)) as [->|Hk].
  - left. by rewrite !lookup_insert_eq.
  - rewrite !lookup_insert_ne by done. apply H.
Qed.

(** Writing a marker on one side. *)
Lemma utm_marker (root : path) (m1 m2 : filesystem) (k : path) :
  up_to_markers root m1 m2 -> k ∈ markers root ->
  up_to_markers root (fs_write "open" k "" m1).1 m2.
Proof.
  intros H Hk k'.
  destruct (fs_write_cases "open" k "" m1) as [[err ->]|[-> _]]; simpl; [apply H|].
  destruct (decide (k' = k)) as [->|Hne].
  - right. by rewrite lookup_insert_eq.
  - rewrite lookup_insert_ne by done. apply H.
Qed.

Lemma blind_apply (root : path) (c : call) (m1 m2 : filesystem) :
  up_to_markers root m1 m2 -> blind root c ->
  up_to_markers root (apply_call c m1) (apply_call c m2).
Proof.
  intros H Hb. destruct c; simpl in *; try done.
  - by apply utm_mkdir_all.
  - destruct Hb. by apply utm_write.
  - destruct Hb. by apply utm_write.
  - by apply utm_write_handle.
Qed.

Lemma alike_ret {A} (root : path) (a : A) : alike root (ret a : IO A) (ret a).
Proof. by intros w1 w2 H. Qed.

Lemma alike_bind {A B} (root : path) (m1 m2 : IO A) (k1 k2 : A -> IO B) :
  alike root m1 m2 -> (forall a, alike root (k1 a) (k2 a)) ->
  alike root (bind m1 k1) (bind m2 k2).
Proof.
  intros Hm Hk w1 w2 H. unfold bind. destruct (Hm w1 w2 H) as [E H'].
  destruct (m1 w1) as [a1 w1'], (m2 w2) as [a2 w2']. simpl in *. subst a2.
  by apply Hk.
Qed.

Lemma alike_check (root : path) (m1 m2 k1 k2 : IO (option error)) :
  alike root m1 m2 -> alike root k1 k2 -> alike root (check m1 k1) (check m2 k2).
Proof.
  intros Hm Hk. apply alike_bind; [done|]. intros [err|]; [apply alike_ret|done].
Qed.

Lemma alike_for_each {A} (root : path) (l : list A) (body1 body2 : A -> IO unit) :
  (forall x, x ∈ l -> alike root (body1 x) (body2 x)) ->
  alike root (for_each l body1) (for_each l body2).
Proof.
  induction l as [|x l IH]; intros H; simpl; [apply alike_ret|].
  apply alike_bind; [apply H; by left|]. intros _. apply IH.
  intros y Hy. apply H. by right.
Qed.

(** A primitive: one blind call, and a result that does not depend on
    markers. *)
Lemma alike_call {A} (root : path) (c : call) (f : filesystem -> A) :
  blind root c ->
  (forall m1 m2, up_to_markers root m1 m2 -> f m1 = f m2) ->
  alike root (fun w => (f (fs w), perform c w)) (fun w => (f (fs w), perform c w)).
Proof.
  intros Hb Hf w1 w2 H. simpl. split; [by apply Hf|]. by apply blind_apply.
Qed.

Lemma alike_os_MkdirAll (root p : path) :
  blind root (MkdirAllCall p) -> alike root (os_MkdirAll p) (os_MkdirAll p).
Proof.
  intros Hb. apply (alike_call root _ (fun m => (fs_mkdir_all p m).2)); [done|].
  intros m1 m2 H. by apply (utm_mkdir_all root).
Qed.

Lemma alike_os_WriteFile (root p : path) (data : string) :
  blind root (WriteFileCall p data) ->
  alike root (os_WriteFile p data) (os_WriteFile p data).
Proof.
  intros Hb. apply (alike_call root _ (fun m => (fs_write "open" p data m).2)); [done|].
  intros m1 m2 H. destruct Hb. by apply (utm_write root).
Qed.

Lemma alike_os_Create (root p : path) :
  blind root (CreateCall p) -> alike root (os_Create p) (os_Create p).
Proof.
  intros Hb. apply (alike_call root _ (fun m => (fs_write "open" p "" m).2)); [done|].
  intros m1 m2 H. destruct Hb. by apply (utm_write root).
Qed.

Lemma alike_template_Execute (root : path) E tmpl (p : path) data :
  p ∉ markers root ->
  alike root (template_Execute E tmpl p data) (template_Execute E tmpl p data).
Proof.
  intros Hp. unfold template_Execute. destruct (Execute E tmpl data) as [out r].
  by apply (alike_call root (ExecuteCall p out) (fun _ => r)).
Qed.

(** The marker write of the directory loop, against no write at all. *)
Lemma alike_marker (root k : path) :
  k ∈ markers root ->
  alike root (run! os_WriteFile k "" ;; ret tt) (ret tt).
Proof.
  intros Hk w1 w2 H. unfold bind, os_WriteFile, ret. simpl. split; [done|].
  by apply utm_marker.
Qed.

Lemma tail_call_blind (root : path) (c : call) :
  tail_call false root c -> blind root c.
Proof.
  intros Hc.
  assert (forall k, k ∈ markers root ->
            last k = Some ".gitkeep" /\ exists d, d ∈ dirs /\ k = root ++ rel d ++ [".gitkeep"])
    as Hm.
  { intros k (d & -> & Hd)%list_elem_of_fmap. split; [|by exists d].
    by rewrite app_assoc, last_snoc. }
  destruct c as [p|p|p|p data|n|n|p|p out|p|op n]; cbn [blind]; try done.
  - intros k Hk. destruct (Hm k Hk) as (_ & d & Hd & ->).
    by apply (tail_call_no_mkdir false root d (MkdirAllCall p)).
  - split.
    + intros Hk. destruct (Hm p Hk) as [Hl _].
      by apply (tail_call_unwritten root p (WriteFileCall p data) Hl Hc).
    + destruct Hc as [->|[->|(? & _)]]; [| |done];
        rewrite removelast_snoc; apply root_not_marker.
  - split.
    + intros Hk. destruct (Hm p Hk) as [Hl _].
      by apply (tail_call_unwritten root p (CreateCall p) Hl Hc).
    + cbn [tail_call] in Hc. apply list_elem_of_fmap in Hc as ([o t] & -> & Hot).
      intros (d & E & Hd)%list_elem_of_fmap.
      destruct (proj1 (Forall_forall _ _) templates_plain (o, t) Hot) as [_ Hne].
      simpl in *. rewrite removelast_app in E by done. apply app_inv_head in E.
      destruct (proj1 (Forall_forall _ _) manifest_no_marker d Hd) as [_ H2].
      apply (proj1 (Forall_forall _ _) H2 (o, t) Hot). simpl. by rewrite E.
  - intros Hk. destruct (Hm p Hk) as [Hl _].
    by apply (tail_call_unwritten root p (ExecuteCall p out) Hl Hc).
Qed.

Lemma alike_writeTemplate tfs E (root : path) (o t : string) (cfg : Config) (g1 g2 : bool) :
  (o, t) ∈ templates ->
  alike root (writeTemplate tfs E root o t (with_gitkeep g1 cfg))
             (writeTemplate tfs E root o t (with_gitkeep g2 cfg)).
Proof.
  intros H. unfold writeTemplate. cbn [ModuleName Port with_gitkeep].
  assert (root ++ rel o ∈ map (fun ot => root ++ rel ot.1) templates) as Hout.
  { apply list_elem_of_fmap. by exists (o, t). }
  apply alike_bind.
  { by apply (alike_call root _ (fun _ =>
      match tfs ("templates/" +:+ t) with
      | Some text => inl text
      | None => inr (PathError "open" ("templates/" +:+ t) ENOENT)
      end)). }
  intros [text|err]; [|apply alike_ret].
  apply alike_bind.
  { by apply (alike_call root _ (fun _ => Parse E t text)). }
  intros [tmpl|err]; [|apply alike_ret].
  rewrite (Dir_output root o t H), (Join_output root o t H).
  apply alike_bind.
  { apply alike_os_MkdirAll. apply tail_call_blind. right.
    apply list_elem_of_fmap. by exists (o, t). }
  intros _. apply alike_bind.
  { apply alike_os_Create. by apply tail_call_blind. }
  intros [err|]; [apply alike_ret|].
  apply alike_bind.
  { apply alike_template_Execute.
    by apply (tail_call_blind root (ExecuteCall (root ++ rel o) "")). }
  intros r. apply alike_bind; [|intros _; apply alike_ret].
  by apply (alike_call root (CloseCall (root ++ rel o)) (fun _ => tt)).
Qed.

Lemma alike_render tfs E (root : path) (cfg : Config) (g1 g2 : bool)
    (l : list (string * string)) :
  l ⊆ templates ->
  alike root (render tfs E root (with_gitkeep g1 cfg) l)
             (render tfs E root (with_gitkeep g2 cfg) l).
Proof.
  induction l as [|[o t] l IH]; intros H; simpl; [apply alike_ret|].
  apply alike_check.
  - apply alike_writeTemplate. apply H. by left.
  - apply IH. intros x Hx. apply H. by right.
Qed.

Lemma alike_phase_files tfs E (root : path) (cfg : Config) (g1 g2 : bool) :
  alike root (phase_files tfs E root (with_gitkeep g1 cfg))
             (phase_files tfs E root (with_gitkeep g2 cfg)).
Proof.
  unfold phase_files. cbn [ModuleName Port with_gitkeep].
  apply alike_check.
  { apply alike_os_WriteFile. apply tail_call_blind. by left. }
  apply alike_check.
  { apply alike_os_WriteFile. apply tail_call_blind. right. by left. }
  by apply alike_render.
Qed.

Lemma alike_phase_dirs (root : path) (cfg : Config) :
  alike root (phase_dirs root (with_gitkeep true cfg))
             (phase_dirs root (with_gitkeep false cfg)).
Proof.
  unfold phase_dirs. cbn [Gitkeep with_gitkeep].
  apply alike_for_each. intros d Hd. cbv beta zeta.
  rewrite (Join_marker root d Hd), (Join_dir root d Hd).
  apply alike_bind.
  { apply alike_os_MkdirAll. apply tail_call_blind. left.
    apply list_elem_of_fmap. by exists d. }
  intros _. apply alike_marker. apply list_elem_of_fmap. by exists d.
Qed.

Lemma alike_phase_tail tfs E (root : path) (cfg : Config) :
  alike root (phase_tail tfs E root (with_gitkeep true cfg))
             (phase_tail tfs E root (with_gitkeep false cfg)).
Proof.
  unfold phase_tail. apply alike_bind; [apply alike_phase_dirs|]. intros _.
  apply alike_phase_files.
Qed.

(** X12. The gitkeep flag changes nothing but the markers: run on the
    same world with and without the flag, [generate] returns the same
    result, and the two file systems differ at most in marker files of the
    manifest directories, which are empty files in the run with the
    flag. *)
Theorem X12_gitkeep_adds_only_markers tfs E (cwd : path) (cfg : Config) (w : world) :
  let root := filepath_Abs cwd (Root cfg) in
  let flagged := generate tfs E cwd (with_gitkeep true cfg) w in
  let unflagged := generate tfs E cwd (with_gitkeep false cfg) w in
  flagged.1 = unflagged.1
  /\ (forall k, k ∉ markers root -> fs flagged.2 !! k = fs unflagged.2 !! k)
  /\ (forall k, k ∈ markers root ->
        fs flagged.2 !! k = fs unflagged.2 !! k
        \/ fs flagged.2 !! k = Some (RegFile "")).
Proof.
  intros root flagged unflagged.
  assert (flagged.1 = unflagged.1
          /\ up_to_markers root (fs flagged.2) (fs unflagged.2)) as [Hr Hfs].
  { subst flagged unflagged.
    destruct (String.eqb_spec (Root cfg) "") as [E0|Hne].
    { rewrite !generate_empty_root by done. split; [done|]. apply utm_refl. }
    rewrite (generate_shape tfs E cwd (with_gitkeep true cfg) w) by done.
    rewrite (generate_shape tfs E cwd (with_gitkeep false cfg) w) by done.
    cbn [Root with_gitkeep]. fold root.
    destruct ((fs_mkdir_all root (fs w)).2) as [err|]; [split; [done|apply utm_refl]|].
    apply alike_phase_tail. apply utm_refl. }
  split; [done|]. split.
  - intros k Hk. by apply (utm_outside root).
  - intros k Hk. destruct (Hfs k) as [->|[_ ->]]; auto.
Qed.

(** ** What success means *)

(** X13. A run of [generate] that succeeds, on any file system, has found,
    parsed and executed without error every template of the manifest, and
    at its end each of the four output files holds what its template
    rendered to with the module name and the port of the configuration. *)
Theorem X13_success_means_rendered tfs E (cwd : path) (cfg : Config) (w : world) :
  let root := filepath_Abs cwd (Root cfg) in
  let run := generate tfs E cwd cfg w in
  run.1 = None ->
  forall o t, (o, t) ∈ templates ->
    exists text tmpl written,
      tfs ("templates/" +:+ t) = Some text
      /\ Parse E t text = inl tmpl
      /\ Execute E tmpl (context_of cfg) = (written, None)
      /\ fs run.2 !! (root ++ rel o) = Some (RegFile written).
Proof.
  intros root run Hok o t Hin. subst run. rewrite generate_prelude in *.
  fold root in Hok |- *. unfold check, bind in *.
  destruct (prelude cwd cfg w) as [[err|] w0]; [done|].
  destruct (render_written tfs E root cfg templates w0 o t) as (written & Hr & Hf);
    [done|apply templates_outputs_distinct|done|done|].
  unfold rendered in Hr.
  destruct (tfs ("templates/" +:+ t)) as [text|] eqn:Ht; [|done].
  destruct (Parse E t text) as [tmpl|err] eqn:Hp; [|done].
  destruct (Execute E tmpl (context_of cfg)) as [out [err|]] eqn:Ex; [done|].
  injection Hr as ->. by exists text, tmpl, written.
Qed.

Lemma X13_witness :
  let run := generate Sample.store GoTemplate.engine Sample.cwd Sample.cfg
               Sample.empty in
  exists text tmpl written,
    Sample.store "templates/main.go.tmpl" = Some text
    /\ Parse GoTemplate.engine "main.go.tmpl" text = inl tmpl
    /\ Execute GoTemplate.engine tmpl (context_of Sample.cfg) = (written, None)
    /\ fs run.2 !! (filepath_Abs Sample.cwd (Root Sample.cfg) ++ rel "cmd/main.go")
         = Some (RegFile written).
Proof.
  apply (X13_success_means_rendered Sample.store GoTemplate.engine Sample.cwd
           Sample.cfg Sample.empty).
  - vm_compute. reflexivity.
  - by left.
Defined.

(** ** What a run leaves when it fails *)

Lemma same_replay (k : path) (cs : list call) (m : filesystem) :
  Forall (keeps k) cs -> Forall (avoids k) cs -> replay cs m !! k = m !! k.
Proof.
  intros Hk Ha. destruct (m !! k) as [e|] eqn:E.
  - by apply keeps_replay.
  - by apply avoids_replay.
Qed.

(** The calls on a manifest create nothing where no output of it and no
    directory of the layout goes. *)
Lemma manifest_call_avoids (root : path) (l : list (string * string)) (k : path)
    (c : call) :
  l ⊆ templates -> k ∉ layout_dirs -> k <> [] ->
  k ∉ map (fun ot : string * string => rel ot.1) l ->
  manifest_call root l c -> avoids (root ++ k) c.
Proof.
  intros Hl Hk Hne Hout Hc.
  pose proof (manifest_call_no_mkdir root l k c Hl Hk Hne Hc) as Hm.
  pose proof (manifest_call_keeps root l k c Hout Hc) as Hkeep.
  destruct c; cbn [manifest_call avoids keeps no_mkdir] in *; done.
Qed.

Lemma first_error_cons tfs E (cfg : Config) (o t : string) (l : list (string * string)) :
  first_error tfs E cfg ((o, t) :: l) =
    match first_error tfs E cfg [(o, t)] with
    | Some err => Some err
    | None => first_error tfs E cfg l
    end.
Proof.
  cbn [first_error]. destruct (tfs _) as [text|]; [|done].
  destruct (Parse E t text) as [tmpl|err]; [|done].
  by destruct ((Execute E tmpl (context_of cfg)).2).
Qed.

Lemma first_error_written tfs E (cfg : Config) (o t : string) :
  first_error tfs E cfg [(o, t)] = None -> is_Some (written tfs E cfg t).
Proof.
  cbn [first_error]. unfold written. destruct (tfs _) as [text|]; [|done].
  destruct (Parse E t text) as [tmpl|err]; [|done]. by eexists.
Qed.

(** An output whose directory is there, and which is no directory itself,
    can be created. *)
Lemma create_ready (root : path) (o t : string) (w : world) :
  (o, t) ∈ templates ->
  fs w !! (root ++ removelast (rel o)) = Some Directory ->
  fs w !! (root ++ rel o) <> Some Directory ->
  (os_Create (root ++ rel o)
     (perform (MkdirAllCall (root ++ removelast (rel o))) w)).1 = None.
Proof.
  intros Hot Hdir Hout.
  destruct (proj1 (Forall_forall _ _) outputs_not_dirs (o, t) Hot)
    as (Hnd & Hd & Hne & Hdne). cbn [fst] in *.
  set (w1 := perform _ w). unfold os_Create. cbn [fst].
  destruct (fs_write_cases "open" (root ++ rel o) "" (fs w1)) as [[err Hf]|(Hf & _)];
    [exfalso|by rewrite Hf].
  pose proof (fs_write_failure "open" (root ++ rel o) "" (fs w1) err) as Hwhy.
  rewrite Hf in Hwhy. destruct (Hwhy eq_refl) as [Hk|[Hk|Hk]].
  - by apply app_eq_nil in Hk as [_ ?].
  - apply Hk. rewrite removelast_app by done.
    rewrite stat_lookup by (by intros [_ ?]%app_eq_nil).
    unfold w1. cbn [perform fs apply_call].
    by apply fs_mkdir_all_keeps.
  - apply Hout. unfold w1 in Hk. cbn [perform fs apply_call] in Hk.
    apply fs_mkdir_all_lookup in Hk as [Hk|(_ & _ & Hin)]; [done|exfalso].
    apply prefixes_under in Hin as [Hin|(l' & Hl'' & Heq)].
    + by apply (prefix_of_root_not_under root (root ++ rel o) Hin),
        strictly_under_app.
    + apply app_inv_head in Heq. subst l'.
      apply elem_of_prefixes in Hl'' as [_ Hpre].
      apply prefix_length in Hpre.
      pose proof (removelast_shorter (rel o) Hne). lia.
Qed.

(** One template whose output can be created: its result is decided by the
    template, and its output holds what execution wrote. *)
Lemma writeTemplate_ready tfs E (root : path) (o t : string) (cfg : Config)
    (w : world) :
  (o, t) ∈ templates ->
  fs w !! (root ++ removelast (rel o)) = Some Directory ->
  fs w !! (root ++ rel o) <> Some Directory ->
  (writeTemplate tfs E root o t cfg w).1 = first_error tfs E cfg [(o, t)]
  /\ fs (writeTemplate tfs E root o t cfg w).2 !! (root ++ rel o)
     = match written tfs E cfg t with
       | Some x => Some (RegFile x)
       | None => fs w !! (root ++ rel o)
       end.
Proof.
  intros Hot Hdir Hout. cbn [first_error]. unfold written.
  destruct (tfs ("templates/" +:+ t)) as [text|] eqn:Ht.
  2:{ rewrite writeTemplate_eq. cbv zeta. by rewrite Ht. }
  destruct (Parse E t text) as [tmpl|err] eqn:Hp.
  2:{ rewrite writeTemplate_eq. cbv zeta. by rewrite Ht, Hp. }
  pose proof (writeTemplate_written tfs E root o t cfg w text tmpl Ht Hp) as Hw.
  cbv zeta in Hw. rewrite (Dir_output root o t Hot), (Join_output root o t Hot) in Hw.
  destruct (Hw (create_ready root o t w Hot Hdir Hout)) as [H1 H2].
  split; [|done]. rewrite H1. by destruct ((Execute E tmpl (context_of cfg)).2).
Qed.

(** A template leaves alone what is neither its output nor a directory of
    the layout. *)
Lemma writeTemplate_elsewhere tfs E (root : path) (o t : string) (cfg : Config)
    (w : world) (k : path) :
  (o, t) ∈ templates -> k ∉ layout_dirs -> k <> [] -> k <> rel o ->
  fs (writeTemplate tfs E root o t cfg w).2 !! (root ++ k) = fs w !! (root ++ k).
Proof.
  intros Hot Hk Hne Hko.
  assert ([(o, t)] ⊆ templates) as Hsub.
  { intros x Hx. apply list_elem_of_singleton in Hx. by subst x. }
  assert (k ∉ map (fun ot : string * string => rel ot.1) [(o, t)]) as Hout.
  { cbn [map fst]. intros Hx. apply list_elem_of_singleton in Hx. done. }
  destruct (within_calls _ _ w
              (within_writeTemplate_of tfs E root [(o, t)] o t cfg Hot
                 ltac:(by left))) as (cs & Hcs & ->).
  cbn [perform_all fs]. apply same_replay.
  - eapply Forall_impl; [exact Hcs|]. intros c. by apply manifest_call_keeps.
  - eapply Forall_impl; [exact Hcs|]. intros c. by apply manifest_call_avoids.
Qed.

(** After a template, the outputs of the others can still be created. *)
Lemma writeTemplate_leaves_ready tfs E (root : path) (o t : string) (cfg : Config)
    (w : world) (l : list (string * string)) :
  (o, t) ∈ templates -> l ⊆ templates -> ready root (fs w) l ->
  ready root (fs (writeTemplate tfs E root o t cfg w).2) l.
Proof.
  intros Hot Hl Hready o' t' Hin'.
  destruct (Hready o' t' Hin') as [Hdir' Hout'].
  assert ((o', t') ∈ templates) as Hot' by (by apply Hl).
  destruct (proj1 (Forall_forall _ _) outputs_not_dirs (o', t') Hot')
    as (Hnd' & _ & Hne' & _). cbn [fst] in *.
  destruct (within_calls _ _ w
              (within_writeTemplate_of tfs E root [(o, t)] o t cfg Hot
                 ltac:(by left))) as (cs & Hcs & ->).
  cbn [perform_all fs]. split.
  - apply dir_stays_replay; [|done].
    eapply Forall_impl; [exact Hcs|]. apply manifest_call_no_removal.
  - intros Hk. apply Hout'. apply (no_mkdir_replay _ cs); [|done].
    eapply Forall_impl; [exact Hcs|]. intros c.
    apply manifest_call_no_mkdir; [|done|done].
    intros x Hx. apply list_elem_of_singleton in Hx. by subst x.
Qed.

(** The outputs of a manifest whose outputs can be created, after it has
    been rendered as far as the first error: the output of an entry that
    was reached, found and parsed holds what execution wrote, and every
    other output is as it was. *)
Lemma render_outputs tfs E (root : path) (cfg : Config) (l : list (string * string)) :
  forall w : world,
    l ⊆ templates -> NoDup (map (fun ot : string * string => rel ot.1) l) ->
    ready root (fs w) l ->
    forall pre o t post, l = pre ++ (o, t) :: post ->
      fs (render tfs E root cfg l w).2 !! (root ++ rel o) =
        match first_error tfs E cfg pre, written tfs E cfg t with
        | None, Some x => Some (RegFile x)
        | _, _ => fs w !! (root ++ rel o)
        end.
Proof.
  induction l as [|[o1 t1] l IH]; intros w Hl Hnd Hready pre o t post E0.
  { by destruct pre. }
  assert ((o1, t1) ∈ templates) as Hot1 by (apply Hl; by left).
  assert (l ⊆ templates) as Hl' by (intros x Hx; apply Hl; by right).
  cbn [map] in Hnd. apply NoDup_cons in Hnd as [Hfresh Hnd]. cbn [fst] in Hfresh.
  destruct (Hready o1 t1) as [Hdir Hout]; [by left|].
  destruct (writeTemplate_ready tfs E root o1 t1 cfg w Hot1 Hdir Hout) as [Hres Hfile].
  pose proof (writeTemplate_leaves_ready tfs E root o1 t1 cfg w l Hot1 Hl') as Hnext.
  pose proof (fun k => writeTemplate_elsewhere tfs E root o1 t1 cfg w k Hot1) as Hframe.
  cbn [render]. unfold check, bind.
  destruct (writeTemplate tfs E root o1 t1 cfg w) as [r w1]. cbn [fst snd] in *.
  destruct pre as [|[o0 t0] pre].
  - cbn [app] in E0. injection E0 as -> -> ->. cbn [first_error].
    destruct r as [err|].
    + cbn [ret fst snd]. rewrite Hfile. by destruct (written tfs E cfg t).
    + symmetry in Hres. apply first_error_written in Hres as [x Hx].
      rewrite Hx in Hfile |- *.
      destruct (within_calls _ _ w1 (within_render_of tfs E root cfg post Hl'))
        as (cs & Hcs & ->).
      cbn [perform_all fs]. apply keeps_replay; [|done].
      eapply Forall_impl; [exact Hcs|]. intros c. by apply manifest_call_keeps.
  - cbn [app] in E0. injection E0 as -> -> ->.
    assert ((o, t) ∈ pre ++ (o, t) :: post) as Hin.
    { apply elem_of_app. right. by left. }
    assert ((o, t) ∈ templates) as Hot by (by apply Hl').
    destruct (proj1 (Forall_forall _ _) outputs_not_dirs (o, t) Hot)
      as (Hnd' & _ & Hne' & _). cbn [fst] in *.
    assert (rel o <> rel o0) as Hdiff.
    { intros Heq. apply Hfresh. rewrite <- Heq.
      apply list_elem_of_fmap. by exists (o, t). }
    rewrite first_error_cons, <- Hres.
    specialize (Hframe (rel o) Hnd' Hne' Hdiff).
    destruct r as [err|]; [by cbn [ret fst snd]|].
    rewrite (IH w1 Hl' Hnd (Hnext (fun o' t' H' => Hready o' t' (list_elem_of_further _ _ _ H'))) pre o t post eq_refl).
    by rewrite Hframe.
Qed.

Lemma dir_calls_unwritten (g : bool) (root : path) (o t : string) :
  (o, t) ∈ templates -> Forall (unwritten (root ++ rel o)) (dir_calls g root).
Proof.
  intros Hot. unfold dir_calls. apply Forall_forall. intros c Hc.
  apply list_elem_of_In, in_flat_map in Hc as (d & Hd & Hc).
  apply list_elem_of_In in Hd.
  rewrite (Join_marker root d Hd), (Join_dir root d Hd) in Hc.
  destruct Hc as [<-|Hc]; [done|].
  destruct g; [|done]. destruct Hc as [<-|[]]. cbn [unwritten].
  intros Heq%app_inv_head.
  destruct (proj1 (Forall_forall _ _) templates_last (o, t) Hot) as [Hlast _].
  apply Hlast. cbn [fst]. by rewrite <- Heq, last_snoc.
Qed.

(** The calls of the tail make directories of the layout only. *)
Lemma tail_call_no_mkdir_at (g : bool) (root l : path) (c : call) :
  l <> [] -> l ∉ layout_dirs -> tail_call g root c -> no_mkdir (root ++ l) c.
Proof.
  intros Hl Hd Hc. destruct c; try done. unfold tail_call in Hc. unfold no_mkdir.
  intros Hin.
  assert (exists p0, p = root ++ p0
                     /\ Forall (fun l => l ∈ layout_dirs) (prefixes p0))
    as (p0 & -> & Hp0).
  { destruct Hc as [Hc|Hc]; apply list_elem_of_fmap in Hc as (x & -> & Hx).
    - exists (rel x). split; [done|].
      by apply (proj1 (Forall_forall _ _) layout_dirs_prefixes).
    - exists (removelast (rel x.1)). split; [done|].
      by apply (proj1 (Forall_forall _ _) template_dirs_layout). }
  apply prefixes_under in Hin as [Hin|(l' & Hl' & Heq)].
  - by apply (prefix_of_root_not_under root (root ++ l) Hin), strictly_under_app.
  - apply app_inv_head in Heq. subst l'.
    by apply Hd, (proj1 (Forall_forall _ _) Hp0).
Qed.

Section BlankStatic.

Variables (g : bool) (root : path) (m : filesystem).
Hypothesis Hproject : project_below g root m.
Hypothesis Hroot : forall q, q ∈ prefixes root -> m !! q = Some Directory.

(** From a blank start the two static files can be written. *)
Lemma blank_static_write (rest : list call) (n data : string) :
  Forall (tail_call g root) rest -> n ∈ ["go.mod"; "Makefile"] ->
  (fs_write "open" (root ++ [n]) data (replay (dir_calls g root ++ rest) m)).2 = None.
Proof.
  intros Hrest Hn.
  assert ([n] ∉ layout_dirs) as Hnl.
  { revert n Hn. apply Forall_forall.
    apply (bool_decide_unpack _). vm_compute. exact I. }
  destruct (fs_write_cases "open" (root ++ [n]) data
              (replay (dir_calls g root ++ rest) m))
    as [[err Hf]|(Hf & _)]; [exfalso|by rewrite Hf].
  pose proof (fs_write_failure "open" (root ++ [n]) data
                (replay (dir_calls g root ++ rest) m) err) as Hwhy.
  rewrite Hf in Hwhy. destruct (Hwhy eq_refl) as [Hk|[Hk|Hk]].
  - by apply snoc_nonempty in Hk.
  - apply Hk. rewrite removelast_snoc.
    destruct (tail_prune _ root _ m Hroot (blank_calls g root rest Hrest)) as [_ Hr].
    destruct (decide (root = [])) as [->|Hrn]; [done|].
    rewrite stat_lookup by done. apply Hr. by apply elem_of_prefixes.
  - revert Hk. by apply (blank_only_dirs g root m rest Hproject Hrest).
Qed.

(** The directory loop and the static files leave the outputs alone. *)
Lemma blank_output_untouched (o t : string) (gomod makefile : string) :
  (o, t) ∈ templates ->
  replay (dir_calls g root ++ [WriteFileCall (root ++ ["go.mod"]) gomod;
                               WriteFileCall (root ++ ["Makefile"]) makefile]) m
    !! (root ++ rel o) = m !! (root ++ rel o).
Proof.
  intros Hot.
  destruct (proj1 (Forall_forall _ _) outputs_not_dirs (o, t) Hot)
    as (Hnd & _ & Hne & _). cbn [fst] in *.
  set (statics := [WriteFileCall (root ++ ["go.mod"]) gomod;
                   WriteFileCall (root ++ ["Makefile"]) makefile]).
  assert (Forall (tail_call g root) (dir_calls g root ++ statics)) as Hst.
  { apply Forall_app_2; [apply dir_calls_tail|].
    apply Forall_cons_2; [by left|]. apply Forall_cons_2; [right; by left|].
    apply Forall_nil_2. }
  assert (Forall (unwritten (root ++ rel o)) (dir_calls g root ++ statics)) as Hun.
  { apply Forall_app_2; [by apply (dir_calls_unwritten g root o t)|].
    assert (Forall (fun ot : string * string =>
                      rel ot.1 <> ["go.mod"] /\ rel ot.1 <> ["Makefile"]) templates)
      as Hall by (by repeat constructor).
    destruct (proj1 (Forall_forall _ _) Hall (o, t) Hot) as [H1 H2]. cbn [fst] in *.
    apply Forall_cons_2; [by intros Heq%app_inv_head|].
    apply Forall_cons_2; [by intros Heq%app_inv_head|]. apply Forall_nil_2. }
  apply same_replay.
  - apply Forall_forall. intros c Hc.
    pose proof (proj1 (Forall_forall _ _) Hun c Hc) as Hu.
    pose proof (tail_call_no_removal g root c
                  (proj1 (Forall_forall _ _) Hst c Hc)) as Hr.
    by destruct c.
  - apply Forall_forall. intros c Hc.
    pose proof (proj1 (Forall_forall _ _) Hun c Hc) as Hu.
    pose proof (tail_call_no_mkdir_at g root (rel o) c Hne Hnd
                  (proj1 (Forall_forall _ _) Hst c Hc)) as Hm.
    by destruct c.
Qed.

End BlankStatic.


(** Whether a given file system holds nothing but parts of a project can
    be checked entry by entry. *)
Lemma project_below_check (g : bool) (root : path) (m : filesystem) :
  map_Forall (fun k e =>
    strictly_under root k ->
    (e = Directory -> k ∈ map (app root) layout_dirs)
    /\ (e <> Directory -> k ∈ generated_files g root)) m ->
  project_below g root m.
Proof.
  intros H l e Hl He.
  destruct (H (root ++ l) e He (strictly_under_app root l Hl)) as [Hd Hf].
  destruct e as [x|].
  - apply (proj1 (elem_of_generated_files g root l)). by apply Hf.
  - specialize (Hd eq_refl). apply list_elem_of_fmap in Hd as (l' & Heq & Hl').
    apply app_inv_head in Heq. by subst l'.
Qed.




(** ** The errors of [generate] *)

Lemma fs_write_error (op : string) (p : path) (data : string) (m : filesystem)
    (err : error) :
  (fs_write op p data m).2 = Some err ->
  exists e, err = PathError op (path_string p) e.
Proof.
  unfold fs_write. destruct p as [|c p]; [intros [= <-]; by eexists|].
  destruct (stat m (removelast (c :: p))) as [[x|]|];
    [intros [= <-]; by eexists| |intros [= <-]; by eexists].
  destruct (m !! (c :: p)) as [[x|]|]; [done|intros [= <-]; by eexists|done].
Qed.

Lemma writeTemplate_failure tfs E (cwd : path) (cfg : Config) (w0 : world)
    (o t : string) (w : world) (err : error) :
  (o, t) ∈ templates ->
  (writeTemplate tfs E (filepath_Abs cwd (Root cfg)) o t cfg w).1 = Some err ->
  failure tfs E cwd cfg w0 err.
Proof.
  intros Hot. rewrite writeTemplate_eq. cbv zeta.
  destruct (tfs ("templates/" +:+ t)) as [text|] eqn:Ht.
  2:{ intros [= <-]. by apply (TemplateMissing _ _ _ _ _ _ o t). }
  destruct (Parse E t text) as [tmpl|e] eqn:Hp.
  2:{ intros [= <-]. by apply (TemplateNotParsed _ _ _ _ _ _ o t text). }
  rewrite (Join_output _ o t Hot).
  destruct ((os_Create _ _).1) as [e|] eqn:Hc.
  - intros [= <-]. unfold os_Create in Hc. cbn [fst] in Hc.
    apply fs_write_error in Hc as [e' ->].
    apply (FileNotOpened _ _ _ _ _ _ (rel o) e'); [|done].
    right. right. cbn [app]. rewrite app_nil_r.
    apply list_elem_of_fmap. by exists (o, t).
  - cbn [fst]. intros He.
    by apply (TemplateNotExecuted _ _ _ _ _ _ o t text tmpl).
Qed.

Lemma render_failure tfs E (cwd : path) (cfg : Config) (w0 : world)
    (l : list (string * string)) (w : world) (err : error) :
  l ⊆ templates ->
  (render tfs E (filepath_Abs cwd (Root cfg)) cfg l w).1 = Some err ->
  failure tfs E cwd cfg w0 err.
Proof.
  revert w. induction l as [|[o t] l IH]; intros w Hl; [done|].
  cbn [render]. unfold check, bind.
  pose proof (writeTemplate_failure tfs E cwd cfg w0 o t w) as Hw.
  destruct (writeTemplate tfs E _ o t cfg w) as [[e|] w1]; cbn [fst snd] in *.
  - intros [= <-]. apply Hw; [|done]. apply Hl. by left.
  - apply IH. intros x Hx. apply Hl. by right.
Qed.

(** X16. Whatever [generate] returns as an error has one of five causes:
    the root could not be created; [go.mod], [Makefile] or one of the four
    output files could not be opened for writing; a template of the
    manifest is missing from the store; it does not parse; its execution
    failed. No other step shows in the result: a failure while the root is
    cleaned, while a manifest directory is created or while a marker is
    written never makes [generate] fail. *)
Theorem X16_causes_of_failure tfs E (cwd : path) (cfg : Config) (w : world)
    (err : error) :
  (generate tfs E cwd cfg w).1 = Some err -> failure tfs E cwd cfg w err.
Proof.
  set (root := filepath_Abs cwd (Root cfg)).
  destruct (String.eqb_spec (Root cfg) "") as [E0|Hne].
  { rewrite generate_empty_root by done. intros [= <-].
    apply RootNotCreated. by rewrite os_MkdirAll_name_empty. }
  rewrite generate_shape by done. fold root.
  destruct ((fs_mkdir_all root (fs w)).2) as [e|] eqn:Hmk.
  { intros [= <-]. apply RootNotCreated.
    rewrite os_MkdirAll_name_resolved by done. exact Hmk. }
  rewrite phase_tail_shape. cbv zeta.
  destruct ((fs_write "open" (root ++ ["go.mod"]) _ _).2) as [e|] eqn:H1.
  { intros [= <-]. apply fs_write_error in H1 as [e' ->].
    apply (FileNotOpened _ _ _ _ _ _ ["go.mod"] e'); [by left|done]. }
  destruct ((fs_write "open" (root ++ ["Makefile"]) _ _).2) as [e|] eqn:H2.
  { intros [= <-]. apply fs_write_error in H2 as [e' ->].
    apply (FileNotOpened _ _ _ _ _ _ ["Makefile"] e'); [right; by left|done]. }
  by apply render_failure.
Qed.

Lemma X16_witness :
  failure Sample.store GoTemplate.engine Sample.cwd Disk.cfg_plain Disk.cmd_is_file
    (PathError "open" "/home/dev/widget/cmd/main.go" ENOTDIR).
Proof.
  apply (X16_causes_of_failure Sample.store GoTemplate.engine Sample.cwd
           Disk.cfg_plain Disk.cmd_is_file).
  vm_compute. reflexivity.
Defined.

(** ** The later revision: templates named by their path *)

Lemma trim_slashes_name (t : string) :
  no_slash t = true -> Later.trim_slashes t = t.
Proof.
  induction t as [|c t IH]; simpl; [done|].
  intros [Hc Ht]%andb_prop. rewrite IH by done. apply negb_true_iff in Hc.
  rewrite Hc. by destruct t.
Qed.

Lemma trim_slashes_append (a t : string) :
  Later.trim_slashes t <> "" ->
  Later.trim_slashes (a +:+ t) = a +:+ Later.trim_slashes t.
Proof.
  intros Ht. induction a as [|c a IH]; [done|].
  change (Later.trim_slashes (String c (a +:+ t)) = String c (a +:+ Later.trim_slashes t)).
  simpl. rewrite IH.
  destruct a as [|c' a]; [|done].
  change ("" +:+ Later.trim_slashes t) with (Later.trim_slashes t).
  by destruct (Later.trim_slashes t).
Qed.

Lemma split_slash_append (a t : string) :
  split_slash (a +:+ "/" +:+ t) = split_slash a ++ split_slash t.
Proof.
  induction a as [|c a IH]; [done|].
  change (split_slash (String c (a +:+ "/" +:+ t))
          = split_slash (String c a) ++ split_slash t).
  simpl. rewrite IH. destruct (Ascii.eqb c "/"); [done|].
  pose proof (split_slash_nonempty a). by destruct (split_slash a).
Qed.

(** [filepath.Base] of the path of a template in the store. *)
Lemma Base_of_template (dir t : string) :
  no_slash t = true -> t <> "" ->
  Later.filepath_Base (dir +:+ "/" +:+ t) = t.
Proof.
  intros Hs Hne. unfold Later.filepath_Base.
  assert (dir +:+ "/" +:+ t <> "") as Hne'.
  { destruct dir; [done|done]. }
  destruct (String.eqb_spec (dir +:+ "/" +:+ t) ""); [done|].
  rewrite GoTemplateFacts.append_assoc, trim_slashes_append, <- GoTemplateFacts.append_assoc
    by (rewrite trim_slashes_name by done; done).
  rewrite trim_slashes_name by done.
  rewrite split_slash_append, (split_slash_name t) by done.
  rewrite last_snoc. by destruct t.
Qed.

Lemma later_writeTemplate_named tfs E (root : path) (o t : string)
    (cfg : Config) (w : world) :
  no_slash t = true -> t <> "" ->
  Later.writeTemplate tfs E root o ("templates" +:+ "/" +:+ t) cfg w
    = writeTemplate tfs E root o t cfg w.
Proof.
  intros Hs Hne. unfold Later.writeTemplate, writeTemplate.
  by rewrite (Base_of_template "templates" t Hs Hne).
Qed.

(** X17. The later [writeTemplate], given the path [templates/t] of a
    template in the store, does what the [writeTemplate] of the first
    revision does given the name [t]: the same calls in the same order,
    the same result and the same file system; the engine still knows the
    template by its name [t], not by its path. *)
Theorem X17_template_named_by_path tfs E (root : path) (o t : string)
    (cfg : Config) (w : world) :
  no_slash t = true -> t <> "" ->
  Later.writeTemplate tfs E root o ("templates/" +:+ t) cfg w
    = writeTemplate tfs E root o t cfg w.
Proof.
  intros Hs Hne.
  assert (Later.filepath_Base ("templates/" +:+ t) = t) as Hbase.
  { change ("templates/" +:+ t) with ("templates" +:+ "/" +:+ t).
    unfold Later.filepath_Base.
    destruct (String.eqb_spec ("templates" +:+ "/" +:+ t) "") as [E0|_]; [done|].
    rewrite GoTemplateFacts.append_assoc, trim_slashes_append,
      <- GoTemplateFacts.append_assoc
      by (rewrite trim_slashes_name by done; done).
    rewrite trim_slashes_name, split_slash_append, (split_slash_name t) by done.
    rewrite last_snoc. by destruct t. }
  unfold Later.writeTemplate, writeTemplate. by rewrite Hbase.
Qed.

Lemma X17_witness :
  Later.writeTemplate Later.store GoTemplate.engine Sample.root "cmd/main.go"
    ("templates/" +:+ "app.go.tmpl") Sample.cfg Sample.empty
  = writeTemplate Later.store GoTemplate.engine Sample.root "cmd/main.go"
      "app.go.tmpl" Sample.cfg Sample.empty.
Proof.
  apply (X17_template_named_by_path Later.store GoTemplate.engine Sample.root
           "cmd/main.go" "app.go.tmpl" Sample.cfg Sample.empty); [reflexivity|done].
Defined.

(** ** The later [generate] and the first *)

Lemma same_effect_ret {A} (a : A) : same_effect (ret a : IO A) (ret a).
Proof. by intros w1 w2 H. Qed.

Lemma same_effect_bind {A B} (m1 m2 : IO A) (k1 k2 : A -> IO B) :
  same_effect m1 m2 -> (forall a, same_effect (k1 a) (k2 a)) ->
  same_effect (bind m1 k1) (bind m2 k2).
Proof.
  intros Hm Hk w1 w2 H. unfold bind. destruct (Hm w1 w2 H) as [E H'].
  destruct (m1 w1) as [a1 w1'], (m2 w2) as [a2 w2']. simpl in *. subst a2.
  by apply Hk.
Qed.

Lemma same_effect_check (m1 m2 k1 k2 : IO (option error)) :
  same_effect m1 m2 -> same_effect k1 k2 -> same_effect (check m1 k1) (check m2 k2).
Proof.
  intros Hm Hk. apply same_effect_bind; [done|].
  intros [err|]; [apply same_effect_ret|done].
Qed.

Lemma within_same_effect {A} (P : call -> Prop) (m : IO A) :
  within P m -> same_effect m m.
Proof. intros H w1 w2 E. by apply (within_deterministic P). Qed.

Lemma same_effect_ext {A} (m1 m1' m2 m2' : IO A) :
  (forall w, m1 w = m1' w) -> (forall w, m2 w = m2' w) ->
  same_effect m1' m2' -> same_effect m1 m2.
Proof. intros H1 H2 H w1 w2 E. rewrite H1, H2. by apply H. Qed.

(** [writeTemplate] looks into the store at one name only. *)
Lemma writeTemplate_store tfs tfs' E (root : path) (o t : string) (cfg : Config)
    (w : world) :
  tfs' ("templates/" +:+ t) = tfs ("templates/" +:+ t) ->
  writeTemplate tfs' E root o t cfg w = writeTemplate tfs E root o t cfg w.
Proof.
  intros H. unfold writeTemplate, bind at 1. unfold bind at 5.
  unfold templateFS_ReadFile. by rewrite H.
Qed.

Lemma later_template_same tfs tfs' E (root : path) (o t : string) (cfg : Config) :
  (o, t) ∈ templates -> no_slash t = true -> t <> "" ->
  tfs' ("templates/" +:+ t) = tfs ("templates/" +:+ t) ->
  same_effect (Later.writeTemplate tfs' E root o ("templates/" +:+ t) cfg)
              (writeTemplate tfs E root o t cfg).
Proof.
  intros Hin Hs Hne H.
  apply (same_effect_ext _ (writeTemplate tfs E root o t cfg) _
           (writeTemplate tfs E root o t cfg)).
  - intros w.
    etrans; [exact (later_writeTemplate_named tfs' E root o t cfg w Hs Hne)|].
    by apply writeTemplate_store.
  - done.
  - eapply within_same_effect. by apply within_writeTemplate.
Qed.

Lemma later_generate_phases tfs E (cwd : path) (cfg : Config) :
  Later.generate tfs E cwd cfg =
    (check! os_MkdirAll_name cwd (Root cfg) ;;
     run! phase_clean (filepath_Abs cwd (Root cfg)) cfg ;;
     run! phase_dirs (filepath_Abs cwd (Root cfg)) cfg ;;
     check! writeGoMod (filepath_Abs cwd (Root cfg)) (ModuleName cfg) ;;
     check! writeMakefile (filepath_Abs cwd (Root cfg)) (Port cfg) ;;
     check! Later.writeTemplate tfs E (filepath_Abs cwd (Root cfg)) "cmd/main.go"
              "templates/app.go.tmpl" cfg ;;
     check! Later.writeTemplate tfs E (filepath_Abs cwd (Root cfg))
              "services/serviceName/routes/router.go" "templates/router.go.tmpl" cfg ;;
     check! Later.writeTemplate tfs E (filepath_Abs cwd (Root cfg))
              "config/init/serverConfig.go" "templates/serverConfig.go.tmpl" cfg ;;
     check! Later.writeTemplate tfs E (filepath_Abs cwd (Root cfg))
              "commons/utils/logger.go" "templates/logger.go.tmpl" cfg ;;
     ret None).
Proof. reflexivity. Qed.

(** The template steps of the later [generate]. *)
Lemma later_generate_prelude tfs E (cwd : path) (cfg : Config) (w : world) :
  let root := filepath_Abs cwd (Root cfg) in
  Later.generate tfs E cwd cfg w =
    check (prelude cwd cfg)
      (check! Later.writeTemplate tfs E root "cmd/main.go" "templates/app.go.tmpl" cfg ;;
       check! Later.writeTemplate tfs E root "services/serviceName/routes/router.go"
                "templates/router.go.tmpl" cfg ;;
       check! Later.writeTemplate tfs E root "config/init/serverConfig.go"
                "templates/serverConfig.go.tmpl" cfg ;;
       check! Later.writeTemplate tfs E root "commons/utils/logger.go"
                "templates/logger.go.tmpl" cfg ;;
       ret None) w.
Proof.
  intros root. rewrite later_generate_phases. fold root.
  unfold prelude. fold root. unfold check, bind.
  destruct (os_MkdirAll_name _ _ w) as [[err|] w1]; [done|].
  destruct (phase_clean _ cfg w1) as [[] w2].
  destruct (phase_dirs _ cfg w2) as [[] w3].
  destruct (writeGoMod _ _ w3) as [[err|] w4]; [done|].
  by destruct (writeMakefile _ _ w4) as [[err|] w5].
Qed.

(** The first template of the manifest under its two names. *)
Lemma later_first_template tfs tfs' E (root : path) (cfg : Config) (w1 w2 : world) :
  tfs' "templates/app.go.tmpl" = tfs "templates/main.go.tmpl" ->
  same_parse E "app.go.tmpl" "main.go.tmpl" ->
  fs w1 = fs w2 ->
  let a := Later.writeTemplate tfs' E root "cmd/main.go" "templates/app.go.tmpl" cfg w1 in
  let b := writeTemplate tfs E root "cmd/main.go" "main.go.tmpl" cfg w2 in
  fs a.2 = fs b.2
  /\ (a.1 = None <-> b.1 = None)
  /\ ((exists text tmpl, tfs' "templates/app.go.tmpl" = Some text
                         /\ Parse E "app.go.tmpl" text = inl tmpl) -> a.1 = b.1).
Proof.
  intros Hst Hp Hfs a b. subst a b.
  assert (Later.writeTemplate tfs' E root "cmd/main.go" "templates/app.go.tmpl" cfg w1
          = writeTemplate tfs' E root "cmd/main.go" "app.go.tmpl" cfg w1) as ->.
  { by apply (later_writeTemplate_named tfs' E root "cmd/main.go" "app.go.tmpl"). }
  rewrite !writeTemplate_eq. cbv zeta.
  change ("templates/" +:+ "app.go.tmpl") with "templates/app.go.tmpl".
  change ("templates/" +:+ "main.go.tmpl") with "templates/main.go.tmpl".
  rewrite Hst. destruct (tfs "templates/main.go.tmpl") as [text|].
  2:{ cbn [fst snd perform_all fs replay foldl apply_call]. split; [done|].
      split; [done|]. by intros (? & ? & ? & _). }
  specialize (Hp text).
  destruct (Parse E "app.go.tmpl" text) as [tm1|e1] eqn:P1,
           (Parse E "main.go.tmpl" text) as [tm2|e2]; try done.
  2:{ cbn [fst snd perform_all fs replay foldl apply_call]. split; [done|].
      split; [done|]. intros (? & ? & [= <-] & ?). congruence. }
  subst tm2.
  set (out := filepath_Join root "cmd/main.go").
  set (v1 := perform_all _ w1). set (v2 := perform_all _ w2).
  assert (fs v1 = fs v2) as Hv.
  { subst v1 v2. cbn [perform_all fs replay foldl apply_call]. by rewrite Hfs. }
  unfold os_Create. cbn [fst]. rewrite Hv.
  destruct ((fs_write "open" out "" (fs v2)).2) as [err|].
  - cbn [fst snd perform fs]. by rewrite Hv.
  - cbn [fst snd perform_all fs]. by rewrite Hv.
Qed.

Lemma later_rest_same tfs tfs' E (root : path) (cfg : Config) :
  tfs' "templates/router.go.tmpl" = tfs "templates/router.go.tmpl" ->
  tfs' "templates/serverConfig.go.tmpl" = tfs "templates/serverConfig.go.tmpl" ->
  tfs' "templates/logger.go.tmpl" = tfs "templates/logger.go.tmpl" ->
  same_effect
    (check! Later.writeTemplate tfs' E root "services/serviceName/routes/router.go"
              "templates/router.go.tmpl" cfg ;;
     check! Later.writeTemplate tfs' E root "config/init/serverConfig.go"
              "templates/serverConfig.go.tmpl" cfg ;;
     check! Later.writeTemplate tfs' E root "commons/utils/logger.go"
              "templates/logger.go.tmpl" cfg ;;
     ret None)
    (render tfs E root cfg
       [("services/serviceName/routes/router.go", "router.go.tmpl");
        ("config/init/serverConfig.go", "serverConfig.go.tmpl");
        ("commons/utils/logger.go", "logger.go.tmpl")]).
Proof.
  intros H2 H3 H4. cbn [render].
  apply same_effect_check.
  { apply (later_template_same tfs tfs' E root _ "router.go.tmpl" cfg); try done.
    right. by left. }
  apply same_effect_check.
  { apply (later_template_same tfs tfs' E root _ "serverConfig.go.tmpl" cfg); try done.
    right. right. by left. }
  apply same_effect_check; [|apply same_effect_ret].
  apply (later_template_same tfs tfs' E root _ "logger.go.tmpl" cfg); try done.
  right. right. right. by left.
Qed.

Lemma GoTemplate_same_parse (n1 n2 : string) : same_parse GoTemplate.engine n1 n2.
Proof.
  intros text. cbn [Parse GoTemplate.engine]. unfold GoTemplate.parse.
  destruct (GoTemplate.lex text) as [items|]; [|done].
  by destruct (GoTemplate.parse_items items).
Qed.



(** ** The later [main]: installing the dependencies *)

Lemma within_ext {A} (P : call -> Prop) (m m' : IO A) :
  (forall w, m w = m' w) -> within P m' -> within P m.
Proof.
  intros H Hw w. destruct (Hw w) as (cs & HP & Hcs). exists cs. split; [done|].
  intros w' E. rewrite !H. by apply Hcs.
Qed.

(** The calls of [writeTemplate] depend on the output only. *)
Lemma within_writeTemplate_at tfs E (root : path) (o t0 t : string) (cfg : Config) :
  (o, t0) ∈ templates ->
  within (render_call root) (writeTemplate tfs E root o t cfg).
Proof.
  intros H. unfold writeTemplate.
  assert (root ++ rel o ∈ map (fun ot => root ++ rel ot.1) templates) as Hout.
  { apply list_elem_of_fmap. by exists (o, t0). }
  apply within_bind; [by apply within_templateFS_ReadFile|].
  intros [text|err]; [|apply within_ret].
  apply within_bind; [by apply within_template_Parse|].
  intros [tmpl|err]; [|apply within_ret].
  rewrite (Dir_output root o t0 H), (Join_output root o t0 H).
  apply within_bind.
  { apply within_os_MkdirAll. apply list_elem_of_fmap. by exists (o, t0). }
  intros _. apply within_bind; [by apply within_os_Create|].
  intros [err|]; [apply within_ret|].
  apply within_bind; [by apply within_template_Execute|].
  intros r. apply within_bind; [by apply within_file_Close|].
  intros _. apply within_ret.
Qed.

Lemma within_later_writeTemplate tfs E (root : path) (o t0 t : string) (cfg : Config) :
  (o, t0) ∈ templates -> no_slash t = true -> t <> "" ->
  within (render_call root)
    (Later.writeTemplate tfs E root o ("templates" +:+ "/" +:+ t) cfg).
Proof.
  intros H Hs Hne.
  apply (within_ext _ _ (writeTemplate tfs E root o t cfg)).
  - intros w. by apply later_writeTemplate_named.
  - by apply (within_writeTemplate_at tfs E root o t0 t cfg).
Qed.

(** The two static files when the steps before the templates have
    succeeded. *)
Lemma prelude_static (cwd : path) (cfg : Config) (w : world) :
  let root := filepath_Abs cwd (Root cfg) in
  (prelude cwd cfg w).1 = None ->
  fs (prelude cwd cfg w).2 !! (root ++ ["go.mod"])
    = Some (RegFile (goMod_content (ModuleName cfg)))
  /\ fs (prelude cwd cfg w).2 !! (root ++ ["Makefile"])
    = Some (RegFile (Makefile_content (Port cfg))).
Proof.
  intros root. unfold prelude. fold root. unfold check, bind.
  destruct (os_MkdirAll_name _ _ w) as [[err|] w1]; [done|].
  destruct (phase_clean _ cfg w1) as [[] w2].
  destruct (phase_dirs _ cfg w2) as [[] w3].
  unfold writeGoMod, writeMakefile, os_WriteFile.
  rewrite Join_go_mod, Join_Makefile. cbn [fst snd].
  destruct ((fs_write "open" (root ++ ["go.mod"]) _ (fs w3)).2) as [err|] eqn:E1;
    [done|].
  cbn [fst snd perform fs apply_call]. intros E2.
  apply fs_write_ok in E1 as (E1 & _). apply fs_write_ok in E2 as (E2 & _).
  split.
  - rewrite fs_write_other by (by intros Heq%app_inv_head).
    etrans; [exact (f_equal (fun m : filesystem => m !! (root ++ ["go.mod"])) E1)|].
    by rewrite lookup_insert_eq.
  - etrans; [exact (f_equal (fun m : filesystem => m !! (root ++ ["Makefile"])) E2)|].
    by rewrite lookup_insert_eq.
Qed.

Lemma later_generate_static tfs E (cwd : path) (cfg : Config) (w : world) :
  let root := filepath_Abs cwd (Root cfg) in
  (Later.generate tfs E cwd cfg w).1 = None ->
  fs (Later.generate tfs E cwd cfg w).2 !! (root ++ ["go.mod"])
    = Some (RegFile (goMod_content (ModuleName cfg)))
  /\ fs (Later.generate tfs E cwd cfg w).2 !! (root ++ ["Makefile"])
    = Some (RegFile (Makefile_content (Port cfg))).
Proof.
  intros root. rewrite later_generate_prelude. fold root.
  set (chain := check (Later.writeTemplate tfs E root "cmd/main.go" _ cfg) _).
  assert (within (render_call root) chain) as Hw.
  { subst chain.
    apply within_check.
    { apply (within_later_writeTemplate tfs E root _ "main.go.tmpl" "app.go.tmpl");
        [by left|done|done]. }
    apply within_check.
    { apply (within_later_writeTemplate tfs E root _ "router.go.tmpl" "router.go.tmpl");
        [right; by left|done|done]. }
    apply within_check.
    { apply (within_later_writeTemplate tfs E root _ "serverConfig.go.tmpl"
               "serverConfig.go.tmpl"); [right; right; by left|done|done]. }
    apply within_check; [|apply within_ret].
    apply (within_later_writeTemplate tfs E root _ "logger.go.tmpl" "logger.go.tmpl");
      [right; right; right; by left|done|done]. }
  pose proof (prelude_static cwd cfg w) as Hs. fold root in Hs.
  unfold check at 1 2 3, bind at 1 2 3.
  destruct (prelude cwd cfg w) as [[err|] w0]; [done|]. cbn [fst snd] in Hs.
  destruct (Hs eq_refl) as [H1 H2]. intros _.
  destruct (within_calls _ _ w0 Hw) as (cs & Hcs & ->). cbn [perform_all fs].
  split; (apply keeps_replay; [|done]); (eapply Forall_impl; [exact Hcs|]);
    intros c; apply render_call_keeps; by repeat constructor.
Qed.

Lemma later_main_eq tfs E (cwd : path) exec_Run (flags : Flags) (p : process) :
  flag_version flags = false ->
  Later.main tfs E cwd exec_Run flags p =
    let cfg := (resolve_config flags p).1 in
    let p1 := (resolve_config flags p).2 in
    let gen := Later.generate tfs E cwd cfg (os p1) in
    let cmd := exec_Run "go" ["mod"; "tidy"] (filepath_Abs cwd (Root cfg)) (fs gen.2) in
    match gen.1 with
    | Some err =>
        (1, Process (stdin p1) (stdout p1)
              (stderr p1 +:+ "Error: " +:+ error_Error err +:+ LF) gen.2)
    | None =>
        (0, Process (stdin p1)
              ((((((((stdout p1
                     +:+ (LF +:+ "✓ Project structure created successfully!" +:+ LF))
                    +:+ ("⏳ Installing dependencies..." +:+ LF))
                   +:+ Later.out_stdout cmd)
                  +:+ match Later.out_err cmd with
                      | Some _ => "You can manually run: go mod tidy" +:+ LF
                      | None => "✓ Dependencies installed successfully!" +:+ LF
                      end)
                 +:+ (LF +:+ "✓ Done! Your project is ready." +:+ LF))
                +:+ (LF +:+ "Next steps:" +:+ LF))
               +:+ ("  cd " +:+ Root cfg +:+ LF))
              +:+ ("  make run" +:+ LF))
              (match Later.out_err cmd with
               | Some msg =>
                   (stderr p1 +:+ Later.out_stderr cmd)
                   +:+ ("Warning: Failed to install dependencies: " +:+ msg +:+ LF)
               | None => stderr p1 +:+ Later.out_stderr cmd
               end)
              (World (Later.out_fs cmd) (trace gen.2)))
    end.
Proof.
  intros Hv. unfold Later.main. rewrite Hv. unfold bind at 1.
  destruct (resolve_config flags p) as [cfg p1]. cbn [fst snd].
  unfold bind at 1, liftOS.
  destruct (Later.generate tfs E cwd cfg (os p1)) as [[err|] w']; [reflexivity|].
  cbn [fst snd]. unfold bind, Later.installDependencies, fmt_Print, fmt_Fprint_Stderr, ret.
  cbn [fst snd stdin stdout stderr os].
  by destruct (Later.out_err _).
Qed.


